(** * GM-Simulator: roster ledger and win projection

    A shallow embedding of the parts of [data_cleaning.py],
    [team_projections.py] and [dashboard.py] that decide the roster ledger,
    the feature aggregation and the win projection, with the properties
    proved about them.

    Conventions of the embedding.
    - Python floats are modelled by exact rationals ([Q]); [round(x)] and
      [round(x, 1)] are round-half-to-even on the exact value. A double
      is within a relative 2^-53 of the exact value, so the two agree on
      a rounding away from a tie and on a sign test away from zero; at a
      tie or at zero the double can fall on either side. The statements
      that would otherwise depend on the side carry the margin as a
      hypothesis.
    - A pandas cell is a number, a string or the missing value ([NaN]).
    - A raised exception is a value [Raise e]; a Dash callback that raises
      leaves every output and the global frames as they were.
    - scikit-learn's [LinearRegression] is outside the repository: it is a
      section variable ([fit], [predict]), so every statement about the
      projection holds for any regression. *)

From Stdlib Require Import Ascii String QArith Qround Lqa.
From stdpp Require Import gmap strings list fin_maps.

Local Open Scope Z_scope.
Local Open Scope string_scope.
Local Open Scope list_scope.

(** ** Exceptions *)

Inductive exn := KeyError | ValueError | TypeError | IndexError | AttributeError.

Inductive result (A : Type) : Type :=
| Ok (a : A)
| Raise (e : exn).
Arguments Ok {A} a.
Arguments Raise {A} e.

Definition bind {A B} (m : result A) (k : A -> result B) : result B :=
  match m with
  | Ok a => k a
  | Raise e => Raise e
  end.

Notation "'do' x <- m ; k" := (bind m (fun x => k))
  (at level 10, x name, m at level 100, k at level 200).
Notation "'do' ( x , y ) <- m ; k" := (bind m (fun xy => let '(x, y) := xy in k))
  (at level 10, x name, y name, m at level 100, k at level 200).

(** ** Python's rounding on exact values *)

Module PyNum.

(** [round(x)]: nearest integer, a tie goes to the even neighbour. *)
Definition py_round (x : Q) : Z :=
  let f := Qfloor x in
  match Qcompare (x - inject_Z f) (1 # 2) with
  | Lt => f
  | Gt => f + 1
  | Eq => if Z.even f then f else f + 1
  end.

(** [round(x, 1)]. *)
Definition py_round1 (x : Q) : Q := inject_Z (py_round (x * 10)) / 10.

End PyNum.
Export PyNum.

(** ** Cells and frames *)

Inductive cell :=
| Num (q : Q)
| Str (s : string)
| NaN.

Definition is_nan (c : cell) : bool :=
  match c with NaN => true | _ => false end.

Definition is_str (s : string) (c : cell) : bool :=
  match c with Str t => String.eqb t s | _ => false end.

(** A frame has its column labels in order and one map per row; a column
    missing from a row's map reads as [NaN]. *)
Record DataFrame := mkDF {
  columns : list string;
  rows : list (gmap string cell)
}.

Definition at_col (label : string) (r : gmap string cell) : cell :=
  default NaN (r !! label).

Definition has_col (label : string) (cols : list string) : bool :=
  existsb (String.eqb label) cols.

(** [df[label]] as the list of its values. *)
Definition series (df : DataFrame) (label : string) : list cell :=
  map (at_col label) (rows df).

(** ** data_cleaning.py *)

Module DataCleaning.

(** The fifteen assignments [df.loc[(df["Pos"] == src), "Pos"] = dst] of
    [condense_positions], in source order. *)
Definition POS_RENAMES : list (string * string) :=
  [ ("OLB", "LB"); ("ILB", "LB"); ("MLB", "LB");
    ("DT", "DL"); ("DE", "DL");
    ("SS", "S"); ("FS", "S");
    ("FB", "RB"); ("RB-WR", "RB");
    ("QB/TE", "QB");
    ("G", "OL"); ("T", "OL"); ("C", "OL"); ("OT", "OL");
    ("DB", "CB") ].

(** The positions of [POS_COUNTS], the canonical ones. *)
Definition CANONICAL : list string :=
  [ "QB"; "RB"; "WR"; "OL"; "TE"; "DL"; "LB"; "CB"; "S"; "P"; "K" ].

(** [Series.replace('', np.nan)] on one cell. *)
Definition replace_empty (c : cell) : cell :=
  match c with
  | Str "" => NaN
  | _ => c
  end.

(** One assignment [df.loc[(df["Pos"] == src), "Pos"] = dst] on one row. *)
Definition rename_pos (src dst : string) (r : gmap string cell) : gmap string cell :=
  if is_str src (at_col "Pos" r) then <["Pos" := Str dst]> r else r.

Definition rename_all (rs : list (gmap string cell)) : list (gmap string cell) :=
  fold_left (fun acc '(src, dst) => map (rename_pos src dst) acc) POS_RENAMES rs.

Definition condense_positions (df : DataFrame) : result DataFrame :=
  if negb (has_col "Cap Hit" (columns df)) then Raise KeyError else
  let r1 := map (fun r => <["Cap Hit" := replace_empty (at_col "Cap Hit" r)]> r) (rows df) in
  let r2 := List.filter (fun r => negb (is_nan (at_col "Cap Hit" r))) r1 in
  if negb (has_col "Pos" (columns df)) then Raise KeyError else
  let r3 := List.filter (fun r => negb (is_str "LS" (at_col "Pos" r))) r2 in
  Ok (mkDF (columns df) (rename_all r3)).

(** [re.sub(r'[^0-9]', '', s)]. *)
Definition is_digit (a : ascii) : bool :=
  let n := N_of_ascii a in (48 <=? n)%N && (n <=? 57)%N.

Fixpoint keep_digits (s : string) : string :=
  match s with
  | EmptyString => EmptyString
  | String a t => if is_digit a then String a (keep_digits t) else keep_digits t
  end.

(** [int(s)] for a string of decimal digits; the empty string is a
    [ValueError]. *)
Fixpoint int_of_digits (acc : N) (s : string) : N :=
  match s with
  | EmptyString => acc
  | String a t => int_of_digits (acc * 10 + (N_of_ascii a - 48))%N t
  end.

Definition py_int (s : string) : result Z :=
  match s with
  | EmptyString => Raise ValueError
  | _ => Ok (Z.of_N (int_of_digits 0%N s))
  end.

(** [to_millions] on the row's ['Cap Hit'] cell. The value returned is the
    number [v] of the string [f'${v}m'] the source stores; [add_players]
    reads it back with [float(s.replace('$', '').replace('m', ''))], which
    yields [v] again. A cell that is not a string makes [re.sub] raise the
    [TypeError] the source catches. The quotient is rounded on its exact
    value: for dollars halfway between two tenths of a million (50,000
    more than a multiple of 100,000) Python rounds the double nearest to
    the quotient, which can pick the other of the two tenths
    (['$1,150,000'] is stored as 1.1). Either way the value stored is a
    tenth that is not negative. *)
Definition to_millions (cap_hit : cell) : result Q :=
  do n <- match cap_hit with
          | Str s => py_int (keep_digits s)
          | _ => Ok 0
          end;
  Ok (py_round1 (inject_Z n / 1000000)).

End DataCleaning.
Export DataCleaning.

(** ** team_projections.py *)

Module TeamProjections.

Definition AVERAGED_STATS : list string :=
  [ "ANY/A"; "AY/A"; "Cmp%"; "Int%"; "Kic_KOAvg"; "Kic_Y/Rt"; "Lng"; "NY/A";
    "Pts/G"; "Pun_Lng"; "Pun_Y/P"; "Pun_Y/R"; "Rus_Y/A"; "Sco_Lng"; "Sk%";
    "TD%"; "Y/A"; "Y/C"; "Y/G"; "Kic_Lng"; "Rate" ].

(** The numbers of a column, missing values skipped, as the reductions
    [Series.sum] and [Series.mean] see them. A string in the column makes
    the reduction (or the multiplication that follows the sum) raise
    [TypeError]; pandas 1.x departs from this only for the mean of a
    column made of nothing but numerals written as strings, which it
    joins and reads back as one number (['1'] and ['2'] average to 6.0).
    A string with a percent sign in it raises in every case. The sum
    taken is exact, hence the same in any order; a sum of doubles is the
    same in any order when the values are whole numbers. *)
Fixpoint numeric_values (l : list cell) : result (list Q) :=
  match l with
  | [] => Ok []
  | Num q :: t => do vs <- numeric_values t; Ok (q :: vs)
  | NaN :: t => numeric_values t
  | Str _ :: _ => Raise TypeError
  end.

Definition Qsum (l : list Q) : Q := fold_right Qplus 0%Q l.

(** [Series.sum()]: 0 when nothing is left to add. *)
Definition series_sum (l : list cell) : result Q :=
  do vs <- numeric_values l; Ok (Qsum vs).

(** [Series.mean()]: [NaN] when nothing is left to average. *)
Definition series_mean (l : list cell) : result cell :=
  do vs <- numeric_values l;
  match vs with
  | [] => Ok NaN
  | _ => Ok (Num (Qsum vs / inject_Z (Z.of_nat (length vs))))
  end.

(** [round(c, 1)] on a float cell; [round(nan, 1)] is [nan]. *)
Definition round1_cell (c : cell) : cell :=
  match c with
  | Num q => Num (py_round1 q)
  | _ => c
  end.

(** [d[label] = v] on an insertion-ordered dict, kept as its key order and
    its map. *)
Definition dict_set (label : string) (v : cell)
    (d : list string * gmap string cell) : list string * gmap string cell :=
  (if has_col label (fst d) then fst d else fst d ++ [label], <[label := v]> (snd d)).

(** The body of the loop of [get_team_stats] for one label; the state is
    ([gm_team_stats], [empty_cols]). *)
Definition team_stat_step (gm_team : DataFrame)
    (st : (list string * gmap string cell) * list string) (label : string)
    : result ((list string * gmap string cell) * list string) :=
  let '(stats, empty_cols) := st in
  if has_col label (columns gm_team) then
    if has_col label AVERAGED_STATS then
      do m <- series_mean (series gm_team label);
      Ok (dict_set label (round1_cell m) stats, empty_cols)
    else
      do s <- series_sum (series gm_team label);
      Ok (dict_set label (Num (s * (16 / 11))) stats, empty_cols)
  else Ok (stats, empty_cols ++ [label]).

Fixpoint team_stat_loop (gm_team : DataFrame) (labels : list string)
    (st : (list string * gmap string cell) * list string)
    : result ((list string * gmap string cell) * list string) :=
  match labels with
  | [] => Ok st
  | label :: rest =>
      do st' <- team_stat_step gm_team st label;
      team_stat_loop gm_team rest st'
  end.

(** [pd.DataFrame.from_dict(d)] for a dict of one-element lists: one row,
    or no row at all when the dict is empty. *)
Definition from_dict (d : list string * gmap string cell) : DataFrame :=
  match fst d with
  | [] => mkDF [] []
  | _ => mkDF (fst d) [snd d]
  end.

(** [l.remove(x)]: the first occurrence goes, [ValueError] without one. *)
Fixpoint list_remove (x : string) (l : list string) : result (list string) :=
  match l with
  | [] => Raise ValueError
  | y :: t => if String.eqb y x then Ok t
              else do t' <- list_remove x t; Ok (y :: t')
  end.

Definition get_team_stats (team_data gm_team : DataFrame)
    : result (list string * DataFrame) :=
  do (stats, empty_cols) <- team_stat_loop gm_team (columns team_data) (([], ∅), []);
  let gm_team_stats := from_dict stats in
  do empty_cols' <- list_remove "W-L%" empty_cols;
  Ok (empty_cols', gm_team_stats).

(** [df.drop(labels, axis=1)]: every label has to be a column. *)
Definition drop_columns (labels : list string) (df : DataFrame) : result DataFrame :=
  if forallb (fun l => has_col l (columns df)) labels then
    Ok (mkDF (List.filter (fun c => negb (has_col c labels)) (columns df))
             (map (fun r => fold_right delete r labels) (rows df)))
  else Raise KeyError.

(** [pd.concat([a, b])] followed by [reset_index(drop=True)]. *)
Definition concat (a b : DataFrame) : DataFrame :=
  mkDF (columns a ++ List.filter (fun c => negb (has_col c (columns a))) (columns b))
       (rows a ++ rows b).

(** [df.fillna(0)]. *)
Definition fillna0 (df : DataFrame) : DataFrame :=
  mkDF (columns df)
       (map (fun r => fold_right
                        (fun c acc => if is_nan (at_col c r) then <[c := Num 0%Q]> acc else acc)
                        r (columns df))
            (rows df)).

(** The table [analyze_team] hands to [run_ml]. *)
Definition analysis_table (agg_teams gm_team : DataFrame) : result DataFrame :=
  do gm_team <- condense_positions gm_team;
  do team_data <- drop_columns ["Team"; "Season"] agg_teams;
  do (empty_cols, gm_team_stats) <- get_team_stats team_data gm_team;
  do team_data <- drop_columns empty_cols team_data;
  Ok (fillna0 (concat team_data gm_team_stats)).

(** [df.loc[:, cols].values] as a matrix of floats; scikit-learn refuses
    strings and missing values with a [ValueError]. *)
Definition float_of_cell (c : cell) : result Q :=
  match c with
  | Num q => Ok q
  | _ => Raise ValueError
  end.

Fixpoint mapM {A B} (f : A -> result B) (l : list A) : result (list B) :=
  match l with
  | [] => Ok []
  | a :: t => do b <- f a; do bs <- mapM f t; Ok (b :: bs)
  end.

Definition values (df : DataFrame) (cols : list string) : result (list (list Q)) :=
  if forallb (fun c => has_col c (columns df)) cols then
    mapM (fun r => mapM (fun c => float_of_cell (at_col c r)) cols) (rows df)
  else Raise KeyError.

(** [a[:-1]] and [a[-1]]. *)
Definition all_but_last {A} (l : list A) : list A := removelast l.

Definition last_row {A} (l : list A) : result A :=
  match List.last (map Some l) None with
  | Some a => Ok a
  | None => Raise IndexError
  end.

Section Regression.

(** scikit-learn's [LinearRegression]: [fit] and [predict]. *)
Variable model : Type.
Variable fit : list (list Q) -> list Q -> result model.
Variable predict : model -> list (list Q) -> list Q.

(** [disp_regress]: the printing is left out. *)
Definition disp_regress (df : DataFrame) (x_feat_list : list string) (y_feat : string)
    : result model :=
  do x <- values df x_feat_list;
  do y <- values df [y_feat];
  do reg <- fit x (List.concat y);
  let y_pred := predict reg x in
  Ok reg.

(** The last line before [return] of [run_ml]. *)
Definition wins_of (y_pred0 : Q) : Z := py_round (y_pred0 * 17).

Definition run_ml (team_data : DataFrame) : result Z :=
  let x_cols := List.filter (fun c => negb (String.eqb c "W-L%")) (columns team_data) in
  do res <- disp_regress team_data x_cols "W-L%";
  do x <- values team_data x_cols;
  do y <- values team_data ["W-L%"];
  let y := List.concat y in
  let x_train := all_but_last x in
  let y_train := all_but_last y in
  do x_test <- last_row x;
  do reg <- fit x_train y_train;
  let y_pred := predict reg [x_test] in
  match y_pred with
  | [] => Raise IndexError
  | y0 :: _ => Ok (wins_of y0)
  end.

Definition analyze_team (agg_teams gm_team : DataFrame) : result Z :=
  do all_teams <- analysis_table agg_teams gm_team;
  run_ml all_teams.

End Regression.

End TeamProjections.
Export TeamProjections.

(** ** dashboard.py *)

Module Dashboard.

(** Salary cap, in millions. *)
Definition SALARY : Q := 150.

Inductive status := ADD | REMOVE.

(** A row of [player_df] after [condense_positions] and
    [convert_salaries]. [Cap_Hit] is the number [v] of the stored string
    [f'${v}m'] (see [to_millions]). *)
Record player := mkPlayer {
  id : Z;
  Player : string;
  Pos : string;
  Cap_Hit : Q
}.

(** [player_df], keyed by index label. The ['Status'] column is held apart
    from the other columns because it is the only one the callbacks write:
    [player_df.loc[i, 'Status'] = v] on a label [i] the frame does not have
    adds a row whose other cells are missing, which is a label of [pstatus]
    that [pdata] lacks. *)
Record PlayerFrame := mkPF {
  pdata : gmap Z player;
  pstatus : gmap Z status
}.

(** A row of [team_df]: the index label it was copied under, the copied
    cells and its own ['Status'] cell. *)
Record team_row := mkTR {
  label : Z;
  entry : player;
  tstatus : status
}.

(** [team_df]. It starts with the columns of [initial_player_view], which
    keeps [KEY_STATS] only and so has no ['id'] column; the first
    [pd.concat] with a row of [player_df] brings every column in. *)
Record TeamFrame := mkTF {
  has_id : bool;
  trows : list team_row
}.

(** The two module-level frames the callbacks share. *)
Record globals := mkG {
  player_df : PlayerFrame;
  team_df : TeamFrame
}.

(** [active_cell] of a DataTable. *)
Record active_cell := mkCell {
  row_id : Z;
  column_id : string
}.

(** [ctx.triggered_id] for the inputs of [add_players]. *)
Inductive trigger := datatable_interactivity | salary_display | team_datatable.

(** [x < y] on floats. *)
Definition Qlt_bool (x y : Q) : bool := negb (Qle_bool y x).

(** Python's [sum] of a list of floats. *)
Definition py_sum (l : list Q) : Q := fold_left Qplus l 0%Q.

Definition team_salaries (t : TeamFrame) : Q :=
  py_sum (map (fun r => Cap_Hit (entry r)) (trows t)).

(** [team_df.drop(row_id, axis=0)]: every row under that label goes;
    [KeyError] when there is none. *)
Definition drop_label (i : Z) (t : TeamFrame) : result TeamFrame :=
  if existsb (fun r => Z.eqb (label r) i) (trows t) then
    Ok (mkTF (has_id t) (List.filter (fun r => negb (Z.eqb (label r) i)) (trows t)))
  else Raise KeyError.

(** [team_df['Status'] = 'REMOVE']. *)
Definition set_all_remove (t : TeamFrame) : TeamFrame :=
  mkTF (has_id t) (map (fun r => mkTR (label r) (entry r) REMOVE) (trows t)).

(** [add_players]. The result is the new globals and the two outputs
    ([team_datatable.data], [salary_display.value]), or [None] for
    [dash.no_update]. A label that only has a ['Status'] cell has a
    missing ['Cap Hit'], on which [.replace] is an [AttributeError]. The
    test [SALARY - salaries - player_sal < 0] is on the exact amounts;
    on doubles the difference of an add that would leave exactly 0 can
    come out just below 0, and the code then refuses that add too. *)
Definition add_players (g : globals) (triggered_id : trigger)
    (cell : option active_cell) (salary : Q) (team_cell : option active_cell)
    : result (globals * option (list team_row * Q)) :=
  let cell := match triggered_id with team_datatable => team_cell | _ => cell end in
  match cell with
  | Some c =>
    if String.eqb (column_id c) "Status" then
      let row_id := row_id c in
      do status <- match pstatus (player_df g) !! row_id with
                   | Some s => Ok s
                   | None => Raise KeyError
                   end;
      do sel_player <- match pdata (player_df g) !! row_id with
                       | Some p => Ok p
                       | None => Raise AttributeError
                       end;
      let player_sal := Cap_Hit sel_player in
      let salaries := team_salaries (team_df g) in
      do (team_df', salary') <-
        match status with
        | ADD =>
            if Qlt_bool (SALARY - salaries - player_sal) 0 then
              Ok (team_df g, salary)
            else
              Ok (mkTF true (trows (team_df g) ++ [mkTR row_id sel_player status]),
                  SALARY - salaries - player_sal)%Q
        | REMOVE =>
            do t <- drop_label row_id (team_df g);
            Ok (t, SALARY + player_sal - salaries)%Q
        end;
      let team_df' := set_all_remove team_df' in
      Ok (mkG (player_df g) team_df', Some (trows team_df', py_round1 salary'))
    else Ok (g, None)
  | None => Ok (g, None)
  end.

(** [modify_button], for its effect on [player_df]; the table data it
    returns is a view of that frame. *)
Definition modify_button (g : globals) : result globals :=
  if has_id (team_df g) then
    let ids := map (fun r => id (entry r)) (trows (team_df g)) in
    let all_add := (fun _ => ADD) <$> pstatus (player_df g) in
    let marked := fold_left (fun m i => <[i := REMOVE]> m) ids all_add in
    Ok (mkG (mkPF (pdata (player_df g)) marked) (team_df g))
  else Raise KeyError.

(** One browser session: the globals and what the salary display shows. *)
Record session := mkS {
  glob : globals;
  display : Q
}.

(** A change of an input of [add_players], with the values of its three
    inputs at that moment. *)
Record event := mkEv {
  ev_trigger : trigger;
  ev_cell : option active_cell;
  ev_team_cell : option active_cell
}.

(** One event, handled to the end of the callback chain: [add_players],
    then, when it wrote [team_datatable.data], [modify_table] with
    [triggered_id == 'team_datatable'], that is [modify_button]. A callback
    that raises updates nothing. *)
Definition handle (s : session) (e : event) : session :=
  match add_players (glob s) (ev_trigger e) (ev_cell e) (display s) (ev_team_cell e) with
  | Ok (g, Some (_, salary)) =>
      match modify_button g with
      | Ok g' => mkS g' salary
      | Raise _ => mkS g salary
      end
  | Ok (_, None) => s
  | Raise _ => s
  end.

Definition run (s : session) (evs : list event) : session := fold_left handle evs s.

(** The session at start-up: every status ['ADD'], an empty team, the
    display at [SALARY]. *)
Definition start (pool : gmap Z player) : session :=
  mkS (mkG (mkPF pool ((fun _ => ADD) <$> pool)) (mkTF false [])) SALARY.

(** *** The percent conversion of [update_radar] *)

(** [s.rstrip("%")]: every trailing percent sign goes. *)
Fixpoint rstrip_percent (s : string) : string :=
  match s with
  | EmptyString => EmptyString
  | String a t =>
      match rstrip_percent t with
      | EmptyString => if Ascii.eqb a "%" then EmptyString else String a EmptyString
      | t' => String a t'
      end
  end.

(** The text before the first ['.'] and, when there is one, the text after
    it. *)
Fixpoint split_dot (s : string) : string * option string :=
  match s with
  | EmptyString => (EmptyString, None)
  | String a t =>
      if Ascii.eqb a "." then (EmptyString, Some t)
      else let '(i, f) := split_dot t in (String a i, f)
  end.

Fixpoint all_digits (s : string) : bool :=
  match s with
  | EmptyString => true
  | String a t => is_digit a && all_digits t
  end.

(** [float(s)] on the literals [digits], [digits.digits], [digits.] and
    [.digits], with an optional sign, and on ["nan"]. Python's [float]
    also reads exponents, infinities, underscores and surrounding blanks;
    those forms are left out and none is used below. *)
Definition py_float_unsigned (s : string) : result Q :=
  let '(i, f) := split_dot s in
  let f := default EmptyString f in
  if all_digits i && all_digits f && negb (String.eqb (i ++ f)%string EmptyString) then
    Ok (inject_Z (Z.of_N (int_of_digits 0%N (i ++ f)%string))
        / inject_Z (10 ^ Z.of_nat (String.length f)))%Q
  else Raise ValueError.

Definition py_float (s : string) : result cell :=
  if String.eqb s "nan" then Ok NaN else
  match s with
  | String "-" t => do q <- py_float_unsigned t; Ok (Num (- q))
  | String "+" t => do q <- py_float_unsigned t; Ok (Num q)
  | _ => do q <- py_float_unsigned s; Ok (Num q)
  end.

(** [x.astype(str).str.rstrip("%").astype(float) / 100] on one cell. A
    float survives [astype(str)] and [astype(float)] unchanged, a missing
    value becomes ["nan"] and is read back as missing. *)
Definition radar_value (c : cell) : result cell :=
  do v <- match c with
          | Num q => Ok (Num q)
          | NaN => py_float "nan"
          | Str s => py_float (rstrip_percent s)
          end;
  match v with
  | Num q => Ok (Num (q / 100)%Q)
  | _ => Ok v
  end.

(** The same on a column, as the loop over [position_list] applies it. *)
Definition radar_column (l : list cell) : result (list cell) := mapM radar_value l.

(** [ctx.triggered_id] for the inputs of [update_machinelearning]. *)
Inductive ml_trigger := ml_team_datatable | button.

Section Projection.

Variable model : Type.
Variable fit : list (list Q) -> list Q -> result model.
Variable predict : model -> list (list Q) -> list Q.

(** [update_machinelearning]. [team_data] is the frame
    [pd.DataFrame.from_dict(team_dict)], [agg_teams] the contents of
    [agg_teams.csv]; the result [None] is the callback falling through
    without a [return]. *)
Definition update_machinelearning (agg_teams team_data : DataFrame)
    (triggered_id : ml_trigger) : result (option Z) :=
  match triggered_id with
  | button =>
      do pred_wins <- analyze_team model fit predict agg_teams team_data;
      Ok (Some (Z.min (Z.max pred_wins 0) 16))
  | ml_team_datatable => Ok None
  end.

End Projection.

End Dashboard.
Export Dashboard.

(** ** Statements of the specification that the code is compared with *)

Module Spec.

(** Season length of the specification. *)
Definition games_in_season : Z := 16.

(** Section 4.4: [round(win_fraction * games_in_season)], clamped to
    [[0, games_in_season]]. *)
Definition spec_wins (win_fraction : Q) : Z :=
  Z.min (Z.max (py_round (win_fraction * inject_Z games_in_season)) 0) games_in_season.


(** Section 4.1: a raw position that is neither a mapped synonym nor
    canonical. *)
Definition unmapped (p : string) : Prop :=
  ~ In p (map fst POS_RENAMES) /\ ~ In p CANONICAL.

(** Section 4.2: the salary in millions at full precision, and the
    remaining budget computed on such values and rounded for display
    only. *)
Definition full_precision (raw : string) : Q :=
  inject_Z (Z.of_N (int_of_digits 0%N (keep_digits raw))) / 1000000.

Definition spec_remaining (salary_cap : Q) (raws : list string) : Q :=
  py_round1 (salary_cap - py_sum (map full_precision raws)).

End Spec.
Export Spec.

(** ** Predicates used in the statements *)

Module Predicates.

(** A value with one decimal place. *)
Definition tenth (x : Q) : Prop := exists z : Z, (x == inject_Z z / 10)%Q.

(** What the start-up code of [dashboard.py] makes of the player file: the
    index label of a row is its ['id'] (the file's ['id'] column is the
    reset index written by [scraping.players_and_salaries]) and every
    ['Cap Hit'] went through [to_millions]. *)
Definition pool_ok (pool : gmap Z player) : Prop :=
  forall i p, pool !! i = Some p ->
    id p = i /\ exists c v, to_millions c = Ok v /\ (Cap_Hit p == v)%Q.

(** The value [get_team_stats] stores under a label that is a column of
    the roster frame. *)
Definition team_stat (gm_team : DataFrame) (label : string) : result cell :=
  if has_col label AVERAGED_STATS then
    do m <- series_mean (series gm_team label); Ok (round1_cell m)
  else
    do s <- series_sum (series gm_team label); Ok (Num (s * (16 / 11))).

(** The cell [add_players] works on. *)
Definition selected (e : event) : option active_cell :=
  match ev_trigger e with
  | team_datatable => ev_team_cell e
  | _ => ev_cell e
  end.

(** The invariant of the callback chain. *)
Record ledger_inv (pool : gmap Z player) (s : session) : Prop := mkInv {
  inv_pool : pdata (player_df (glob s)) = pool;
  inv_dom : forall i, is_Some (pstatus (player_df (glob s)) !! i) <-> is_Some (pool !! i);
  inv_status : forall i, pstatus (player_df (glob s)) !! i = Some REMOVE
                         <-> In i (map label (trows (team_df (glob s))));
  inv_rows : forall r, In r (trows (team_df (glob s))) ->
                       pool !! label r = Some (entry r) /\ tstatus r = REMOVE;
  inv_nodup : List.NoDup (map label (trows (team_df (glob s))));
  inv_has_id : has_id (team_df (glob s)) = false -> trows (team_df (glob s)) = [];
  inv_budget : (display s == SALARY - team_salaries (team_df (glob s)))%Q;
  inv_nonneg : (0 <= display s)%Q
}.

End Predicates.
Export Predicates.

(** ** Sample data *)

Module Samples.

(** The example of section 8: A costs 20, B costs 140. *)
Definition pA : player := mkPlayer 0 "A" "QB" 20.
Definition pB : player := mkPlayer 1 "B" "RB" 140.
Definition pool_AB : gmap Z player := <[0 := pA]> (<[1 := pB]> ∅).

(** A click on the ['Status'] cell of row [i] of the player table, and of
    the team table. *)
Definition click (i : Z) : event :=
  mkEv datatable_interactivity (Some (mkCell i "Status")) None.
Definition click_team (i : Z) : event :=
  mkEv team_datatable None (Some (mkCell i "Status")).

(** Two players whose cap hits are 1,040,000 dollars each, as
    [convert_salaries] stores them. *)
Definition cap_of (raw : string) : Q :=
  match to_millions (Str raw) with
  | Ok v => v
  | Raise _ => 0
  end.
Definition pC : player := mkPlayer 0 "C" "WR" (cap_of "$1,040,000").
Definition pD : player := mkPlayer 1 "D" "WR" (cap_of "$1,040,000").
Definition pool_CD : gmap Z player := <[0 := pC]> (<[1 := pD]> ∅).

(** A historical table of two team seasons. *)
Definition agg_sample : DataFrame :=
  mkDF ["Team"; "Season"; "Cmp%"; "Yds"; "TD"; "W-L%"]
       [ {[ "Team" := Str "NWE"; "Season" := Num 2020; "Cmp%" := Num 60;
            "Yds" := Num 4000; "TD" := Num 30; "W-L%" := Num (1 # 2) ]};
         {[ "Team" := Str "BUF"; "Season" := Num 2020; "Cmp%" := Num 65;
            "Yds" := Num 4500; "TD" := Num 40; "W-L%" := Num (3 # 4) ]} ].

(** Its columns once ['Team'] and ['Season'] are dropped. *)
Definition td_sample : DataFrame :=
  mkDF ["Cmp%"; "Yds"; "TD"; "W-L%"]
       [ {[ "Cmp%" := Num 60; "Yds" := Num 4000; "TD" := Num 30; "W-L%" := Num (1 # 2) ]};
         {[ "Cmp%" := Num 65; "Yds" := Num 4500; "TD" := Num 40; "W-L%" := Num (3 # 4) ]} ].

(** One-player rosters: with numeric statistics, with the statistics
    missing, with a percent-suffixed string, and with a raw position the
    renaming table does not list. *)
Definition gm_numeric : DataFrame :=
  mkDF ["Player"; "Pos"; "Cap Hit"; "Cmp%"; "Yds"]
       [ {[ "Player" := Str "Q"; "Pos" := Str "QB"; "Cap Hit" := Str "$1.0m";
            "Cmp%" := Num (125 # 2); "Yds" := Num 110 ]} ].

Definition gm_missing : DataFrame :=
  mkDF ["Player"; "Pos"; "Cap Hit"; "Cmp%"; "Yds"]
       [ {[ "Player" := Str "K"; "Pos" := Str "K"; "Cap Hit" := Str "$1.0m" ]} ].

Definition gm_percent : DataFrame :=
  mkDF ["Player"; "Pos"; "Cap Hit"; "Cmp%"; "Yds"]
       [ {[ "Player" := Str "Q"; "Pos" := Str "QB"; "Cap Hit" := Str "$1.0m";
            "Cmp%" := Str "62.5%"; "Yds" := Num 110 ]} ].

Definition df_nt : DataFrame :=
  mkDF ["Player"; "Pos"; "Cap Hit"]
       [ {[ "Player" := Str "N"; "Pos" := Str "NT"; "Cap Hit" := Str "$5,000,000" ]} ].

(** A regression that predicts [y] for every row. *)
Definition const_fit (x : list (list Q)) (y : list Q) : result unit := Ok tt.
Definition const_predict (y0 : Q) (m : unit) (x : list (list Q)) : list Q :=
  map (fun _ => y0) x.

End Samples.
Export Samples.

(** ** data_cleaning.py: the column filters *)

Module DataCleaningColumns.

Definition KEY_STATS : list string :=
  [ "Status"; "Player"; "Pos"; "Team"; "Age"; "No."; "Cap Hit" ].

(** [POS_COUNTS]: for each side of the ball, the acceptable counts of each
    position. *)
Definition POS_COUNTS : list (string * list (string * list Z)) :=
  [ ("Offense", [ ("QB", [1]); ("RB", [1]); ("WR", [3]); ("OL", [5]); ("TE", [1]) ]);
    ("Defense", [ ("DL", [4; 5]); ("LB", [2; 3]); ("CB", [2; 3]); ("S", [1; 2]) ]);
    ("Special Teams", [ ("P", [1]); ("K", [1]) ]) ].

(** [Series.count()]: the cells that are not missing. *)
Definition count (l : list cell) : nat :=
  length (List.filter (fun c => negb (is_nan c)) l).

(** [remove_empty]: the columns with fewer than ten values go. *)
Definition remove_empty (df : DataFrame) : result DataFrame :=
  let empty_cols :=
    List.filter (fun col => Nat.ltb (count (series df col)) 10) (columns df) in
  drop_columns empty_cols df.

(** [c == 0] on one cell: a missing value or a string is not 0. *)
Definition is_zero (c : cell) : bool :=
  match c with
  | Num q => Qeq_bool q 0
  | _ => false
  end.

(** [drop_zeroes]: the columns that hold nothing but 0 go;
    [(df[col] == 0).all()] is true of a column without cells. *)
Definition drop_zeroes (df : DataFrame) : result DataFrame :=
  let empty_cols :=
    List.filter (fun col => forallb is_zero (series df col)) (columns df) in
  drop_columns empty_cols df.

(** [initial_player_view]: the columns outside [KEY_STATS] go. *)
Definition initial_player_view (df : DataFrame) : result DataFrame :=
  let non_key_stats :=
    List.filter (fun col => negb (has_col col KEY_STATS)) (columns df) in
  drop_columns non_key_stats df.

End DataCleaningColumns.
Export DataCleaningColumns.

(** ** Predicates used in the further statements *)

Module MorePredicates.

(** A row as [condense_positions] leaves it: a cap hit that is neither
    missing nor empty, a position that is neither ["LS"] nor one of the
    renamed synonyms. *)
Definition condensed (r : gmap string cell) : Prop :=
  (exists c, r !! "Cap Hit" = Some c /\ c <> NaN /\ c <> Str "")
  /\ at_col "Pos" r <> Str "LS"
  /\ forall p, at_col "Pos" r = Str p -> ~ In p (map fst POS_RENAMES).

(** Equality of cells with floats compared by value. *)
Definition cell_eqv (a b : cell) : Prop :=
  match a, b with
  | Num q, Num r => (q == r)%Q
  | Str s, Str t => s = t
  | NaN, NaN => True
  | _, _ => False
  end.

(** A cell whose sums are exact in floating point: missing, or a whole
    number of at most nine digits. *)
Definition whole_cell (c : cell) : Prop :=
  match c with
  | Num q => exists z : Z, (q == inject_Z z)%Q /\ (Z.abs z <= 1000000000)%Z
  | NaN => True
  | Str _ => False
  end.

(** [fillna(0)] on one cell. *)
Definition fillna_cell (c : cell) : cell := if is_nan c then Num 0 else c.

(** The renaming of one row by the fifteen assignments, in order. *)
Definition rename_row (r : gmap string cell) : gmap string cell :=
  fold_left (fun acc '(src, dst) => rename_pos src dst acc) POS_RENAMES r.

End MorePredicates.
Export MorePredicates.

(** ** Further sample data *)

Module MoreSamples.

(** A frame with an outside linebacker, a long snapper and a player
    without cap hit. *)
Definition row_olb : gmap string cell :=
  {[ "Player" := Str "L"; "Pos" := Str "OLB"; "Cap Hit" := Str "$2,500,000" ]}.
Definition df_raw : DataFrame :=
  mkDF ["Player"; "Pos"; "Cap Hit"]
       [ row_olb;
         {[ "Player" := Str "S"; "Pos" := Str "LS"; "Cap Hit" := Str "$900,000" ]};
         {[ "Player" := Str "E"; "Pos" := Str "WR"; "Cap Hit" := Str "" ]} ].


(** A roster with whole numbers only, and the same roster in the other
    order. *)
Definition row_q1 : gmap string cell :=
  {[ "Cmp%" := Num 60; "Yds" := Num 110 ]}.
Definition row_w1 : gmap string cell :=
  {[ "Cmp%" := Num 65; "Yds" := Num 55 ]}.
Definition row_n1 : gmap string cell :=
  {[ "Yds" := Num 11 ]}.
Definition gm_whole : DataFrame :=
  mkDF ["Cmp%"; "Yds"] [row_q1; row_w1; row_n1].
Definition gm_whole_swapped : DataFrame :=
  mkDF ["Cmp%"; "Yds"] [row_n1; row_w1; row_q1].

(** A player table with ten wide receivers, nine of them with yards, and
    a quarterback. *)
Definition row_wr : gmap string cell :=
  {[ "Player" := Str "W"; "Pos" := Str "WR"; "Yds" := Num 55 ]}.
Definition df_wr : DataFrame :=
  mkDF ["Player"; "Pos"; "Yds"]
       (repeat row_wr 9
        ++ [ {[ "Player" := Str "V"; "Pos" := Str "WR" ]};
             {[ "Player" := Str "Q"; "Pos" := Str "QB"; "Yds" := Num 110 ]} ]).

(** A historical table without the label column. *)
Definition td_no_label : DataFrame :=
  mkDF ["Cmp%"; "Yds"] [ {[ "Cmp%" := Num 60; "Yds" := Num 4000 ]} ].

End MoreSamples.
Export MoreSamples.

(** ** The cap hit as a string *)

Module CapHitStrings.

(** The decimal digits of [n], most significant first, put before [acc]. *)
Fixpoint digits_fuel (fuel : nat) (n : N) (acc : string) : string :=
  match fuel with
  | O => acc
  | S f =>
      let acc' := String (ascii_of_N (48 + n mod 10)) acc in
      if (n / 10 =? 0)%N then acc' else digits_fuel f (n / 10) acc'
  end.

(** [str(n)] for an integer [n >= 0]. *)
Definition py_str_int (n : N) : string :=
  digits_fuel (S (N.to_nat (N.log2 n))) n EmptyString.

(** [f'${v}m'] as [to_millions] writes it, for a float [v >= 0] with one
    decimal place (below [1e16], where Python prints a float in
    positional notation): the integer part, a point, the tenths digit. *)
Definition cap_hit_string (v : Q) : string :=
  let t := Z.to_N (Qfloor (v * 10)) in
  String "$" (py_str_int (t / 10) +:+ String "." (py_str_int (t mod 10) +:+ "m")).

(** [s.replace(a, '')] for a one-character [a]. *)
Fixpoint remove_char (a : ascii) (s : string) : string :=
  match s with
  | EmptyString => EmptyString
  | String b t => if Ascii.eqb b a then remove_char a t else String b (remove_char a t)
  end.

(** [float(x.replace('$', '').replace('m', ''))], as [add_players] reads
    a ['Cap Hit'] cell. *)
Definition read_cap_hit (s : string) : result cell :=
  py_float (remove_char "m" (remove_char "$" s)).

End CapHitStrings.
Export CapHitStrings.

(** ** dashboard.py: the field chart *)

Module FieldChart.

(** A value of [pos_loc]: one pair of coordinates written flat, as for
    ['QB'], or a list of pairs. *)
Inductive loc :=
| Flat (x y : Q)
| Coords (l : list (Q * Q)).

Definition pos_loc : list (string * loc) :=
  [ ("QB", Flat (11 # 2) 8);
    ("RB", Coords [ (6, 15 # 2) ]);
    ("WR", Coords [ (9, 9); (10, 9); (2, 9) ]);
    ("OL", Coords [ (7 # 2, 9); (9 # 2, 9); (11 # 2, 9); (13 # 2, 9); (15 # 2, 9) ]);
    ("TE", Flat 8 9);
    ("DL", Coords [ (7 # 2, 11); (9 # 2, 11); (13 # 2, 11); (15 # 2, 11); (11 # 2, 11) ]);
    ("LB", Coords [ (4, 12); (7, 12); (11 # 2, 12) ]);
    ("CB", Coords [ (19 # 2, 11); (2, 11) ]);
    ("S", Coords [ (7 # 2, 14); (15 # 2, 14) ]);
    ("K", Flat 1 5);
    ("P", Flat 1 4) ]%Q.

(** [pos_range]: the dict the first loop fills from [POS_COUNTS]. *)
Definition pos_range : gmap string (list Z) :=
  fold_left (fun m side => fold_left (fun m kv => <[fst kv := snd kv]> m) (snd side) m)
            POS_COUNTS ∅.

(** The five lists the figure is drawn from. *)
Record figure := mkFig {
  x_list : list Q;
  y_list : list Q;
  color_list : list string;
  label_list : list string;
  symbols : list string
}.

(** The two loops over [POS_COUNTS] that append the marker symbol. *)
Definition append_symbols (key : string) (syms : list string) : list string :=
  fold_left
    (fun syms side =>
       fold_left
         (fun syms kv =>
            if String.eqb key (fst kv) then
              syms ++ [ if String.eqb (fst side) "Offense" then "x"
                        else if String.eqb (fst side) "Defense" then "circle-open"
                        else "square" ]
            else syms)
         (snd side) syms)
    POS_COUNTS syms.

(** The appends for one marker. *)
Definition add_marker (key color : string) (fig : figure) (xy : Q * Q) : figure :=
  mkFig (x_list fig ++ [fst xy]) (y_list fig ++ [snd xy])
        (color_list fig ++ [color]) (label_list fig ++ [key])
        (append_symbols key (symbols fig)).

(** [min] and [max] of a list of integers; [ValueError] on an empty
    one. *)
Definition py_min (l : list Z) : result Z :=
  match l with
  | [] => Raise ValueError
  | a :: t => Ok (fold_left Z.min t a)
  end.

Definition py_max (l : list Z) : result Z :=
  match l with
  | [] => Raise ValueError
  | a :: t => Ok (fold_left Z.max t a)
  end.

Definition is_defense (key : string) : bool := has_col key ["DL"; "LB"; "CB"; "S"].

(** [len(pos_loc[key])]. *)
Definition loc_len (v : loc) : nat :=
  match v with
  | Flat _ _ => 2
  | Coords l => length l
  end.

(** The body of the loop over [pos_loc.items()]. A flat pair that lost
    its second number would be iterated as a list of pairs, which fails
    on the first subscript. *)
Definition chart_step (position_count : list string) (fig : figure)
    (entry : string * loc) : result figure :=
  let '(key, value) := entry in
  let player_count := count_occ string_dec position_count key in
  let popped :=
    Z.eqb (Z.of_nat player_count) (Z.of_nat (loc_len value) - 1) && is_defense key in
  do range <- match pos_range !! key with
              | Some r => Ok r
              | None => Raise KeyError
              end;
  do lo <- py_min range;
  let below := Z.ltb (Z.of_nat player_count) lo in
  do hi <- (if below then Ok 0 else py_max range);
  let color := if below then "yellow"
               else if Z.ltb hi (Z.of_nat player_count) then "red"
               else "cyan" in
  match value with
  | Flat x y =>
      if popped then Raise TypeError
      else Ok (add_marker key color fig (x, y))
  | Coords l =>
      let l := if popped then removelast l else l in
      match l with
      | [] => Raise IndexError
      | _ => Ok (fold_left (add_marker key color) l fig)
      end
  end.

Fixpoint chart_loop (position_count : list string) (entries : list (string * loc))
    (fig : figure) : result figure :=
  match entries with
  | [] => Ok fig
  | e :: rest =>
      do fig' <- chart_step position_count fig e;
      chart_loop position_count rest fig'
  end.

(** [update_bar_chart], up to the five lists handed to plotly; [data] is
    the records of the team table, as [add_players] outputs them. *)
Definition update_bar_chart (data : list team_row) : result figure :=
  let position_count := map (fun player => Pos (entry player)) data in
  chart_loop position_count pos_loc (mkFig [] [] [] [] []).

(** The five lists describe the same markers. *)
Definition aligned (fig : figure) : Prop :=
  length (x_list fig) = length (label_list fig)
  /\ length (y_list fig) = length (label_list fig)
  /\ length (color_list fig) = length (label_list fig)
  /\ length (symbols fig) = length (label_list fig).

(** A colour that tells how a count stands to a range of acceptable
    counts. *)
Definition color_fits (n : Z) (range : list Z) (color : string) : Prop :=
  ((forall z, In z range -> n < z) -> color = "yellow")
  /\ ((forall z, In z range -> z < n) -> color = "red")
  /\ ((exists a b, In a range /\ In b range /\ a <= n <= b) -> color = "cyan").

Definition symbol_fits (side symbol : string) : Prop :=
  (side = "Offense" -> symbol = "x")
  /\ (side = "Defense" -> symbol = "circle-open")
  /\ (side = "Special Teams" -> symbol = "square").

(** A marker agrees with [POS_COUNTS] and with the positions counted. *)
Definition marker_fits (position_count : list string)
    (m : string * (string * string)) : Prop :=
  let '(label, (color, symbol)) := m in
  exists side values range,
    In (side, values) POS_COUNTS /\ In (label, range) values
    /\ color_fits (Z.of_nat (count_occ string_dec position_count label)) range color
    /\ symbol_fits side symbol.

Definition markers (fig : figure) : list (string * (string * string)) :=
  combine (label_list fig) (combine (color_list fig) (symbols fig)).

(** What the chart keeps: aligned lists, and every marker fitting. *)
Definition chart_inv (pc : list string) (fig : figure) : Prop :=
  aligned fig /\ Forall (marker_fits pc) (markers fig).

(** What the loop needs of an entry of [pos_loc]: a range and a side in
    [POS_COUNTS], one symbol appended for it, and coordinates left after
    the removal a defensive position can undergo. *)
Definition entry_ok (e : string * loc) : Prop :=
  exists side values range symbol,
    pos_range !! fst e = Some range /\ range <> []
    /\ In (side, values) POS_COUNTS /\ In (fst e, range) values
    /\ (forall syms, append_symbols (fst e) syms = syms ++ [symbol])
    /\ symbol_fits side symbol
    /\ match snd e with
       | Flat _ _ => is_defense (fst e) = false
       | Coords l => (if is_defense (fst e) then 2 <= length l else 1 <= length l)%nat
       end.

End FieldChart.
Export FieldChart.

(** ** dashboard.py: the position filter of the player table *)

Module PlayerTable.

(** [df.to_dict('records')]: one dict per row, with the frame's columns
    as keys. The records are zipped from the columns, so a frame without
    columns gives no record, whatever its rows. *)
Definition to_dict_records (df : DataFrame) : list (gmap string cell) :=
  match columns df with
  | [] => []
  | _ :: _ =>
      map (fun r => filter (fun kv => has_col (fst kv) (columns df) = true) r) (rows df)
  end.

(** [mod_pos], on the player table as a frame: the records and the column
    names handed to the DataTable. [pos_df.Pos] is an [AttributeError]
    without a ['Pos'] column. *)
Definition mod_pos (player_df : DataFrame) (value : string)
    : result (list (gmap string cell) * list string) :=
  let pos_df := player_df in
  if String.eqb value "ALL" then
    do pos_df <- initial_player_view pos_df;
    Ok (to_dict_records pos_df, columns pos_df)
  else
    if has_col "Pos" (columns pos_df) then
      let alt_df :=
        mkDF (columns pos_df)
             (List.filter (fun r => is_str value (at_col "Pos" r)) (rows pos_df)) in
      do alt_df <- remove_empty alt_df;
      Ok (to_dict_records alt_df, columns alt_df)
    else Raise AttributeError.

End PlayerTable.
Export PlayerTable.

(** ** Rounding *)

Section Rounding.

Local Open Scope Q_scope.

Lemma py_round_comp (x y : Q) : x == y -> py_round x = py_round y.
Proof.
  intros H. unfold py_round.
  rewrite (Qfloor_comp _ _ H).
  assert (E : x - inject_Z (Qfloor y) == y - inject_Z (Qfloor y)) by (rewrite H; reflexivity).
  rewrite (Qcompare_comp _ _ E _ _ (Qeq_refl (1 # 2))). reflexivity.
Qed.

Lemma py_round_Z (z : Z) : py_round (inject_Z z) = z.
Proof.
  unfold py_round. rewrite Qfloor_Z.
  assert (E : inject_Z z - inject_Z z == 0) by ring.
  rewrite (Qcompare_comp _ _ E _ _ (Qeq_refl (1 # 2))). reflexivity.
Qed.

Lemma py_round_nonneg (x : Q) : 0 <= x -> (0 <= py_round x)%Z.
Proof.
  intros H. unfold py_round.
  assert (F : (0 <= Qfloor x)%Z).
  { change 0%Z with (Qfloor 0). apply Qfloor_resp_le, H. }
  destruct (Qcompare _ _); [destruct (Z.even _)| |]; lia.
Qed.

Lemma py_round1_tenth (x : Q) : tenth x -> py_round1 x == x.
Proof.
  intros [z Hz]. unfold py_round1.
  assert (E : x * 10 == inject_Z z) by (rewrite Hz; field).
  rewrite (py_round_comp _ _ E), py_round_Z, Hz. reflexivity.
Qed.

Lemma py_round1_comp (x y : Q) : x == y -> py_round1 x == py_round1 y.
Proof.
  intros H. unfold py_round1.
  rewrite (py_round_comp (x * 10) (y * 10)) by (rewrite H; reflexivity). reflexivity.
Qed.

Lemma py_round1_is_tenth (x : Q) : tenth (py_round1 x).
Proof. exists (py_round (x * 10)). reflexivity. Qed.

Lemma py_round1_nonneg (x : Q) : 0 <= x -> 0 <= py_round1 x.
Proof.
  intros H. unfold py_round1.
  assert (F : (0 <= py_round (x * 10))%Z).
  { apply py_round_nonneg. apply Qmult_le_0_compat; [exact H | discriminate]. }
  apply Qle_shift_div_l; [reflexivity |].
  rewrite Qmult_0_l. change 0 with (inject_Z 0). rewrite <- Zle_Qle. exact F.
Qed.

Lemma tenth_comp (x y : Q) : x == y -> tenth x -> tenth y.
Proof. intros E [z Hz]. exists z. rewrite <- E. exact Hz. Qed.

Lemma tenth_plus (x y : Q) : tenth x -> tenth y -> tenth (x + y).
Proof. intros [a Ha] [b Hb]. exists (a + b)%Z. rewrite Ha, Hb, inject_Z_plus. field. Qed.

Lemma tenth_minus (x y : Q) : tenth x -> tenth y -> tenth (x - y).
Proof.
  intros [a Ha] [b Hb]. exists (a - b)%Z.
  rewrite Ha, Hb. unfold Z.sub. rewrite inject_Z_plus, inject_Z_opp. field.
Qed.

Lemma tenth_Z (z : Z) : tenth (inject_Z z).
Proof. exists (z * 10)%Z. rewrite inject_Z_mult. field. Qed.

End Rounding.

(** ** Salaries *)

Section Salaries.

Local Open Scope Q_scope.

Lemma to_millions_tenth (c : cell) (v : Q) :
  to_millions c = Ok v -> tenth v /\ 0 <= v.
Proof.
  unfold to_millions, bind. intros H.
  assert (G : exists n : Z, (0 <= n)%Z /\ v = py_round1 (inject_Z n / 1000000)).
  { destruct c as [q|s|].
    - exists 0%Z. split; [lia | congruence].
    - unfold py_int in H. destruct (keep_digits s) eqn:E; [discriminate |].
      eexists. split; [| injection H as <-; reflexivity]. lia.
    - exists 0%Z. split; [lia | congruence]. }
  destruct G as (n & Hn & ->). split.
  - apply py_round1_is_tenth.
  - apply py_round1_nonneg. apply Qle_shift_div_l; [reflexivity |].
    rewrite Qmult_0_l. change 0 with (inject_Z 0). rewrite <- Zle_Qle. exact Hn.
Qed.

Lemma pool_ok_cap (pool : gmap Z player) (i : Z) (p : player) :
  pool_ok pool -> pool !! i = Some p -> tenth (Cap_Hit p) /\ 0 <= Cap_Hit p.
Proof.
  intros Hp Hi. destruct (Hp i p Hi) as (_ & c & v & Hc & Hv).
  destruct (to_millions_tenth c v Hc) as [Ht Hn]. split.
  - apply (tenth_comp v); [symmetry; exact Hv | exact Ht].
  - rewrite Hv. exact Hn.
Qed.

Lemma fold_left_Qplus (l : list Q) (a : Q) :
  fold_left Qplus l a == a + fold_left Qplus l 0.
Proof.
  revert a. induction l as [|x l IH]; intros a; simpl.
  - ring.
  - rewrite (IH (a + x)), (IH (0 + x)). ring.
Qed.

Lemma py_sum_cons (x : Q) (l : list Q) : py_sum (x :: l) == x + py_sum l.
Proof. unfold py_sum. simpl. rewrite fold_left_Qplus. ring. Qed.

Lemma py_sum_app (l : list Q) (x : Q) : py_sum (l ++ [x]) == py_sum l + x.
Proof. unfold py_sum. rewrite fold_left_app. reflexivity. Qed.

Lemma py_sum_tenth (l : list Q) : Forall tenth l -> tenth (py_sum l).
Proof.
  induction 1 as [|x l Hx _ IH].
  - apply (tenth_Z 0).
  - apply (tenth_comp (x + py_sum l)); [symmetry; apply py_sum_cons |].
    apply tenth_plus; assumption.
Qed.

Lemma py_sum_drop (rs : list team_row) (r : team_row) :
  List.NoDup (map label rs) -> In r rs ->
  py_sum (map (fun x => Cap_Hit (entry x))
              (List.filter (fun x => negb (Z.eqb (label x) (label r))) rs))
  == py_sum (map (fun x => Cap_Hit (entry x)) rs) - Cap_Hit (entry r).
Proof.
  induction rs as [|a rs IH]; intros Hnd Hin; [destruct Hin |].
  simpl in Hnd. apply List.NoDup_cons_iff in Hnd as [Hna Hnd].
  simpl. destruct Hin as [-> | Hin].
  - rewrite Z.eqb_refl. simpl. rewrite py_sum_cons.
    rewrite List.forallb_filter_id.
    + ring.
    + apply List.forallb_forall. intros x Hx.
      destruct (Z.eqb_spec (label x) (label r)) as [E|]; [| reflexivity].
      exfalso. apply Hna. rewrite <- E. apply List.in_map, Hx.
  - destruct (Z.eqb_spec (label a) (label r)) as [E|N]; simpl.
    + exfalso. apply Hna. rewrite E. apply List.in_map, Hin.
    + rewrite !py_sum_cons, (IH Hnd Hin). ring.
Qed.

End Salaries.

(** ** The roster ledger *)

Section Ledger.

Local Open Scope Q_scope.

Lemma set_all_remove_id (t : TeamFrame) :
  (forall r, In r (trows t) -> tstatus r = REMOVE) -> set_all_remove t = t.
Proof.
  destruct t as [h rs]. unfold set_all_remove. simpl. intros H. f_equal.
  induction rs as [|[l e st] rs IH]; [reflexivity |]. simpl. f_equal.
  - f_equal. symmetry. apply (H (mkTR l e st)). left. reflexivity.
  - apply IH. intros r Hr. apply H. right. exact Hr.
Qed.

Lemma set_all_remove_rows (t : TeamFrame) (r : team_row) :
  In r (trows (set_all_remove t)) ->
  tstatus r = REMOVE /\ exists r0, In r0 (trows t) /\ label r0 = label r /\ entry r0 = entry r.
Proof.
  unfold set_all_remove. simpl. intros H. apply List.in_map_iff in H as (r0 & <- & H0).
  split; [reflexivity |]. exists r0. auto.
Qed.

Lemma set_all_remove_labels (t : TeamFrame) :
  map label (trows (set_all_remove t)) = map label (trows t).
Proof. unfold set_all_remove. simpl. rewrite List.map_map. reflexivity. Qed.

Lemma set_all_remove_salaries (t : TeamFrame) :
  team_salaries (set_all_remove t) = team_salaries t.
Proof. unfold team_salaries, set_all_remove. simpl. rewrite List.map_map. reflexivity. Qed.

Lemma marked_in (ids : list Z) (m : gmap Z status) (i : Z) :
  In i ids -> fold_left (fun m i => <[i := REMOVE]> m) ids m !! i = Some REMOVE.
Proof.
  revert m. induction ids as [|j ids IH]; intros m H; [destruct H |]. simpl.
  destruct (List.in_dec Z.eq_dec i ids) as [Hin | Hnin].
  - apply IH, Hin.
  - destruct H as [-> | H]; [| contradiction].
    clear IH. revert m. induction ids as [|k ids IH]; intros m; simpl.
    + apply lookup_insert_eq.
    + assert (k <> i) by (intros ->; apply Hnin; left; reflexivity).
      rewrite insert_insert_ne by congruence. apply IH.
      intros Hi. apply Hnin. right. exact Hi.
Qed.

Lemma marked_out (ids : list Z) (m : gmap Z status) (i : Z) :
  ~ In i ids -> fold_left (fun m i => <[i := REMOVE]> m) ids m !! i = m !! i.
Proof.
  revert m. induction ids as [|j ids IH]; intros m H; [reflexivity |]. simpl.
  rewrite IH by (intros Hi; apply H; right; exact Hi).
  apply lookup_insert_ne. intros ->. apply H. left. reflexivity.
Qed.

Lemma team_ids_labels (pool : gmap Z player) (rs : list team_row) :
  pool_ok pool ->
  (forall r, In r rs -> pool !! label r = Some (entry r) /\ tstatus r = REMOVE) ->
  map (fun r => id (entry r)) rs = map label rs.
Proof.
  intros Hp H. apply List.map_ext_in. intros r Hr.
  destruct (H r Hr) as [Hl _]. apply (Hp _ _ Hl).
Qed.

(** The end of the chain: [modify_button] on what [add_players] left. *)
Lemma chain_inv (pool : gmap Z player) (pf : PlayerFrame) (t : TeamFrame) (d : Q) :
  pool_ok pool ->
  pdata pf = pool ->
  (forall i, is_Some (pstatus pf !! i) <-> is_Some (pool !! i)) ->
  (forall r, In r (trows t) -> pool !! label r = Some (entry r) /\ tstatus r = REMOVE) ->
  List.NoDup (map label (trows t)) ->
  (has_id t = false -> trows t = [] /\ forall i, pstatus pf !! i <> Some REMOVE) ->
  d == SALARY - team_salaries t ->
  0 <= d ->
  ledger_inv pool
    match modify_button (mkG pf t) with
    | Ok g' => mkS g' d
    | Raise _ => mkS (mkG pf t) d
    end.
Proof.
  intros Hp Hd Hdom Hrows Hnd Hid Hb Hn. unfold modify_button. simpl.
  destruct (has_id t) eqn:Eh.
  - rewrite (team_ids_labels pool _ Hp Hrows).
    constructor; simpl;
      [exact Hd | | | exact Hrows | exact Hnd | rewrite Eh; discriminate | exact Hb | exact Hn].
    + intros i. destruct (List.in_dec Z.eq_dec i (map label (trows t))) as [Hin | Hnin].
      * rewrite (marked_in _ _ _ Hin). split; intros _; [| eauto].
        apply List.in_map_iff in Hin as (r & <- & Hr).
        destruct (Hrows r Hr) as [-> _]. eauto.
      * rewrite (marked_out _ _ _ Hnin), lookup_fmap, <- Hdom.
        destruct (pstatus pf !! i); simpl; split; intros [x Hx]; eauto; discriminate.
    + intros i. destruct (List.in_dec Z.eq_dec i (map label (trows t))) as [Hin | Hnin].
      * rewrite (marked_in _ _ _ Hin). tauto.
      * rewrite (marked_out _ _ _ Hnin), lookup_fmap.
        destruct (pstatus pf !! i); simpl; split; intros; try discriminate; contradiction.
  - destruct (Hid eq_refl) as [Hnil Hst].
    constructor; simpl;
      [exact Hd | exact Hdom | | exact Hrows | exact Hnd | intros _; exact Hnil | exact Hb | exact Hn].
    intros i. rewrite Hnil. simpl. split; [intros H; destruct (Hst i H) | tauto].
Qed.

Lemma start_inv (pool : gmap Z player) : ledger_inv pool (start pool).
Proof.
  constructor; simpl.
  - reflexivity.
  - intros i. rewrite lookup_fmap.
    destruct (pool !! i); simpl; split; intros [x Hx]; eauto; discriminate.
  - intros i. rewrite lookup_fmap.
    destruct (pool !! i); simpl; split; intros; try discriminate; contradiction.
  - intros r [].
  - constructor.
  - reflexivity.
  - unfold team_salaries, py_sum. simpl. ring.
  - discriminate.
Qed.

Lemma Qlt_bool_iff (x y : Q) : Qlt_bool x y = true <-> x < y.
Proof.
  unfold Qlt_bool. rewrite negb_true_iff. split; intros H.
  - apply Qnot_le_lt. intros L. apply Qle_bool_iff in L. congruence.
  - destruct (Qle_bool y x) eqn:E; [| reflexivity].
    apply Qle_bool_iff in E. exfalso. exact (Qlt_not_le _ _ H E).
Qed.

Lemma NoDup_labels_filter (f : team_row -> bool) (rs : list team_row) :
  List.NoDup (map label rs) -> List.NoDup (map label (List.filter f rs)).
Proof.
  induction rs as [|a rs IH]; simpl; intros H; [constructor |].
  apply List.NoDup_cons_iff in H as [Ha H]. destruct (f a); simpl; [| auto].
  constructor; [| auto]. intros Hin. apply Ha.
  apply List.in_map_iff in Hin as (r & E & Hr). apply List.filter_In in Hr as [Hr _].
  rewrite <- E. apply List.in_map, Hr.
Qed.

Lemma display_tenth (pool : gmap Z player) (s : session) :
  pool_ok pool -> ledger_inv pool s ->
  tenth (team_salaries (team_df (glob s))) /\ tenth (display s).
Proof.
  intros Hp [Hd Hdom Hst Hrows Hnd Hid Hb Hn].
  assert (Hsum : tenth (team_salaries (team_df (glob s)))).
  { apply py_sum_tenth, List.Forall_forall. intros x Hx.
    apply List.in_map_iff in Hx as (r & <- & Hr).
    destruct (Hrows r Hr) as [Hl _]. apply (pool_ok_cap pool _ _ Hp Hl). }
  split; [exact Hsum |].
  apply (tenth_comp (SALARY - team_salaries (team_df (glob s)))); [symmetry; exact Hb |].
  apply tenth_minus; [apply (tenth_Z 150) | exact Hsum].
Qed.

Lemma add_players_selected (g : globals) (e : event) (salary : Q) :
  add_players g (ev_trigger e) (ev_cell e) salary (ev_team_cell e)
  = add_players g datatable_interactivity (selected e) salary None.
Proof. unfold add_players, selected. destruct (ev_trigger e); reflexivity. Qed.

Local Arguments modify_button : simpl never.
Local Arguments set_all_remove : simpl never.

Lemma handle_inv (pool : gmap Z player) (s : session) (e : event) :
  pool_ok pool -> ledger_inv pool s -> ledger_inv pool (handle s e).
Proof.
  intros Hp Hinv. unfold handle. rewrite add_players_selected.
  unfold add_players.
  destruct (selected e) as [c|]; [| exact Hinv].
  destruct (String.eqb (column_id c) "Status"); [| exact Hinv].
  destruct Hinv as [Hd Hdom Hst Hrows Hnd Hid Hb Hn].
  destruct (pstatus (player_df (glob s)) !! row_id c) as [st|] eqn:Est; simpl;
    [| constructor; assumption].
  destruct (pdata (player_df (glob s)) !! row_id c) as [p|] eqn:Ep; simpl;
    [| constructor; assumption].
  rewrite Hd in Ep.
  destruct (pool_ok_cap pool _ _ Hp Ep) as [Hten Hpos].
  assert (Hsum : tenth (team_salaries (team_df (glob s)))).
  { apply py_sum_tenth, List.Forall_forall. intros x Hx.
    apply List.in_map_iff in Hx as (r & <- & Hr).
    destruct (Hrows r Hr) as [Hl _]. apply (pool_ok_cap pool _ _ Hp Hl). }
  destruct (display_tenth pool s Hp (mkInv _ _ Hd Hdom Hst Hrows Hnd Hid Hb Hn)) as [_ Hdt].
  destruct st.
  - (* status == 'ADD' *)
    assert (Hfresh : ~ In (row_id c) (map label (trows (team_df (glob s))))).
    { intros Hin. apply Hst in Hin. congruence. }
    destruct (Qlt_bool _ 0) eqn:Eq; cbn [bind].
    + rewrite (set_all_remove_id _ (fun r Hr => proj2 (Hrows r Hr))).
      apply chain_inv; try assumption.
      * intros Hf. split; [exact (Hid Hf) |].
        intros i Hi. apply Hst in Hi. rewrite (Hid Hf) in Hi. exact Hi.
      * rewrite (py_round1_tenth _ Hdt). exact Hb.
      * rewrite (py_round1_tenth _ Hdt). exact Hn.
    + assert (Hge : 0 <= SALARY - team_salaries (team_df (glob s)) - Cap_Hit p).
      { apply Qnot_lt_le. intros L. apply Qlt_bool_iff in L. congruence. }
      apply chain_inv; try assumption.
      * intros r Hr. apply set_all_remove_rows in Hr as (E & r0 & Hr0 & El & Ee).
        split; [| exact E]. rewrite <- El, <- Ee. simpl in Hr0.
        apply List.in_app_iff in Hr0 as [Hr0 | [<- | []]]; [apply Hrows, Hr0 | exact Ep].
      * rewrite set_all_remove_labels. simpl. rewrite List.map_app. simpl.
        apply List.NoDup_app; [exact Hnd | repeat constructor; intros [] |].
        intros x Hx [<- | []]. exact (Hfresh Hx).
      * simpl. discriminate.
      * rewrite set_all_remove_salaries. unfold team_salaries. simpl.
        rewrite List.map_app. simpl. rewrite py_sum_app.
        rewrite py_round1_tenth by (repeat apply tenth_minus; [apply (tenth_Z 150) | |]; assumption).
        unfold team_salaries. ring.
      * apply py_round1_nonneg, Hge.
  - (* status == 'REMOVE' *)
    assert (Hin : In (row_id c) (map label (trows (team_df (glob s))))) by (apply Hst, Est).
    apply List.in_map_iff in Hin as (r0 & El & Hr0).
    assert (Ee : entry r0 = p).
    { destruct (Hrows r0 Hr0) as [Hl _]. rewrite El in Hl. congruence. }
    unfold drop_label.
    assert (Ex : existsb (fun r => Z.eqb (label r) (row_id c)) (trows (team_df (glob s))) = true).
    { apply List.existsb_exists. exists r0. split; [exact Hr0 | apply Z.eqb_eq, El]. }
    rewrite Ex. cbn [bind].
    assert (Hh : has_id (team_df (glob s)) = true).
    { destruct (has_id (team_df (glob s))) eqn:Eh; [reflexivity |].
      rewrite (Hid eq_refl) in Hr0. destruct Hr0. }
    assert (Hred : SALARY + Cap_Hit p - team_salaries (team_df (glob s)) == display s + Cap_Hit p).
    { rewrite Hb. ring. }
    apply chain_inv; try assumption.
    + intros r Hr. apply set_all_remove_rows in Hr as (E & r1 & Hr1 & El1 & Ee1).
      split; [| exact E]. rewrite <- El1, <- Ee1. simpl in Hr1.
      apply List.filter_In in Hr1 as [Hr1 _]. apply Hrows, Hr1.
    + rewrite set_all_remove_labels. simpl. apply NoDup_labels_filter, Hnd.
    + simpl. rewrite Hh. discriminate.
    + rewrite set_all_remove_salaries. unfold team_salaries. simpl.
      rewrite <- El, (py_sum_drop _ r0 Hnd Hr0), Ee.
      rewrite py_round1_tenth.
      * unfold team_salaries. ring.
      * apply (tenth_comp (display s + Cap_Hit p)); [symmetry; exact Hred |].
        apply tenth_plus; assumption.
    + apply py_round1_nonneg. rewrite Hred.
      apply (Qle_trans _ (0 + 0)); [discriminate | apply Qplus_le_compat; assumption].
Qed.

Lemma run_inv (pool : gmap Z player) (evs : list event) :
  pool_ok pool -> ledger_inv pool (run (start pool) evs).
Proof.
  intros Hp. unfold run. generalize (start_inv pool). generalize (start pool).
  induction evs as [|e evs IH]; intros s Hs; simpl; [exact Hs |].
  apply IH, handle_inv; assumption.
Qed.

Lemma chain_team (g : globals) (d : Q) :
  let s' := match modify_button g with
            | Ok g' => mkS g' d
            | Raise _ => mkS g d
            end in
  team_df (glob s') = team_df g /\ display s' = d.
Proof. unfold modify_button. destruct (has_id (team_df g)); simpl; auto. Qed.

(** The status column tells who is on the team. *)
Lemma status_of (pool : gmap Z player) (s : session) (i : Z) (p : player) :
  ledger_inv pool s -> pool !! i = Some p ->
  pstatus (player_df (glob s)) !! i
  = Some (if List.in_dec Z.eq_dec i (map label (trows (team_df (glob s))))
          then REMOVE else ADD).
Proof.
  intros [Hd Hdom Hst Hrows Hnd Hid Hb Hn] Hi.
  destruct (List.in_dec _ _ _) as [Hin | Hnin].
  - apply Hst, Hin.
  - destruct (proj2 (Hdom i) (ex_intro _ p Hi)) as [st Est].
    rewrite Est. destruct st; [reflexivity |]. exfalso. apply Hnin, Hst, Est.
Qed.

(** A rejected addition changes neither frame; the display keeps its
    value. *)
Lemma handle_reject (pool : gmap Z player) (s : session) (e : event)
    (c : active_cell) (p : player) :
  pool_ok pool -> ledger_inv pool s ->
  selected e = Some c -> column_id c = "Status" ->
  pool !! row_id c = Some p ->
  ~ In (row_id c) (map label (trows (team_df (glob s)))) ->
  display s - Cap_Hit p < 0 ->
  glob (handle s e) = glob s /\ display (handle s e) == display s.
Proof.
  intros Hp Hinv Hsel Hcol Hi Hnin Hlt.
  pose proof (status_of pool s _ p Hinv Hi) as Est.
  destruct (List.in_dec _ _ _) as [? | _]; [contradiction |].
  destruct (display_tenth pool s Hp Hinv) as [_ Hdt].
  destruct Hinv as [Hd Hdom Hst Hrows Hnd Hid Hb Hn].
  unfold handle. rewrite add_players_selected. unfold add_players.
  rewrite Hsel, Hcol, Est, Hd, Hi. cbn [String.eqb Ascii.eqb Bool.eqb bind].
  assert (Eq : Qlt_bool (SALARY - team_salaries (team_df (glob s)) - Cap_Hit p) 0 = true).
  { apply Qlt_bool_iff. rewrite <- Hb. exact Hlt. }
  rewrite Eq. cbn [bind].
  rewrite (set_all_remove_id _ (fun r Hr => proj2 (Hrows r Hr))).
  unfold modify_button. cbn [team_df player_df].
  destruct (has_id (team_df (glob s))) eqn:Eh; cbn [glob display].
  - split; [| apply py_round1_tenth, Hdt].
    rewrite (team_ids_labels pool _ Hp Hrows).
    destruct (glob s) as [[pd ps] t]. cbn in *. f_equal. f_equal.
    apply map_eq. intros i.
    destruct (List.in_dec Z.eq_dec i (map label (trows t))) as [Hin | Hout].
    + rewrite (marked_in _ _ _ Hin). symmetry. apply Hst, Hin.
    + rewrite (marked_out _ _ _ Hout), lookup_fmap.
      destruct (ps !! i) as [[|]|] eqn:E; try reflexivity.
      exfalso. apply Hout, Hst, E.
  - split; [| apply py_round1_tenth, Hdt].
    destruct (glob s) as [pf t]. reflexivity.
Qed.

(** An addition the budget covers appends the player and debits its
    salary. *)
Lemma handle_accept (pool : gmap Z player) (s : session) (e : event)
    (c : active_cell) (p : player) :
  pool_ok pool -> ledger_inv pool s ->
  selected e = Some c -> column_id c = "Status" ->
  pool !! row_id c = Some p ->
  ~ In (row_id c) (map label (trows (team_df (glob s)))) ->
  0 <= display s - Cap_Hit p ->
  trows (team_df (glob (handle s e)))
  = trows (team_df (glob s)) ++ [mkTR (row_id c) p REMOVE]
  /\ display (handle s e) == display s - Cap_Hit p.
Proof.
  intros Hp Hinv Hsel Hcol Hi Hnin Hge.
  pose proof (status_of pool s _ p Hinv Hi) as Est.
  destruct (List.in_dec _ _ _) as [? | _]; [contradiction |].
  destruct (display_tenth pool s Hp Hinv) as [_ Hdt].
  destruct (pool_ok_cap pool _ _ Hp Hi) as [Hten _].
  destruct Hinv as [Hd Hdom Hst Hrows Hnd Hid Hb Hn].
  unfold handle. rewrite add_players_selected. unfold add_players.
  rewrite Hsel, Hcol, Est, Hd, Hi. cbn [String.eqb Ascii.eqb Bool.eqb bind].
  assert (Hred : SALARY - team_salaries (team_df (glob s)) - Cap_Hit p
                 == display s - Cap_Hit p) by (rewrite Hb; ring).
  assert (Eq : Qlt_bool (SALARY - team_salaries (team_df (glob s)) - Cap_Hit p) 0 = false).
  { destruct (Qlt_bool _ 0) eqn:E; [| reflexivity].
    apply Qlt_bool_iff in E. rewrite Hred in E. exfalso. exact (Qlt_not_le _ _ E Hge). }
  rewrite Eq. cbn [bind].
  match goal with
  | |- context [modify_button ?g] =>
      match goal with
      | |- context [mkS g ?d] => destruct (chain_team g d) as [Et Ed]
      end
  end.
  cbv zeta in Et, Ed. rewrite Et, Ed. cbn [team_df]. split.
  - unfold set_all_remove. cbn [trows]. rewrite List.map_app. cbn [map label entry].
    f_equal. rewrite <- (List.map_id (trows (team_df (glob s)))) at 2.
    apply List.map_ext_in. intros [l en st] Hx.
    destruct (Hrows _ Hx) as [_ E]. simpl in E. rewrite E. reflexivity.
  - rewrite py_round1_tenth; [exact Hred |].
    apply (tenth_comp _ _ (Qeq_sym _ _ Hred)). apply tenth_minus; assumption.
Qed.

(** A click on a member removes it and credits its salary. *)
Lemma handle_remove (pool : gmap Z player) (s : session) (e : event)
    (c : active_cell) (r : team_row) :
  pool_ok pool -> ledger_inv pool s ->
  selected e = Some c -> column_id c = "Status" ->
  In r (trows (team_df (glob s))) -> row_id c = label r ->
  trows (team_df (glob (handle s e)))
  = List.filter (fun x => negb (Z.eqb (label x) (label r))) (trows (team_df (glob s)))
  /\ display (handle s e) == display s + Cap_Hit (entry r).
Proof.
  intros Hp Hinv Hsel Hcol Hr El.
  destruct (display_tenth pool s Hp Hinv) as [_ Hdt].
  destruct Hinv as [Hd Hdom Hst Hrows Hnd Hid Hb Hn].
  destruct (Hrows r Hr) as [Hl _].
  destruct (pool_ok_cap pool _ _ Hp Hl) as [Hten _].
  assert (Est : pstatus (player_df (glob s)) !! row_id c = Some REMOVE).
  { apply Hst. rewrite El. apply List.in_map, Hr. }
  unfold handle. rewrite add_players_selected. unfold add_players.
  rewrite Hsel, Hcol, Est, Hd, El, Hl. cbn [String.eqb Ascii.eqb Bool.eqb bind].
  unfold drop_label.
  assert (Ex : existsb (fun x => Z.eqb (label x) (label r)) (trows (team_df (glob s))) = true).
  { apply List.existsb_exists. exists r. split; [exact Hr | apply Z.eqb_refl]. }
  rewrite Ex. cbn [bind].
  match goal with
  | |- context [modify_button ?g] =>
      match goal with
      | |- context [mkS g ?d] => destruct (chain_team g d) as [Et Ed]
      end
  end.
  cbv zeta in Et, Ed. rewrite Et, Ed. cbn [team_df]. split.
  - unfold set_all_remove. cbn [trows]. rewrite <- (List.map_id (List.filter _ _)) at 2.
    apply List.map_ext_in. intros [l en st] Hx. apply List.filter_In in Hx as [Hx _].
    destruct (Hrows _ Hx) as [_ E]. simpl in E. rewrite E. reflexivity.
  - assert (Hred : SALARY + Cap_Hit (entry r) - team_salaries (team_df (glob s))
                   == display s + Cap_Hit (entry r)) by (rewrite Hb; ring).
    rewrite py_round1_tenth; [exact Hred |].
    apply (tenth_comp _ _ (Qeq_sym _ _ Hred)). apply tenth_plus; assumption.
Qed.

End Ledger.

(** ** The roster ledger: statements *)

Section LedgerStatements.

Local Open Scope Q_scope.

Lemma pool_AB_ok : pool_ok pool_AB.
Proof.
  intros i p H. unfold pool_AB in H.
  apply lookup_insert_Some in H as [[<- <-] | [_ H]].
  - split; [reflexivity |]. exists (Str "$20,000,000"). eexists. split; reflexivity.
  - apply lookup_insert_Some in H as [[<- <-] | [_ H]].
    + split; [reflexivity |]. exists (Str "$140,000,000"). eexists. split; reflexivity.
    + rewrite lookup_empty in H. discriminate.
Qed.

Lemma pool_CD_ok : pool_ok pool_CD.
Proof.
  intros i p H. unfold pool_CD in H.
  apply lookup_insert_Some in H as [[<- <-] | [_ H]].
  - split; [reflexivity |]. exists (Str "$1,040,000"). eexists. split; reflexivity.
  - apply lookup_insert_Some in H as [[<- <-] | [_ H]].
    + split; [reflexivity |]. exists (Str "$1,040,000"). eexists. split; reflexivity.
    + rewrite lookup_empty in H. discriminate.
Qed.

(** The example of section 8: with a cap of 150, A (20) is added and the
    display shows 130; B (140) is then refused, the team is still A alone
    and the display still shows 130. *)
Example budget_example :
  let s1 := run (start pool_AB) [click 0] in
  let s2 := run (start pool_AB) [click 0; click 1] in
  display s1 == 130 /\ map entry (trows (team_df (glob s1))) = [pA]
  /\ display s2 == 130 /\ map entry (trows (team_df (glob s2))) = [pA].
Proof. vm_compute. repeat split. Qed.

(** C1. For every sequence of events from start-up, the displayed
    remaining budget equals the salary cap minus the salaries of the team
    rows and is not negative; a click that would add a player whose salary
    exceeds the remaining budget leaves both frames as they were and the
    display at its value. *)
Theorem budget_invariant (pool : gmap Z player) (evs : list event) :
  pool_ok pool ->
  let s := run (start pool) evs in
  display s == SALARY - team_salaries (team_df (glob s))
  /\ 0 <= display s
  /\ forall e c p,
       selected e = Some c -> column_id c = "Status" ->
       pool !! row_id c = Some p ->
       ~ In (row_id c) (map label (trows (team_df (glob s)))) ->
       display s - Cap_Hit p < 0 ->
       glob (handle s e) = glob s /\ display (handle s e) == display s.
Proof.
  intros Hp s. pose proof (run_inv pool evs Hp) as Hinv. fold s in Hinv.
  split; [apply (inv_budget _ _ Hinv) |].
  split; [apply (inv_nonneg _ _ Hinv) |].
  intros e c p. apply handle_reject; assumption.
Qed.

Lemma budget_invariant_witness :
  pool_ok pool_AB
  /\ let s := run (start pool_AB) [click 0] in
     display s == SALARY - team_salaries (team_df (glob s))
     /\ 0 <= display s
     /\ glob (handle s (click 1)) = glob s
     /\ display (handle s (click 1)) == display s.
Proof.
  split; [exact pool_AB_ok |].
  destruct (budget_invariant pool_AB [click 0] pool_AB_ok) as (Hb & Hn & Hr).
  split; [exact Hb |]. split; [exact Hn |].
  apply (Hr (click 1) (mkCell 1 "Status") pB).
  - reflexivity.
  - reflexivity.
  - reflexivity.
  - vm_compute. intros [H | []]. discriminate H.
  - vm_compute. reflexivity.
Defined.

(** C10. After every sequence of events from start-up, every row of the
    team table has status ['REMOVE'] and no player id occurs twice in it;
    a click on the ['Status'] cell of a member, in either table, removes
    that member. *)
Theorem team_rows_status (pool : gmap Z player) (evs : list event) :
  pool_ok pool ->
  let s := run (start pool) evs in
  (forall r, In r (trows (team_df (glob s))) -> tstatus r = REMOVE)
  /\ List.NoDup (map (fun r => id (entry r)) (trows (team_df (glob s))))
  /\ forall r e c,
       In r (trows (team_df (glob s))) ->
       selected e = Some c -> column_id c = "Status" -> row_id c = id (entry r) ->
       trows (team_df (glob (handle s e)))
       = List.filter (fun x => negb (Z.eqb (id (entry x)) (id (entry r))))
                     (trows (team_df (glob s)))
       /\ ~ In (id (entry r))
               (map (fun x => id (entry x)) (trows (team_df (glob (handle s e))))).
Proof.
  intros Hp s. pose proof (run_inv pool evs Hp) as Hinv. fold s in Hinv.
  pose proof (team_ids_labels pool _ Hp (inv_rows _ _ Hinv)) as Eids.
  split; [intros r Hr; apply (inv_rows _ _ Hinv r Hr) |].
  split; [rewrite Eids; apply (inv_nodup _ _ Hinv) |].
  intros r e c Hr Hsel Hcol Hrow.
  assert (El : forall x, In x (trows (team_df (glob s))) -> id (entry x) = label x).
  { intros x Hx. destruct (inv_rows _ _ Hinv x Hx) as [Hl _]. apply (Hp _ _ Hl). }
  rewrite (El r Hr) in Hrow.
  destruct (handle_remove pool s e c r Hp Hinv Hsel Hcol Hr Hrow) as [Et _].
  assert (Ef : List.filter (fun x => negb (Z.eqb (id (entry x)) (id (entry r))))
                           (trows (team_df (glob s)))
               = List.filter (fun x => negb (Z.eqb (label x) (label r)))
                             (trows (team_df (glob s)))).
  { apply List.filter_ext_in. intros x Hx. rewrite (El x Hx), (El r Hr). reflexivity. }
  rewrite Ef, Et. split; [reflexivity |].
  intros Hin. apply List.in_map_iff in Hin as (x & Ex & Hx).
  apply List.filter_In in Hx as [Hx Hne].
  rewrite (El x Hx), (El r Hr) in Ex. rewrite Ex, Z.eqb_refl in Hne. discriminate.
Qed.

Lemma team_rows_status_witness :
  pool_ok pool_AB
  /\ let s := run (start pool_AB) [click 0] in
     (forall r, In r (trows (team_df (glob s))) -> tstatus r = REMOVE)
     /\ List.NoDup (map (fun r => id (entry r)) (trows (team_df (glob s))))
     /\ trows (team_df (glob (handle s (click_team 0)))) = [].
Proof.
  split; [exact pool_AB_ok |].
  destruct (team_rows_status pool_AB [click 0] pool_AB_ok) as (Hs & Hn & Hr).
  split; [exact Hs |]. split; [exact Hn |].
  destruct (Hr (mkTR 0 pA REMOVE) (click_team 0) (mkCell 0 "Status")) as [E _].
  - left. reflexivity.
  - reflexivity.
  - reflexivity.
  - reflexivity.
  - exact E.
Defined.

(** C9, as the code has it. Salaries are rounded to one decimal place when
    the pool is loaded ([to_millions]): [round(., 1)] changes no salary of
    the pool. The remaining budget is computed from those rounded values,
    and the [round(salary, 1)] of [add_players] changes nothing either, so
    the display is the cap minus the rounded salaries after any run. *)
Theorem salaries_rounded_at_load (pool : gmap Z player) (evs : list event) :
  pool_ok pool ->
  let s := run (start pool) evs in
  (forall i p, pool !! i = Some p -> py_round1 (Cap_Hit p) == Cap_Hit p)
  /\ (forall r, In r (trows (team_df (glob s))) -> pool !! label r = Some (entry r))
  /\ display s == SALARY - team_salaries (team_df (glob s))
  /\ py_round1 (display s) == display s.
Proof.
  intros Hp s. pose proof (run_inv pool evs Hp) as Hinv. fold s in Hinv.
  split; [intros i p Hi; apply py_round1_tenth, (pool_ok_cap pool i p Hp Hi) |].
  split; [intros r Hr; apply (inv_rows _ _ Hinv r Hr) |].
  split; [apply (inv_budget _ _ Hinv) |].
  apply py_round1_tenth, (display_tenth pool s Hp Hinv).
Qed.

Lemma salaries_rounded_at_load_witness :
  pool_ok pool_CD
  /\ let s := run (start pool_CD) [click 0; click 1] in
     py_round1 (Cap_Hit pC) == Cap_Hit pC
     /\ display s == SALARY - team_salaries (team_df (glob s))
     /\ py_round1 (display s) == display s.
Proof.
  split; [exact pool_CD_ok |].
  destruct (salaries_rounded_at_load pool_CD [click 0; click 1] pool_CD_ok)
    as (Hc & _ & Hb & Hr).
  split; [apply (Hc 0%Z pC); reflexivity |]. split; [exact Hb | exact Hr].
Defined.

(** C9 as the specification words it fails: two players of 1,040,000
    dollars each are stored as 1.0 each, so after both are added the
    display shows 148.0, where the cap minus the full-precision salaries,
    rounded for display only, is 147.9. *)
Lemma full_precision_counterexample :
  let s := run (start pool_CD) [click 0; click 1] in
  to_millions (Str "$1,040,000") = Ok (Cap_Hit pC)
  /\ map entry (trows (team_df (glob s))) = [pC; pD]
  /\ display s == 148
  /\ spec_remaining SALARY ["$1,040,000"; "$1,040,000"] == 1479 # 10
  /\ ~ display s == spec_remaining SALARY ["$1,040,000"; "$1,040,000"].
Proof. vm_compute. repeat split. discriminate. Qed.

End LedgerStatements.

(** ** Position normalization *)

Section Positions.

Lemma rename_pos_other (src dst p : string) (r : gmap string cell) :
  r !! "Pos" = Some (Str p) -> p <> src -> rename_pos src dst r = r.
Proof.
  intros Hr Hne. unfold rename_pos, at_col. rewrite Hr. simpl.
  destruct (String.eqb_spec p src); [contradiction | reflexivity].
Qed.

Lemma rename_fold_keeps (renames : list (string * string)) (p : string)
    (r : gmap string cell) (rs : list (gmap string cell)) :
  r !! "Pos" = Some (Str p) -> ~ In p (map fst renames) -> In r rs ->
  In r (fold_left (fun acc '(src, dst) => map (rename_pos src dst) acc) renames rs).
Proof.
  intros Hr. revert rs. induction renames as [|[src dst] renames IH]; intros rs Hn Hin.
  - exact Hin.
  - simpl. apply IH.
    + intros H. apply Hn. right. exact H.
    + apply List.in_map_iff. exists r. split; [| exact Hin].
      apply (rename_pos_other _ _ p); [exact Hr |].
      intros ->. apply Hn. left. reflexivity.
Qed.

(** C8, as the code has it. [condense_positions] raises nothing for a raw
    position it does not list: a row with a cap hit whose position is
    neither ["LS"] nor a listed synonym is in the result as it was, raw
    position included. *)
Theorem condense_positions_keeps_unlisted (df : DataFrame) (r : gmap string cell)
    (p : string) (c : cell) :
  has_col "Cap Hit" (columns df) = true ->
  has_col "Pos" (columns df) = true ->
  In r (rows df) ->
  r !! "Pos" = Some (Str p) -> r !! "Cap Hit" = Some c ->
  c <> NaN -> c <> Str "" ->
  ~ In p (map fst POS_RENAMES) -> p <> "LS" ->
  exists df', condense_positions df = Ok df' /\ In r (rows df') /\ at_col "Pos" r = Str p.
Proof.
  intros Hc Hp Hin HP HC Hnan Hemp Hnl Hls.
  unfold condense_positions. rewrite Hc, Hp. simpl negb. cbv iota.
  eexists. split; [reflexivity |]. split; [| unfold at_col; rewrite HP; reflexivity].
  cbn [rows]. unfold rename_all. apply (rename_fold_keeps _ p); [exact HP | exact Hnl |].
  apply List.filter_In. split.
  - apply List.filter_In. split.
    + apply List.in_map_iff. exists r. split; [| exact Hin].
      apply insert_id. unfold at_col. rewrite HC. simpl.
      destruct c as [q|s|]; try reflexivity. destruct s; [contradiction | reflexivity].
    + unfold at_col. rewrite HC. destruct c; try reflexivity. contradiction.
  - unfold at_col. rewrite HP. simpl.
    destruct (String.eqb_spec p "LS"); [contradiction | reflexivity].
Qed.

Lemma condense_positions_keeps_unlisted_witness :
  exists df', condense_positions df_nt = Ok df' /\
              In {[ "Player" := Str "N"; "Pos" := Str "NT"; "Cap Hit" := Str "$5,000,000" ]}
                 (rows df') /\
              at_col "Pos" {[ "Player" := Str "N"; "Pos" := Str "NT";
                              "Cap Hit" := Str "$5,000,000" ]} = Str "NT".
Proof.
  apply (condense_positions_keeps_unlisted df_nt _ "NT" (Str "$5,000,000")).
  - reflexivity.
  - reflexivity.
  - left. reflexivity.
  - reflexivity.
  - reflexivity.
  - discriminate.
  - discriminate.
  - simpl. intros H. repeat (destruct H as [H | H]; [discriminate H |]). exact H.
  - discriminate.
Defined.

(** C8 as the specification words it fails: ["NT"] is neither a listed
    synonym nor canonical, and a frame holding it comes back unchanged
    instead of raising. *)
Lemma unknown_position_counterexample :
  unmapped "NT" /\ condense_positions df_nt = Ok df_nt
  /\ ~ (forall df r p, In r (rows df) -> at_col "Pos" r = Str p -> unmapped p ->
          exists e, condense_positions df = Raise e).
Proof.
  assert (U : unmapped "NT").
  { split; simpl; intros H; repeat (destruct H as [H | H]; [discriminate H |]); exact H. }
  assert (E : condense_positions df_nt = Ok df_nt) by (vm_compute; reflexivity).
  split; [exact U |]. split; [exact E |].
  intros H. destruct (H df_nt _ "NT" (or_introl eq_refl) eq_refl U) as [e He].
  rewrite E in He. discriminate.
Qed.

End Positions.

(** ** The win count *)

Section Wins.

Variable model : Type.
Variable fit : list (list Q) -> list Q -> result model.
Variable predict : model -> list (list Q) -> list Q.

Lemma bind_Ok {A B} (m : result A) (k : A -> result B) (b : B) :
  bind m k = Ok b -> exists a, m = Ok a /\ k a = Ok b.
Proof. destruct m as [a|e]; simpl; [eauto | discriminate]. Qed.

(** What [run_ml] returns is [round(y * 17)] for a prediction [y] of the
    regression. *)
Lemma run_ml_value (team_data : DataFrame) (w : Z) :
  run_ml model fit predict team_data = Ok w ->
  exists (reg : model) (x : list (list Q)) (y0 : Q) (ys : list Q),
    predict reg x = y0 :: ys /\ w = py_round (y0 * 17).
Proof.
  unfold run_ml. intros H.
  apply bind_Ok in H as (res & _ & H).
  apply bind_Ok in H as (x & _ & H).
  apply bind_Ok in H as (y & _ & H).
  apply bind_Ok in H as (x_test & _ & H).
  apply bind_Ok in H as (reg & _ & H).
  destruct (predict reg [x_test]) as [|y0 ys] eqn:E; [discriminate |].
  injection H as <-. exists reg, [x_test], y0, ys. split; [exact E | reflexivity].
Qed.

(** The callback returns the clamped count whenever the analysis returns
    one, and nothing unless the button triggered it. *)
Lemma update_machinelearning_button (agg_teams team_data : DataFrame) (pred_wins : Z) :
  analyze_team model fit predict agg_teams team_data = Ok pred_wins ->
  update_machinelearning model fit predict agg_teams team_data button
  = Ok (Some (Z.min (Z.max pred_wins 0) 16)).
Proof. unfold update_machinelearning. intros ->. reflexivity. Qed.

Lemma update_machinelearning_value (agg_teams team_data : DataFrame)
    (t : ml_trigger) (w : Z) :
  update_machinelearning model fit predict agg_teams team_data t = Ok (Some w) ->
  exists (reg : model) (x : list (list Q)) (y0 : Q) (ys : list Q),
    predict reg x = y0 :: ys /\ w = Z.min (Z.max (py_round (y0 * 17)) 0) 16.
Proof.
  unfold update_machinelearning. destruct t; [discriminate |]. intros H.
  apply bind_Ok in H as (pw & Ha & H). injection H as <-.
  unfold analyze_team in Ha. apply bind_Ok in Ha as (tbl & _ & Ha).
  apply run_ml_value in Ha as (reg & x & y0 & ys & E & ->).
  exists reg, x, y0, ys. split; [exact E | reflexivity].
Qed.

End Wins.

(** C3. Whatever the regression predicts, a win count returned by
    [update_machinelearning] is an integer between 0 and 16. *)
Theorem wins_in_range (model : Type) (fit : list (list Q) -> list Q -> result model)
    (predict : model -> list (list Q) -> list Q)
    (agg_teams team_data : DataFrame) (t : ml_trigger) (w : Z) :
  update_machinelearning model fit predict agg_teams team_data t = Ok (Some w) ->
  0 <= w <= games_in_season.
Proof.
  intros H. apply update_machinelearning_value in H as (_ & _ & y0 & _ & _ & ->).
  unfold games_in_season. lia.
Qed.

Lemma wins_in_range_witness :
  update_machinelearning unit const_fit (const_predict 1000) agg_sample gm_numeric button
  = Ok (Some 16)
  /\ update_machinelearning unit const_fit (const_predict (-1000)) agg_sample gm_numeric button
     = Ok (Some 0)
  /\ 0 <= 16 <= games_in_season.
Proof.
  assert (E : update_machinelearning unit const_fit (const_predict 1000)
                agg_sample gm_numeric button = Ok (Some 16)) by (vm_compute; reflexivity).
  split; [exact E |]. split; [vm_compute; reflexivity |].
  exact (wins_in_range unit const_fit (const_predict 1000) agg_sample gm_numeric button 16 E).
Defined.

(** C2. The count is [round(win_fraction * 17)] clamped to [[0, 16]], not
    [round(win_fraction * 16)]: for a predicted win fraction of 0.75 the
    callback returns 13, where the 16-game formula gives 12. *)
Theorem wins_multiplier_is_17 :
  wins_of (3 # 4) = 13
  /\ update_machinelearning unit const_fit (const_predict (3 # 4)) agg_sample gm_numeric button
     = Ok (Some 13)
  /\ spec_wins (3 # 4) = 12.
Proof. vm_compute. repeat split. Qed.

(** ** The aggregated roster vector *)

Section Aggregation.

Lemma has_col_In (l : string) (cols : list string) : has_col l cols = true <-> In l cols.
Proof.
  unfold has_col. rewrite List.existsb_exists. split.
  - intros (x & Hx & E). apply String.eqb_eq in E. subst. exact Hx.
  - intros H. exists l. split; [exact H | apply String.eqb_refl].
Qed.

Lemma has_col_false (l : string) (cols : list string) : has_col l cols = false <-> ~ In l cols.
Proof.
  rewrite <- has_col_In. destruct (has_col l cols); split; intros; congruence.
Qed.

Lemma numeric_values_TypeError (l : list cell) (e : exn) :
  numeric_values l = Raise e -> e = TypeError.
Proof.
  induction l as [|[q|s|] l IH]; simpl; intros H.
  - discriminate.
  - destruct (numeric_values l); simpl in H; [discriminate | apply IH; congruence].
  - congruence.
  - apply IH, H.
Qed.

Lemma numeric_values_Str (l : list cell) (s : string) :
  In (Str s) l -> numeric_values l = Raise TypeError.
Proof.
  induction l as [|[q|s'|] l IH]; simpl; intros H.
  - destruct H.
  - destruct H as [H | H]; [discriminate |]. rewrite (IH H). reflexivity.
  - reflexivity.
  - destruct H as [H | H]; [discriminate | exact (IH H)].
Qed.

Lemma numeric_values_all_nan (l : list cell) :
  (forall c, In c l -> c = NaN) -> numeric_values l = Ok [].
Proof.
  induction l as [|c l IH]; intros H; [reflexivity |].
  rewrite (H c (or_introl eq_refl)). simpl. apply IH. intros x Hx. apply H. right. exact Hx.
Qed.

Lemma team_stat_TypeError (gm : DataFrame) (l : string) (e : exn) :
  team_stat gm l = Raise e -> e = TypeError.
Proof.
  unfold team_stat, series_mean, series_sum, bind.
  destruct (has_col l AVERAGED_STATS);
    destruct (numeric_values (series gm l)) as [vs|e'] eqn:E; intros H.
  - destruct vs; discriminate.
  - injection H as <-. apply (numeric_values_TypeError _ _ E).
  - discriminate.
  - injection H as <-. apply (numeric_values_TypeError _ _ E).
Qed.

Lemma team_stat_Str (gm : DataFrame) (l s : string) :
  In (Str s) (series gm l) -> team_stat gm l = Raise TypeError.
Proof.
  intros H. unfold team_stat, series_mean, series_sum.
  rewrite (numeric_values_Str _ s H). destruct (has_col l AVERAGED_STATS); reflexivity.
Qed.

(** The loop body, by the membership of the label in the roster columns. *)
Lemma team_stat_step_eq (gm : DataFrame)
    (st : (list string * gmap string cell) * list string) (l : string) :
  team_stat_step gm st l =
  if has_col l (columns gm) then
    do v <- team_stat gm l; Ok (dict_set l v (fst st), snd st)
  else Ok (fst st, snd st ++ [l]).
Proof.
  destruct st as [stats ec]. unfold team_stat_step, team_stat. cbn [fst snd].
  destruct (has_col l (columns gm)); [| reflexivity].
  destruct (has_col l AVERAGED_STATS).
  - destruct (series_mean (series gm l)); reflexivity.
  - destruct (series_sum (series gm l)); reflexivity.
Qed.

Lemma team_stat_loop_raise (gm : DataFrame) (ls : list string)
    (st : (list string * gmap string cell) * list string) (e : exn) :
  team_stat_loop gm ls st = Raise e -> e = TypeError.
Proof.
  revert st. induction ls as [|l ls IH]; intros st; simpl; [discriminate |].
  rewrite team_stat_step_eq.
  destruct (has_col l (columns gm)).
  - destruct (team_stat gm l) as [v|e'] eqn:E; simpl.
    + apply IH.
    + intros H. injection H as <-. apply (team_stat_TypeError _ _ _ E).
  - simpl. apply IH.
Qed.

Lemma team_stat_loop_fails (gm : DataFrame) (ls : list string)
    (st : (list string * gmap string cell) * list string) (l : string) (e : exn) :
  In l ls -> In l (columns gm) -> team_stat gm l = Raise e ->
  team_stat_loop gm ls st = Raise TypeError.
Proof.
  intros Hin Hc He. revert st. induction ls as [|a ls IH]; intros st; [destruct Hin |].
  simpl. rewrite team_stat_step_eq.
  destruct (String.eqb_spec a l) as [-> | Hne].
  - rewrite (proj2 (has_col_In _ _) Hc), He. simpl.
    rewrite (team_stat_TypeError _ _ _ He). reflexivity.
  - destruct Hin as [? | Hin]; [contradiction |].
    destruct (has_col a (columns gm)).
    + destruct (team_stat gm a) as [v|e'] eqn:E; simpl; [apply IH, Hin |].
      rewrite (team_stat_TypeError _ _ _ E). reflexivity.
    + simpl. apply IH, Hin.
Qed.

(** What the loop leaves: the labels missing from the roster, in order,
    and under every other label seen its [team_stat]. *)
Lemma team_stat_loop_spec (gm : DataFrame) (ls : list string)
    (st st' : (list string * gmap string cell) * list string) :
  team_stat_loop gm ls st = Ok st' ->
  snd st' = snd st ++ List.filter (fun l => negb (has_col l (columns gm))) ls
  /\ (forall l, In l (fst (fst st')) <->
                In l (fst (fst st)) \/ (In l ls /\ In l (columns gm)))
  /\ (forall l, In l ls -> In l (columns gm) ->
                exists v, team_stat gm l = Ok v /\ snd (fst st') !! l = Some v)
  /\ (forall l, ~ (In l ls /\ In l (columns gm)) ->
                snd (fst st') !! l = snd (fst st) !! l).
Proof.
  revert st. induction ls as [|a ls IH]; intros st H.
  - simpl in H. injection H as <-. rewrite List.app_nil_r.
    split; [reflexivity |]. split; [intros l; simpl; tauto |].
    split; [intros l [] | reflexivity].
  - simpl in H. rewrite team_stat_step_eq in H.
    destruct (has_col a (columns gm)) eqn:Ea.
    + apply has_col_In in Ea.
      destruct (team_stat gm a) as [v|e] eqn:Ev; simpl in H; [| discriminate].
      destruct (IH _ H) as (Hec & Hk & Hv & Ho). clear IH. simpl in Hec, Hk, Ho.
      split; [| split; [| split]].
      * simpl. rewrite (proj2 (has_col_In _ _) Ea). exact Hec.
      * intros l. rewrite Hk. simpl.
        destruct (has_col a (fst (fst st))) eqn:Ek.
        -- apply has_col_In in Ek. split; [intros [? | [? ?]]; auto |].
           intros [? | [[<- | ?] ?]]; auto.
        -- rewrite List.in_app_iff. simpl. split.
           ++ intros [[? | [<- | []]] | [? ?]]; auto.
           ++ intros [? | [[<- | ?] ?]]; auto.
      * intros l Hl Hc.
        destruct (List.in_dec string_dec l ls) as [Hin | Hout]; [apply Hv; assumption |].
        destruct Hl as [<- | Hl]; [| contradiction].
        exists v. split; [exact Ev |]. rewrite Ho by tauto. apply lookup_insert_eq.
      * intros l Hn. rewrite Ho by (simpl in Hn; tauto).
        apply lookup_insert_ne. intros <-. apply Hn. simpl. auto.
    + apply has_col_false in Ea. simpl in H.
      destruct (IH _ H) as (Hec & Hk & Hv & Ho). clear IH. simpl in Hec, Hk, Ho.
      split; [| split; [| split]].
      * simpl. rewrite (proj2 (has_col_false _ _) Ea). simpl.
        rewrite Hec, <- List.app_assoc. reflexivity.
      * intros l. rewrite Hk. simpl. split.
        -- intros [? | [? ?]]; auto.
        -- intros [? | [[<- | ?] ?]]; auto. contradiction.
      * intros l [<- | Hl] Hc; [contradiction | apply Hv; assumption].
      * intros l Hn. apply Ho. simpl in Hn. tauto.
Qed.

Lemma get_team_stats_spec (td gm : DataFrame) (ec : list string) (v : DataFrame) :
  get_team_stats td gm = Ok (ec, v) ->
  exists keys m,
    list_remove "W-L%" (List.filter (fun l => negb (has_col l (columns gm))) (columns td)) = Ok ec
    /\ v = from_dict (keys, m)
    /\ (forall l, In l keys <-> In l (columns td) /\ In l (columns gm))
    /\ (forall l, In l (columns td) -> In l (columns gm) ->
                  exists x, team_stat gm l = Ok x /\ m !! l = Some x).
Proof.
  unfold get_team_stats. intros H.
  destruct (team_stat_loop gm (columns td) ([], ∅, [])) as [[[keys m] ec0]|e] eqn:E;
    [| discriminate].
  apply team_stat_loop_spec in E as (Hec & Hk & Hv & _). cbn [fst snd] in *.
  simpl in H. destruct (list_remove "W-L%" ec0) as [ec'|] eqn:Er; [| discriminate].
  simpl in H. injection H as <- <-.
  exists keys, m. simpl in Hec. rewrite <- Hec. split; [exact Er |]. split; [reflexivity |].
  split; [| exact Hv]. intros l. rewrite Hk. simpl. tauto.
Qed.

Lemma get_team_stats_lookup (td gm : DataFrame) (ec : list string) (v : DataFrame)
    (l : string) :
  get_team_stats td gm = Ok (ec, v) -> In l (columns td) -> In l (columns gm) ->
  exists x row, team_stat gm l = Ok x /\ rows v = [row] /\ row !! l = Some x
                /\ In l (columns v).
Proof.
  intros H Ht Hg. apply get_team_stats_spec in H as (keys & m & _ & -> & Hk & Hv).
  destruct (Hv l Ht Hg) as (x & Hx & Hm). exists x, m.
  assert (Hin : In l keys) by (apply Hk; auto).
  unfold from_dict. cbn [fst snd]. destruct keys as [|k keys]; [destruct Hin |].
  cbn [rows columns]. auto.
Qed.

Lemma get_team_stats_columns (td gm : DataFrame) (ec : list string) (v : DataFrame)
    (l : string) :
  get_team_stats td gm = Ok (ec, v) ->
  (In l (columns v) <-> In l (columns td) /\ In l (columns gm)).
Proof.
  intros H. apply get_team_stats_spec in H as (keys & m & _ & -> & Hk & _).
  rewrite <- Hk. unfold from_dict. cbn [fst snd]. destruct keys; simpl; tauto.
Qed.

End Aggregation.

Section AggregationStatements.

Local Open Scope Q_scope.


Lemma get_team_stats_numeric :
  get_team_stats td_sample gm_numeric
  = Ok (["TD"], mkDF ["Cmp%"; "Yds"]
                     [ {[ "Cmp%" := Num (py_round1 (((125 # 2) + 0) / inject_Z 1));
                          "Yds" := Num ((110 + 0) * (16 / 11)) ]} ]).
Proof. vm_compute. reflexivity. Qed.



(** C7, as the code has it. A statistic is in the roster vector exactly
    when it is a column of both tables. When no member has a value for
    such a column it is still there: as the missing value for an averaged
    statistic, as [0 * (16/11)] for a summed one. *)
Theorem missing_stat_is_kept (td gm : DataFrame) (ec : list string) (v : DataFrame)
    (l : string) :
  get_team_stats td gm = Ok (ec, v) ->
  (In l (columns v) <-> In l (columns td) /\ In l (columns gm))
  /\ (In l (columns td) -> In l (columns gm) ->
      (forall c, In c (series gm l) -> c = NaN) ->
      exists row, rows v = [row]
        /\ row !! l = Some (if has_col l AVERAGED_STATS then NaN else Num (0 * (16 / 11)))).
Proof.
  intros H. split; [apply (get_team_stats_columns td gm ec v l H) |].
  intros Ht Hg Hall.
  destruct (get_team_stats_lookup td gm ec v l H Ht Hg) as (x & row & Hx & Hr & Hl & _).
  exists row. split; [exact Hr |]. rewrite Hl. f_equal.
  unfold team_stat, series_mean, series_sum in Hx.
  rewrite (numeric_values_all_nan _ Hall) in Hx.
  destruct (has_col l AVERAGED_STATS); simpl in Hx; congruence.
Qed.

Lemma get_team_stats_missing :
  get_team_stats td_sample gm_missing
  = Ok (["TD"], mkDF ["Cmp%"; "Yds"]
                     [ {[ "Cmp%" := NaN; "Yds" := Num (0 * (16 / 11)) ]} ]).
Proof. vm_compute. reflexivity. Qed.

Lemma missing_stat_is_kept_witness :
  (In "Yds" ["Cmp%"; "Yds"] <-> In "Yds" (columns td_sample) /\ In "Yds" (columns gm_missing))
  /\ exists row,
       [ ({[ "Cmp%" := NaN; "Yds" := Num (0 * (16 / 11)) ]} : gmap string cell) ] = [row]
       /\ row !! "Yds" = Some (Num (0 * (16 / 11))).
Proof.
  destruct (missing_stat_is_kept td_sample gm_missing ["TD"] _ "Yds" get_team_stats_missing)
    as [Hc Hv].
  split; [exact Hc |]. apply Hv.
  - simpl. tauto.
  - simpl. tauto.
  - intros c [<- | []]. reflexivity.
Defined.

(** C7 as the specification words it fails: no member of the roster has a
    value for ["Yds"] or ["Cmp%"], and the vector holds both. *)
Lemma missing_stat_counterexample :
  (forall c, In c (series gm_missing "Yds") -> c = NaN)
  /\ (forall c, In c (series gm_missing "Cmp%") -> c = NaN)
  /\ exists ec v row,
       get_team_stats td_sample gm_missing = Ok (ec, v)
       /\ In "Yds" (columns v) /\ In "Cmp%" (columns v)
       /\ rows v = [row]
       /\ row !! "Yds" = Some (Num (0 * (16 / 11))) /\ row !! "Cmp%" = Some NaN.
Proof.
  split; [intros c [<- | []]; reflexivity |].
  split; [intros c [<- | []]; reflexivity |].
  eexists. eexists. eexists. split; [exact get_team_stats_missing |].
  simpl. repeat split; auto.
Qed.

(** C6, as the code has it. The percent conversion belongs to the radar
    chart: there ["62.5%"] becomes 0.625, and a plain number is divided by
    100 as well. [get_team_stats] converts nothing: a column that holds a
    percent-suffixed string makes it raise [TypeError] (neither the sum
    of such a column nor the text an averaged column of strings is read
    back from is a number), and the number of a single member goes into
    the vector as it is stored, rounded to one decimal for an averaged
    statistic and scaled by 16/11 for a summed one. *)
Theorem percent_only_for_radar (td gm : DataFrame) (l : string) :
  In l (columns td) -> In l (columns gm) ->
  (exists x, radar_value (Str "62.5%") = Ok (Num x) /\ x == 5 # 8)
  /\ (forall q, radar_value (Num q) = Ok (Num (q / 100)))
  /\ (forall s, In (Str (s +:+ "%")) (series gm l) ->
       get_team_stats td gm = Raise TypeError)
  /\ (forall q ec v, series gm l = [Num q] -> get_team_stats td gm = Ok (ec, v) ->
       exists row x, rows v = [row] /\ row !! l = Some (Num x)
         /\ x == if has_col l AVERAGED_STATS then py_round1 q else q * (16 / 11)).
Proof.
  intros Ht Hg.
  split; [eexists; split; [vm_compute; reflexivity | reflexivity] |].
  split; [reflexivity |]. split.
  - intros s Hs. unfold get_team_stats.
    rewrite (team_stat_loop_fails gm (columns td) _ l TypeError Ht Hg
               (team_stat_Str gm l (s +:+ "%") Hs)).
    reflexivity.
  - intros q ec v Hq H.
    destruct (get_team_stats_lookup td gm ec v l H Ht Hg) as (x & row & Hx & Hr & Hl & _).
    unfold team_stat, series_mean, series_sum in Hx. rewrite Hq in Hx.
    exists row. destruct (has_col l AVERAGED_STATS);
      cbn [numeric_values bind Qsum fold_right length round1_cell] in Hx;
      injection Hx as <-; eexists; (split; [exact Hr |]); (split; [exact Hl |]).
    + apply py_round1_comp. simpl. field.
    + ring.
Qed.

Lemma get_team_stats_percent : get_team_stats td_sample gm_percent = Raise TypeError.
Proof. vm_compute. reflexivity. Qed.

Lemma percent_only_for_radar_witness :
  (exists x, radar_value (Str "62.5%") = Ok (Num x) /\ x == 5 # 8)
  /\ get_team_stats td_sample gm_percent = Raise TypeError
  /\ exists row x,
       [ ({[ "Cmp%" := Num (py_round1 (((125 # 2) + 0) / inject_Z 1));
             "Yds" := Num ((110 + 0) * (16 / 11)) ]} : gmap string cell) ] = [row]
       /\ row !! "Cmp%" = Some (Num x) /\ x == 125 # 2.
Proof.
  destruct (percent_only_for_radar td_sample gm_percent "Cmp%") as (Hr & _ & Hs & _);
    [simpl; tauto | simpl; tauto |].
  destruct (percent_only_for_radar td_sample gm_numeric "Cmp%") as (_ & _ & _ & Hn);
    [simpl; tauto | simpl; tauto |].
  split; [exact Hr |]. split; [apply (Hs "62.5"); left; reflexivity |].
  destruct (Hn (125 # 2) _ _ eq_refl get_team_stats_numeric) as (row & x & E1 & E2 & E3).
  exists row, x. split; [exact E1 |]. split; [exact E2 |].
  rewrite E3. vm_compute. reflexivity.
Defined.

(** C6 as the specification words it fails: a roster whose ["Cmp%"] cell
    is the string ["62.5%"] gives no vector at all, so no feature of
    value 0.625 reaches the model; stored as the number 62.5 the cell
    reaches it as 62.5. *)
Lemma percent_counterexample :
  series gm_percent "Cmp%" = [Str "62.5%"]
  /\ get_team_stats td_sample gm_percent = Raise TypeError
  /\ analysis_table agg_sample gm_percent = Raise TypeError
  /\ ~ (exists ec v row x, get_team_stats td_sample gm_percent = Ok (ec, v)
          /\ rows v = [row] /\ row !! "Cmp%" = Some (Num x) /\ x == 5 # 8)
  /\ exists row x, get_team_stats td_sample gm_numeric
                    = Ok (["TD"], mkDF ["Cmp%"; "Yds"] [row])
                    /\ row !! "Cmp%" = Some (Num x) /\ x == 125 # 2 /\ ~ x == 5 # 8.
Proof.
  split; [reflexivity |]. split; [exact get_team_stats_percent |].
  split; [vm_compute; reflexivity |]. split.
  - intros (ec & v & row & x & H & _). rewrite get_team_stats_percent in H. discriminate.
  - eexists. eexists. split; [exact get_team_stats_numeric |].
    split; [reflexivity |]. split; [vm_compute; reflexivity | vm_compute; discriminate].
Qed.

End AggregationStatements.

(** ** The table handed to the regression *)

Section Table.

Lemma condense_positions_columns (df df' : DataFrame) :
  condense_positions df = Ok df' -> columns df' = columns df.
Proof.
  unfold condense_positions.
  destruct (has_col "Cap Hit" (columns df)); [| discriminate].
  destruct (has_col "Pos" (columns df)); [| discriminate].
  simpl. intros H. injection H as <-. reflexivity.
Qed.

Lemma drop_columns_columns (ls : list string) (df df' : DataFrame) (c : string) :
  drop_columns ls df = Ok df' ->
  (In c (columns df') <-> In c (columns df) /\ ~ In c ls).
Proof.
  unfold drop_columns. destruct (forallb _ ls); [| discriminate].
  intros H. injection H as <-. cbn [columns]. rewrite List.filter_In.
  rewrite negb_true_iff, has_col_false. reflexivity.
Qed.


Lemma list_remove_spec (x : string) (l l' : list string) :
  list_remove x l = Ok l' -> List.NoDup l ->
  forall c, In c l' <-> In c l /\ c <> x.
Proof.
  revert l'. induction l as [|y l IH]; simpl; intros l' H Hnd c; [discriminate |].
  apply List.NoDup_cons_iff in Hnd as [Hy Hnd].
  destruct (String.eqb_spec y x) as [-> | Hne].
  - injection H as <-. split.
    + intros Hc. split; [right; exact Hc | intros ->; contradiction].
    + intros [[-> | Hc] Hn]; [congruence | exact Hc].
  - destruct (list_remove x l) as [t|] eqn:E; [| discriminate].
    simpl in H. injection H as <-. simpl. rewrite (IH t eq_refl Hnd c). split.
    + intros [-> | [Hc Hn]]; auto.
    + intros [[-> | Hc] Hn]; auto.
Qed.

Lemma list_remove_In (x : string) (l l' : list string) :
  list_remove x l = Ok l' -> In x l.
Proof.
  revert l'. induction l as [|y l IH]; simpl; intros l' H; [discriminate |].
  destruct (String.eqb_spec y x) as [-> | Hne]; [left; reflexivity |].
  destruct (list_remove x l) as [t|] eqn:E; [| discriminate]. right. apply (IH t eq_refl).
Qed.




Lemma analysis_table_missing :
  analysis_table agg_sample gm_missing
  = Ok (mkDF ["Cmp%"; "Yds"; "W-L%"]
             [ {[ "Cmp%" := Num 60; "Yds" := Num 4000; "W-L%" := Num (1 # 2) ]};
               {[ "Cmp%" := Num 65; "Yds" := Num 4500; "W-L%" := Num (3 # 4) ]};
               {[ "Cmp%" := Num 0; "Yds" := Num (0 * (16 / 11)); "W-L%" := Num 0 ]} ]).
Proof. vm_compute. reflexivity. Qed.



End Table.

(** ** The column filters of data_cleaning.py *)

Section ColumnFilters.

Lemma drop_columns_sub (ls : list string) (df : DataFrame) :
  (forall l, In l ls -> In l (columns df)) ->
  drop_columns ls df
  = Ok (mkDF (List.filter (fun c => negb (has_col c ls)) (columns df))
             (map (fun r => fold_right delete r ls) (rows df))).
Proof.
  intros H. unfold drop_columns.
  assert (E : forallb (fun l => has_col l (columns df)) ls = true).
  { apply List.forallb_forall. intros l Hl. apply has_col_In, H, Hl. }
  rewrite E. reflexivity.
Qed.

Lemma at_col_drop (ls : list string) (r : gmap string cell) (c : string) :
  ~ In c ls -> at_col c (fold_right delete r ls) = at_col c r.
Proof.
  induction ls as [|l ls IH]; intros H; [reflexivity |]. simpl.
  unfold at_col. rewrite lookup_delete_ne.
  - apply IH. intros Hc. apply H. right. exact Hc.
  - intros ->. apply H. left. reflexivity.
Qed.

Lemma series_drop (ls : list string) (df : DataFrame) (c : string) :
  ~ In c ls ->
  series (mkDF (List.filter (fun c => negb (has_col c ls)) (columns df))
               (map (fun r => fold_right delete r ls) (rows df))) c
  = series df c.
Proof.
  intros H. unfold series. cbn [rows]. rewrite List.map_map.
  apply List.map_ext. intros r. apply at_col_drop, H.
Qed.

(** What the three filters share: the columns failing a test go, the
    rows stay, and a column that stays keeps its cells. *)
Lemma drop_filtered (test : string -> bool) (df : DataFrame) :
  exists df',
    drop_columns (List.filter test (columns df)) df = Ok df'
    /\ length (rows df') = length (rows df)
    /\ forall c, (In c (columns df') <-> In c (columns df) /\ test c = false)
                 /\ (test c = false -> series df' c = series df c).
Proof.
  eexists. split.
  - apply drop_columns_sub. intros l Hl. apply List.filter_In in Hl. tauto.
  - split; [cbn [rows]; apply List.length_map |]. intros c. split.
    + cbn [columns]. rewrite List.filter_In, negb_true_iff, has_col_false, List.filter_In.
      destruct (test c); intuition congruence.
    + intros Hc. apply series_drop. rewrite List.filter_In. intros [_ ?]. congruence.
Qed.

Lemma remove_empty_spec (df : DataFrame) :
  exists df',
    remove_empty df = Ok df'
    /\ length (rows df') = length (rows df)
    /\ forall c, (In c (columns df') <-> In c (columns df) /\ (10 <= count (series df c))%nat)
                 /\ (In c (columns df') -> series df' c = series df c).
Proof.
  destruct (drop_filtered (fun col => Nat.ltb (count (series df col)) 10) df)
    as (df' & E & Hr & Hc).
  exists df'. split; [exact E |]. split; [exact Hr |]. intros c.
  destruct (Hc c) as [Hi Hs]. rewrite Nat.ltb_ge in Hi, Hs. split; [exact Hi |].
  intros H. apply Hs, Hi, H.
Qed.

(** X1. [remove_empty] never raises; it keeps every row, keeps exactly
    the columns with at least ten values, and leaves their cells as they
    were. *)
Theorem remove_empty_keeps (df : DataFrame) :
  exists df',
    remove_empty df = Ok df'
    /\ length (rows df') = length (rows df)
    /\ forall c, (In c (columns df') <-> In c (columns df) /\ (10 <= count (series df c))%nat)
                 /\ (In c (columns df') -> series df' c = series df c).
Proof.
  destruct (drop_filtered (fun col => Nat.ltb (count (series df col)) 10) df)
    as (df' & E & Hr & Hc).
  exists df'. split; [exact E |]. split; [exact Hr |]. intros c.
  destruct (Hc c) as [Hi Hs]. rewrite Nat.ltb_ge in Hi, Hs. split; [exact Hi |].
  intros H. apply Hs, Hi, H.
Qed.

Lemma count_le_rows (df : DataFrame) (c : string) :
  (count (series df c) <= length (rows df))%nat.
Proof.
  unfold count, series. rewrite <- (List.length_map (at_col c) (rows df)).
  apply List.filter_length_le.
Qed.

Lemma no_member_nil {A} (l : list A) : (forall x, ~ In x l) -> l = [].
Proof. destruct l as [|a l]; [reflexivity |]. intros H. destruct (H a). left. reflexivity. Qed.

(** X2. A frame with fewer than ten rows comes out of [remove_empty]
    without any column. *)
Theorem remove_empty_small (df : DataFrame) :
  (length (rows df) < 10)%nat ->
  exists df', remove_empty df = Ok df' /\ columns df' = [].
Proof.
  intros Hlt. destruct (remove_empty_spec df) as (df' & E & _ & Hc).
  exists df'. split; [exact E |]. apply no_member_nil. intros c Hin.
  apply (Hc c) in Hin as [_ Hin]. pose proof (count_le_rows df c). lia.
Qed.

Lemma remove_empty_small_witness :
  (length (rows td_sample) < 10)%nat
  /\ exists df', remove_empty td_sample = Ok df' /\ columns df' = [].
Proof.
  split; [simpl; lia |]. apply (remove_empty_small td_sample). simpl. lia.
Defined.

Lemma drop_nothing (df : DataFrame) : drop_columns [] df = Ok df.
Proof.
  destruct df as [cols rs]. unfold drop_columns. cbn [forallb columns rows fold_right].
  f_equal. f_equal.
  - apply List.forallb_filter_id, List.forallb_forall. reflexivity.
  - apply List.map_id.
Qed.

(** X3. [remove_empty] is idempotent: a second pass changes nothing. *)
Theorem remove_empty_idempotent (df df' : DataFrame) :
  remove_empty df = Ok df' -> remove_empty df' = Ok df'.
Proof.
  intros H. destruct (remove_empty_spec df) as (df0 & E & _ & Hc).
  rewrite E in H. injection H as ->. unfold remove_empty.
  rewrite (no_member_nil (List.filter _ (columns df'))); [apply drop_nothing |].
  intros c Hin. apply List.filter_In in Hin as [Hin Hlt].
  destruct (Hc c) as [Hi Hs]. rewrite (Hs Hin) in Hlt.
  apply Hi in Hin as [_ Hge]. apply Nat.ltb_lt in Hlt. lia.
Qed.

Lemma remove_empty_idempotent_witness :
  remove_empty td_sample = Ok (mkDF [] [∅; ∅])
  /\ remove_empty (mkDF [] [∅; ∅]) = Ok (mkDF [] [∅; ∅]).
Proof.
  assert (E : remove_empty td_sample = Ok (mkDF [] [∅; ∅])) by (vm_compute; reflexivity).
  split; [exact E | exact (remove_empty_idempotent _ _ E)].
Defined.

(** X4. [drop_zeroes] never raises; it keeps every row and exactly the
    columns with a cell that is not the number 0 (a missing value and a
    string count as such), cells unchanged. Without rows no column is
    left. *)
Theorem drop_zeroes_keeps (df : DataFrame) :
  exists df',
    drop_zeroes df = Ok df'
    /\ length (rows df') = length (rows df)
    /\ (forall c, (In c (columns df') <->
                   In c (columns df) /\ exists x, In x (series df c) /\ is_zero x = false)
                  /\ (In c (columns df') -> series df' c = series df c))
    /\ (rows df = [] -> columns df' = []).
Proof.
  destruct (drop_filtered (fun col => forallb is_zero (series df col)) df)
    as (df' & E & Hr & Hc).
  assert (Hx : forall c, forallb is_zero (series df c) = false
                         <-> exists x, In x (series df c) /\ is_zero x = false).
  { intros c. split.
    - intros H. induction (series df c) as [|a l IH]; [discriminate |]. simpl in H.
      destruct (is_zero a) eqn:Ea.
      + destruct (IH H) as (x & Hx & Hz). exists x. split; [right; exact Hx | exact Hz].
      + exists a. split; [left; reflexivity | exact Ea].
    - intros (x & Hx & Hz). destruct (forallb is_zero (series df c)) eqn:Ef; [| reflexivity].
      rewrite List.forallb_forall in Ef. rewrite (Ef x Hx) in Hz. discriminate. }
  exists df'. split; [exact E |]. split; [exact Hr |]. split.
  - intros c. destruct (Hc c) as [Hi Hs]. rewrite Hx in Hi, Hs. split; [exact Hi |].
    intros H. apply Hs, Hi, H.
  - intros Hnil. apply no_member_nil. intros c Hin.
    apply (Hc c) in Hin as [_ Hin]. unfold series in Hin. rewrite Hnil in Hin. discriminate.
Qed.

(** X5. [initial_player_view] never raises; it keeps every row and
    exactly the columns named in [KEY_STATS], cells unchanged, so its
    result never has an ['id'] column. *)
Theorem initial_player_view_keeps (df : DataFrame) :
  exists df',
    initial_player_view df = Ok df'
    /\ length (rows df') = length (rows df)
    /\ (forall c, (In c (columns df') <-> In c (columns df) /\ In c KEY_STATS)
                  /\ (In c (columns df') -> series df' c = series df c))
    /\ ~ In "id" (columns df').
Proof.
  destruct (drop_filtered (fun col => negb (has_col col KEY_STATS)) df)
    as (df' & E & Hr & Hc).
  assert (Hk : forall c, negb (has_col c KEY_STATS) = false <-> In c KEY_STATS).
  { intros c. rewrite negb_false_iff. apply has_col_In. }
  assert (Hall : forall c, (In c (columns df') <-> In c (columns df) /\ In c KEY_STATS)
                           /\ (In c (columns df') -> series df' c = series df c)).
  { intros c. destruct (Hc c) as [Hi Hs]. rewrite Hk in Hi, Hs. split; [exact Hi |].
    intros H. apply Hs, Hi, H. }
  exists df'. split; [exact E |]. split; [exact Hr |]. split; [exact Hall |].
  intros Hin. apply (Hall "id") in Hin as [_ Hin]. simpl in Hin.
  repeat (destruct Hin as [Hin | Hin]; [discriminate Hin |]). exact Hin.
Qed.

End ColumnFilters.

(** ** More on position normalization *)

Section PositionsMore.

Lemma rename_all_map (rn : list (string * string)) (rs : list (gmap string cell)) :
  fold_left (fun acc '(src, dst) => map (rename_pos src dst) acc) rn rs
  = map (fun r => fold_left (fun acc '(src, dst) => rename_pos src dst acc) rn r) rs.
Proof.
  revert rs. induction rn as [|[s d] rn IH]; intros rs; simpl.
  - symmetry. apply List.map_id.
  - rewrite IH, List.map_map. reflexivity.
Qed.

Lemma rename_fold_other (rn : list (string * string)) (r : gmap string cell) :
  (forall p, at_col "Pos" r = Str p -> ~ In p (map fst rn)) ->
  fold_left (fun acc '(src, dst) => rename_pos src dst acc) rn r = r.
Proof.
  induction rn as [|[s d] rn IH]; intros H; [reflexivity |]. simpl.
  assert (E : rename_pos s d r = r).
  { unfold rename_pos. destruct (at_col "Pos" r) as [q|p|] eqn:Ep; try reflexivity.
    simpl. destruct (String.eqb_spec p s) as [-> | _]; [| reflexivity].
    destruct (H s eq_refl). left. reflexivity. }
  rewrite E. apply IH. intros p Hp Hin. apply (H p Hp). right. exact Hin.
Qed.

(** The first assignment whose source is the row's position fires, and
    none after it, because no target is a source. *)
Lemma rename_fold_hit (rn : list (string * string)) (r : gmap string cell) (s d : string) :
  (forall s' d', In (s', d') rn -> ~ In d' (map fst rn)) ->
  List.NoDup (map fst rn) ->
  In (s, d) rn -> at_col "Pos" r = Str s ->
  fold_left (fun acc '(src, dst) => rename_pos src dst acc) rn r = <["Pos" := Str d]> r.
Proof.
  induction rn as [|[s0 d0] rn IH]; intros Ht Hnd Hin Hp; [destruct Hin |].
  simpl in Hnd. apply List.NoDup_cons_iff in Hnd as [Hs0 Hnd]. simpl.
  destruct Hin as [E | Hin].
  - injection E as -> ->. unfold rename_pos at 2. rewrite Hp. simpl. rewrite String.eqb_refl.
    apply rename_fold_other. intros p Hq Hin. unfold at_col in Hq.
    rewrite lookup_insert_eq in Hq. simpl in Hq. injection Hq as <-.
    apply (Ht s d (or_introl eq_refl)). right. exact Hin.
  - assert (Hne : s <> s0).
    { intros ->. apply Hs0. apply (List.in_map fst _ _ Hin). }
    unfold rename_pos at 2. rewrite Hp. simpl.
    destruct (String.eqb_spec s s0) as [? | _]; [contradiction |].
    apply IH; try assumption.
    intros s' d' H' Hd. apply (Ht s' d' (or_intror H')). right. exact Hd.
Qed.

Lemma POS_RENAMES_targets :
  forall s d, In (s, d) POS_RENAMES -> ~ In d (map fst POS_RENAMES).
Proof.
  intros s d H. simpl in H.
  repeat (destruct H as [H | H];
          [injection H as <- <-; simpl; intros H;
           repeat (destruct H as [H | H]; [discriminate H |]); exact H |]).
  destruct H.
Qed.

Lemma POS_RENAMES_sources : List.NoDup (map fst POS_RENAMES).
Proof.
  simpl. repeat (constructor; [simpl; intros H;
    repeat (destruct H as [H | H]; [discriminate H |]); exact H |]). constructor.
Qed.

Lemma rename_row_Cap_Hit (r : gmap string cell) :
  rename_row r !! "Cap Hit" = r !! "Cap Hit".
Proof.
  unfold rename_row. generalize POS_RENAMES. intros rn. revert r.
  induction rn as [|[s d] rn IH]; intros r; [reflexivity |]. simpl. rewrite IH.
  unfold rename_pos. destruct (is_str s (at_col "Pos" r)); [| reflexivity].
  apply lookup_insert_ne. discriminate.
Qed.

(** The position after the renaming: the target of the synonym, or the
    position as it was. *)
Lemma rename_row_Pos (r : gmap string cell) :
  (exists s d, In (s, d) POS_RENAMES /\ at_col "Pos" r = Str s
               /\ rename_row r = <["Pos" := Str d]> r)
  \/ ((forall p, at_col "Pos" r = Str p -> ~ In p (map fst POS_RENAMES))
      /\ rename_row r = r).
Proof.
  destruct (at_col "Pos" r) as [q|p|] eqn:Ep.
  - right. split; [discriminate | apply rename_fold_other; rewrite Ep; discriminate].
  - destruct (List.in_dec string_dec p (map fst POS_RENAMES)) as [Hin | Hout].
    + left. apply List.in_map_iff in Hin as ([s d] & <- & Hin). exists s, d.
      split; [exact Hin |]. split; [reflexivity |].
      apply (rename_fold_hit POS_RENAMES r s d);
        [exact POS_RENAMES_targets | exact POS_RENAMES_sources | exact Hin | exact Ep].
    + right. split; [intros p' E; injection E as <-; exact Hout |].
      apply rename_fold_other. rewrite Ep. intros p' E. injection E as <-. exact Hout.
  - right. split; [discriminate | apply rename_fold_other; rewrite Ep; discriminate].
Qed.

Lemma condense_positions_rows (df df' : DataFrame) :
  condense_positions df = Ok df' ->
  rows df' = map rename_row
    (List.filter (fun r => negb (is_str "LS" (at_col "Pos" r)))
       (List.filter (fun r => negb (is_nan (at_col "Cap Hit" r)))
          (map (fun r => <["Cap Hit" := replace_empty (at_col "Cap Hit" r)]> r) (rows df)))).
Proof.
  unfold condense_positions.
  destruct (has_col "Cap Hit" (columns df)); [| discriminate].
  destruct (has_col "Pos" (columns df)); [| discriminate].
  simpl negb. cbv iota. intros H. injection H as <-. cbn [rows].
  unfold rename_all. apply rename_all_map.
Qed.

Lemma replace_empty_not_empty (c : cell) : replace_empty c <> Str "".
Proof. destruct c as [q|[|a s]|]; discriminate. Qed.

Lemma condensed_rows (df df' : DataFrame) (r : gmap string cell) :
  condense_positions df = Ok df' -> In r (rows df') -> condensed r.
Proof.
  intros H Hr. rewrite (condense_positions_rows df df' H) in Hr.
  apply List.in_map_iff in Hr as (r0 & <- & Hr).
  apply List.filter_In in Hr as [Hr Hls]. apply List.filter_In in Hr as [Hr Hnan].
  apply List.in_map_iff in Hr as (r1 & <- & _).
  set (r0 := <["Cap Hit" := replace_empty (at_col "Cap Hit" r1)]> r1) in *.
  assert (Hc : exists c, r0 !! "Cap Hit" = Some c /\ c <> NaN /\ c <> Str "").
  { exists (replace_empty (at_col "Cap Hit" r1)). split; [apply lookup_insert_eq |].
    split; [| apply replace_empty_not_empty].
    intros E. unfold at_col at 1 in Hnan. unfold r0 in Hnan.
    rewrite lookup_insert_eq in Hnan. simpl in Hnan. rewrite E in Hnan. discriminate. }
  assert (Hl : at_col "Pos" r0 <> Str "LS").
  { intros E. rewrite E in Hls. discriminate. }
  split; [rewrite rename_row_Cap_Hit; exact Hc |].
  destruct (rename_row_Pos r0) as [(s & d & Hin & Hp & ->) | [Hn ->]].
  - unfold at_col. rewrite lookup_insert_eq. simpl. split.
    + intros E. injection E as ->. revert Hin. clear. intros H. simpl in H.
      repeat (destruct H as [H | H]; [discriminate H |]). exact H.
    + intros p E. injection E as <-. apply (POS_RENAMES_targets s d Hin).
  - split; assumption.
Qed.

(** X6. Every row [condense_positions] returns has a cap hit that is
    neither missing nor the empty string, and a position that is neither
    ["LS"] nor one of the fifteen renamed synonyms. *)
Theorem condense_positions_condensed (df df' : DataFrame) (r : gmap string cell) :
  condense_positions df = Ok df' -> In r (rows df') -> condensed r.
Proof.
  intros H Hr.
  assert (Hall : Forall condensed (rows df')).
  { apply List.Forall_forall. intros x Hx. exact (condensed_rows df df' x H Hx). }
  rewrite List.Forall_forall in Hall. exact (Hall r Hr).
Qed.

Lemma condense_positions_condensed_witness :
  condense_positions df_raw = Ok (mkDF ["Player"; "Pos"; "Cap Hit"] [<["Pos" := Str "LB"]> row_olb])
  /\ condensed (<["Pos" := Str "LB"]> row_olb).
Proof.
  assert (E : condense_positions df_raw
              = Ok (mkDF ["Player"; "Pos"; "Cap Hit"] [<["Pos" := Str "LB"]> row_olb]))
    by (vm_compute; reflexivity).
  split; [exact E |].
  apply (condense_positions_condensed df_raw _ _ E). left. reflexivity.
Defined.

(** X7. A row with a cap hit whose position is a listed synonym comes
    back with the synonym replaced by its target (["OLB"] by ["LB"], and
    so on) and its other cells as they were. *)
Theorem condense_positions_renames (df : DataFrame) (r : gmap string cell)
    (s d : string) (c : cell) :
  has_col "Cap Hit" (columns df) = true ->
  has_col "Pos" (columns df) = true ->
  In r (rows df) -> In (s, d) POS_RENAMES ->
  r !! "Pos" = Some (Str s) -> r !! "Cap Hit" = Some c -> c <> NaN -> c <> Str "" ->
  exists df', condense_positions df = Ok df' /\ In (<["Pos" := Str d]> r) (rows df').
Proof.
  intros Hc Hp Hin Hsd HP HC Hnan Hemp.
  destruct (condense_positions df) as [df'|e] eqn:E.
  2:{ unfold condense_positions in E. rewrite Hc, Hp in E. discriminate. }
  exists df'. split; [reflexivity |]. rewrite (condense_positions_rows df df' E).
  assert (Er : <["Cap Hit" := replace_empty (at_col "Cap Hit" r)]> r = r).
  { apply insert_id. unfold at_col. rewrite HC. simpl.
    destruct c as [q|[|a t]|]; try reflexivity. contradiction. }
  assert (Ep : at_col "Pos" r = Str s) by (unfold at_col; rewrite HP; reflexivity).
  apply List.in_map_iff. exists r. split.
  - apply (rename_fold_hit POS_RENAMES r s d);
      [exact POS_RENAMES_targets | exact POS_RENAMES_sources | exact Hsd | exact Ep].
  - apply List.filter_In. split.
    + apply List.filter_In. split.
      * apply List.in_map_iff. exists r. split; [exact Er | exact Hin].
      * unfold at_col. rewrite HC. destruct c; try reflexivity. contradiction.
    + rewrite Ep. simpl. destruct (String.eqb_spec s "LS") as [-> | _]; [| reflexivity].
      exfalso. revert Hsd. clear. intros H. simpl in H.
      repeat (destruct H as [H | H]; [discriminate H |]). exact H.
Qed.

Lemma condense_positions_renames_witness :
  exists df', condense_positions df_raw = Ok df'
              /\ In (<["Pos" := Str "LB"]> row_olb) (rows df').
Proof.
  apply (condense_positions_renames df_raw row_olb "OLB" "LB" (Str "$2,500,000")).
  - reflexivity.
  - reflexivity.
  - left. reflexivity.
  - left. reflexivity.
  - reflexivity.
  - reflexivity.
  - discriminate.
  - discriminate.
Defined.

Lemma condensed_fixed (cols : list string) (rs : list (gmap string cell)) :
  has_col "Cap Hit" cols = true -> has_col "Pos" cols = true ->
  (forall r, In r rs -> condensed r) ->
  condense_positions (mkDF cols rs) = Ok (mkDF cols rs).
Proof.
  intros Hc Hp Hall. unfold condense_positions. cbn [columns rows].
  rewrite Hc, Hp. simpl negb. cbv iota. f_equal. f_equal.
  assert (E1 : map (fun r => <["Cap Hit" := replace_empty (at_col "Cap Hit" r)]> r) rs = rs).
  { rewrite <- (List.map_id rs) at 2. apply List.map_ext_in. intros r Hr.
    destruct (Hall r Hr) as [(c & HC & Hnan & Hemp) _].
    apply insert_id. unfold at_col. rewrite HC. simpl.
    destruct c as [q|[|a t]|]; try reflexivity. contradiction. }
  assert (E2 : List.filter (fun r => negb (is_nan (at_col "Cap Hit" r))) rs = rs).
  { apply List.forallb_filter_id, List.forallb_forall. intros r Hr.
    destruct (Hall r Hr) as [(c & HC & Hnan & _) _].
    unfold at_col. rewrite HC. destruct c; try reflexivity. contradiction. }
  assert (E3 : List.filter (fun r => negb (is_str "LS" (at_col "Pos" r))) rs = rs).
  { apply List.forallb_filter_id, List.forallb_forall. intros r Hr.
    destruct (Hall r Hr) as (_ & Hls & _).
    destruct (at_col "Pos" r) as [q|p|]; try reflexivity. simpl.
    destruct (String.eqb_spec p "LS") as [-> | _]; [contradiction | reflexivity]. }
  rewrite E1, E2, E3.
  unfold rename_all. rewrite rename_all_map.
  rewrite <- (List.map_id rs) at 2. apply List.map_ext_in. intros r Hr.
  destruct (Hall r Hr) as (_ & _ & Hn). apply rename_fold_other, Hn.
Qed.

(** X8. [condense_positions] is idempotent: applied to its own result, as
    [analyze_team] does to rows the start-up code already condensed, it
    returns that result. *)
Theorem condense_positions_idempotent (df df' : DataFrame) :
  condense_positions df = Ok df' -> condense_positions df' = Ok df'.
Proof.
  intros H. pose proof (condense_positions_columns df df' H) as Ec.
  pose proof (fun r => condensed_rows df df' r H) as Hall.
  assert (Hc : has_col "Cap Hit" (columns df') = true /\ has_col "Pos" (columns df') = true).
  { rewrite Ec. unfold condense_positions in H.
    destruct (has_col "Cap Hit" (columns df)); [| discriminate].
    destruct (has_col "Pos" (columns df)); [| discriminate]. auto. }
  destruct df' as [cols rs]. apply condensed_fixed; tauto.
Qed.

Lemma condense_positions_idempotent_witness :
  condense_positions df_raw = Ok (mkDF ["Player"; "Pos"; "Cap Hit"] [<["Pos" := Str "LB"]> row_olb])
  /\ condense_positions (mkDF ["Player"; "Pos"; "Cap Hit"] [<["Pos" := Str "LB"]> row_olb])
     = Ok (mkDF ["Player"; "Pos"; "Cap Hit"] [<["Pos" := Str "LB"]> row_olb]).
Proof.
  assert (E : condense_positions df_raw
              = Ok (mkDF ["Player"; "Pos"; "Cap Hit"] [<["Pos" := Str "LB"]> row_olb]))
    by (vm_compute; reflexivity).
  split; [exact E | exact (condense_positions_idempotent _ _ E)].
Defined.

Lemma condense_positions_cases (df : DataFrame) :
  (In "Cap Hit" (columns df) /\ In "Pos" (columns df) ->
   exists df', condense_positions df = Ok df'
               /\ columns df' = columns df
               /\ (length (rows df') <= length (rows df))%nat)
  /\ (~ (In "Cap Hit" (columns df) /\ In "Pos" (columns df)) ->
      condense_positions df = Raise KeyError).
Proof.
  split.
  - intros [Hc Hp]. apply has_col_In in Hc, Hp.
    destruct (condense_positions df) as [df'|e] eqn:E.
    2:{ unfold condense_positions in E. rewrite Hc, Hp in E. discriminate. }
    exists df'. split; [reflexivity |]. split; [apply (condense_positions_columns df df' E) |].
    rewrite (condense_positions_rows df df' E), List.length_map.
    etransitivity; [apply List.filter_length_le |].
    etransitivity; [apply List.filter_length_le |]. rewrite List.length_map. lia.
  - intros H. unfold condense_positions.
    destruct (has_col "Cap Hit" (columns df)) eqn:Hc; [| reflexivity].
    destruct (has_col "Pos" (columns df)) eqn:Hp; [| reflexivity].
    exfalso. apply H. split; apply has_col_In; assumption.
Qed.

(** X9. [condense_positions] raises exactly when the frame lacks the
    ['Cap Hit'] or the ['Pos'] column, and then a [KeyError]; otherwise it
    returns a frame with the same columns and no more rows. *)
Theorem condense_positions_errors (df : DataFrame) :
  (In "Cap Hit" (columns df) /\ In "Pos" (columns df) ->
   exists df', condense_positions df = Ok df'
               /\ columns df' = columns df
               /\ (length (rows df') <= length (rows df))%nat)
  /\ (~ (In "Cap Hit" (columns df) /\ In "Pos" (columns df)) ->
      condense_positions df = Raise KeyError).
Proof.
  split.
  - intros [Hc Hp]. apply has_col_In in Hc, Hp.
    destruct (condense_positions df) as [df'|e] eqn:E.
    2:{ unfold condense_positions in E. rewrite Hc, Hp in E. discriminate. }
    exists df'. split; [reflexivity |]. split; [apply (condense_positions_columns df df' E) |].
    rewrite (condense_positions_rows df df' E), List.length_map.
    etransitivity; [apply List.filter_length_le |].
    etransitivity; [apply List.filter_length_le |]. rewrite List.length_map. lia.
  - intros H. unfold condense_positions.
    destruct (has_col "Cap Hit" (columns df)) eqn:Hc; [| reflexivity].
    destruct (has_col "Pos" (columns df)) eqn:Hp; [| reflexivity].
    exfalso. apply H. split; apply has_col_In; assumption.
Qed.

Lemma condense_positions_errors_witness :
  (exists df', condense_positions df_raw = Ok df'
               /\ columns df' = columns df_raw
               /\ (length (rows df') <= length (rows df_raw))%nat)
  /\ condense_positions (mkDF ["Player"; "Pos"] []) = Raise KeyError.
Proof.
  split.
  - apply (condense_positions_errors df_raw). simpl. tauto.
  - apply (condense_positions_errors (mkDF ["Player"; "Pos"] [])). simpl.
    intros [[H | [H | []]] _]; discriminate H.
Defined.

End PositionsMore.

(** ** More on rounding and salaries *)

Section SalariesMore.

Local Open Scope Q_scope.

Lemma Qfloor_bounds (x : Q) : inject_Z (Qfloor x) <= x /\ x < inject_Z (Qfloor x) + 1.
Proof.
  split; [apply Qfloor_le |].
  pose proof (Qlt_floor x) as H. rewrite inject_Z_plus in H. exact H.
Qed.

(** [round] is monotone. *)
Lemma py_round_mono (x y : Q) : x <= y -> (py_round x <= py_round y)%Z.
Proof.
  intros Hxy. pose proof (Qfloor_resp_le x y Hxy) as Hf.
  destruct (Qfloor_bounds x) as [Hxl Hxu]. destruct (Qfloor_bounds y) as [Hyl Hyu].
  unfold py_round. cbv zeta.
  set (fx := Qfloor x) in *. set (fy := Qfloor y) in *.
  assert (Hx : (match Qcompare (x - inject_Z fx) (1 # 2) with
                | Lt => fx | Gt => fx + 1
                | Eq => if Z.even fx then fx else fx + 1 end <= fx + 1)%Z)
    by (destruct (Qcompare (x - inject_Z fx) (1 # 2)); [destruct (Z.even fx) | |]; lia).
  assert (Hy : (fy <= match Qcompare (y - inject_Z fy) (1 # 2) with
                      | Lt => fy | Gt => fy + 1
                      | Eq => if Z.even fy then fy else fy + 1 end)%Z)
    by (destruct (Qcompare (y - inject_Z fy) (1 # 2)); [destruct (Z.even fy) | |]; lia).
  destruct (Z.eq_dec fx fy) as [E | N]; [| lia].
  clear Hx Hy. rewrite <- E in *. clear E Hf.
  destruct (Qcompare_spec (x - inject_Z fx) (1 # 2)) as [Ex | Lx | Gx];
    destruct (Qcompare_spec (y - inject_Z fx) (1 # 2)) as [Ey | Ly | Gy];
    try lia; try (exfalso; lra); destruct (Z.even fx); lia.
Qed.

Lemma py_round1_mono (x y : Q) : x <= y -> py_round1 x <= py_round1 y.
Proof.
  intros H. unfold py_round1.
  assert (M : (py_round (x * 10) <= py_round (y * 10))%Z) by (apply py_round_mono; lra).
  rewrite Zle_Qle in M. unfold Qdiv. apply Qmult_le_compat_r; [exact M | discriminate].
Qed.

(** The dollars [to_millions] reads from a string. *)
Lemma to_millions_Str (s : string) (v : Q) :
  to_millions (Str s) = Ok v ->
  v = py_round1 (inject_Z (Z.of_N (int_of_digits 0%N (keep_digits s))) / 1000000).
Proof.
  unfold to_millions, py_int. destruct (keep_digits s); [discriminate |].
  simpl. intros H. injection H as <-. reflexivity.
Qed.

(** Away from a tie, [round(x)] is the one integer within less than
    one half of [x]. *)
Lemma py_round_strict (x : Q) :
  ~ x - inject_Z (Qfloor x) == 1 # 2 ->
  x - (1 # 2) < inject_Z (py_round x) /\ inject_Z (py_round x) < x + (1 # 2).
Proof.
  intros Hne. unfold py_round. cbv zeta. destruct (Qfloor_bounds x) as [Hl Hu].
  set (f := Qfloor x) in *.
  destruct (Qcompare_spec (x - inject_Z f) (1 # 2)) as [E | L | G].
  - contradiction.
  - lra.
  - rewrite inject_Z_plus. change (inject_Z 1) with 1. lra.
Qed.

(** A number of dollars that is not 50,000 more than a multiple of
    100,000 is not halfway between two tenths of a million. *)
Lemma dollars_off_tie (n : N) :
  (n mod 100000 <> 50000)%N ->
  let y := inject_Z (Z.of_N n) / 1000000 * 10 in
  ~ y - inject_Z (Qfloor y) == 1 # 2.
Proof.
  intros Hn y H. set (f := Qfloor y) in H.
  assert (Ey : y == inject_Z (Z.of_N n) * (1 # 100000)) by (unfold y; field).
  rewrite Ey in H.
  assert (Ez : inject_Z (Z.of_N n) == inject_Z (100000 * f + 50000)).
  { rewrite inject_Z_plus, inject_Z_mult.
    change (inject_Z 100000) with 100000. change (inject_Z 50000) with 50000. lra. }
  unfold Qeq in Ez. cbn [inject_Z Qnum Qden] in Ez. rewrite !Z.mul_1_r in Ez.
  apply Hn. apply N2Z.inj. rewrite N2Z.inj_mod. change (Z.of_N 100000) with 100000%Z.
  change (Z.of_N 50000) with 50000%Z. symmetry.
  apply (Z.mod_unique _ _ f); [left; lia | exact Ez].
Qed.

(** X10. For a salary below 10^15 dollars that is not halfway between
    two tenths of a million (not 50,000 more than a multiple of 100,000,
    where the tenth that [round] picks depends on the binary form of
    the quotient), the millions [to_millions] stores for a string are the
    tenth nearest to the dollars spelled by the digits of the string,
    divided by a million: less than 0.05 away, with one decimal place and
    not negative. *)
Theorem to_millions_accuracy (s : string) (v : Q) :
  to_millions (Str s) = Ok v ->
  let n := int_of_digits 0%N (keep_digits s) in
  (n < 1000000000000000)%N -> (n mod 100000 <> 50000)%N ->
  inject_Z (Z.of_N n) / 1000000 - (1 # 20) < v
  /\ v < inject_Z (Z.of_N n) / 1000000 + (1 # 20)
  /\ py_round1 v == v /\ 0 <= v.
Proof.
  intros H n _ Hn. pose proof (to_millions_tenth _ _ H) as [Ht Hnn].
  pose proof (to_millions_Str s v H) as Ev. fold n in Ev.
  destruct (py_round_strict _ (dollars_off_tie n Hn)) as [Hl Hu].
  assert (E : v == inject_Z (py_round (inject_Z (Z.of_N n) / 1000000 * 10)) * (1 # 10))
    by (rewrite Ev; unfold py_round1, Qdiv; reflexivity).
  split; [rewrite E; lra |]. split; [rewrite E; lra |].
  split; [apply py_round1_tenth, Ht | exact Hnn].
Qed.

Lemma to_millions_accuracy_witness :
  to_millions (Str "$1,040,000") = Ok (Cap_Hit pC)
  /\ (int_of_digits 0%N (keep_digits "$1,040,000") < 1000000000000000)%N
  /\ (int_of_digits 0%N (keep_digits "$1,040,000") mod 100000 <> 50000)%N
  /\ inject_Z (Z.of_N (int_of_digits 0%N (keep_digits "$1,040,000"))) / 1000000 - (1 # 20)
     < Cap_Hit pC
  /\ Cap_Hit pC
     < inject_Z (Z.of_N (int_of_digits 0%N (keep_digits "$1,040,000"))) / 1000000 + (1 # 20)
  /\ py_round1 (Cap_Hit pC) == Cap_Hit pC /\ 0 <= Cap_Hit pC.
Proof.
  split; [reflexivity |]. split; [reflexivity |]. split; [vm_compute; discriminate |].
  apply (to_millions_accuracy "$1,040,000"); [reflexivity | reflexivity |].
  vm_compute. discriminate.
Defined.

(** X11. Among salaries below 10^15 dollars that are not halfway between
    two tenths of a million, [to_millions] keeps the order: more dollars
    never give fewer millions. *)
Theorem to_millions_monotone (s1 s2 : string) (v1 v2 : Q) :
  to_millions (Str s1) = Ok v1 -> to_millions (Str s2) = Ok v2 ->
  let n1 := int_of_digits 0%N (keep_digits s1) in
  let n2 := int_of_digits 0%N (keep_digits s2) in
  (n1 < 1000000000000000)%N -> (n1 mod 100000 <> 50000)%N ->
  (n2 < 1000000000000000)%N -> (n2 mod 100000 <> 50000)%N ->
  (n1 <= n2)%N ->
  v1 <= v2.
Proof.
  intros H1 H2 n1 n2 _ _ _ _ Hle.
  rewrite (to_millions_Str _ _ H1), (to_millions_Str _ _ H2). fold n1 n2.
  apply py_round1_mono. unfold Qdiv. apply Qmult_le_compat_r; [| discriminate].
  rewrite <- Zle_Qle. lia.
Qed.

Lemma to_millions_monotone_witness :
  to_millions (Str "$1,040,000") = Ok (Cap_Hit pC)
  /\ to_millions (Str "$20,000,000") = Ok (cap_of "$20,000,000")
  /\ Cap_Hit pC <= cap_of "$20,000,000".
Proof.
  split; [reflexivity |]. split; [reflexivity |].
  apply (to_millions_monotone "$1,040,000" "$20,000,000");
    [reflexivity | reflexivity | reflexivity | vm_compute; discriminate
    | reflexivity | vm_compute; discriminate | vm_compute; discriminate].
Defined.

Lemma keep_digits_idempotent (s : string) : keep_digits (keep_digits s) = keep_digits s.
Proof.
  induction s as [|a s IH]; [reflexivity |]. simpl.
  destruct (is_digit a) eqn:E; [| exact IH]. simpl. rewrite E, IH. reflexivity.
Qed.

(** X12. [to_millions] reads nothing but the digits of the string: it
    gives what it gives for the digits alone, raises [ValueError] exactly
    when the string has no digit, and turns a cell that is not a string
    into 0. *)
Theorem to_millions_digits (s : string) :
  to_millions (Str s) = to_millions (Str (keep_digits s))
  /\ (keep_digits s = "" <-> to_millions (Str s) = Raise ValueError)
  /\ (forall q, exists v, to_millions (Num q) = Ok v /\ v == 0)
  /\ (exists v, to_millions NaN = Ok v /\ v == 0).
Proof.
  split; [unfold to_millions; rewrite keep_digits_idempotent; reflexivity |].
  split; [| split; [intros q |]; eexists; (split; [reflexivity | vm_compute; reflexivity])].
  unfold to_millions, py_int. destruct (keep_digits s); simpl; split; intros H;
    try reflexivity; discriminate.
Qed.

End SalariesMore.

(** ** The cap hit written and read back *)

Section CapHitRoundTrip.

Lemma digit_char (d : N) :
  (d < 10)%N ->
  is_digit (ascii_of_N (48 + d)) = true
  /\ (N_of_ascii (ascii_of_N (48 + d)) - 48)%N = d.
Proof.
  intros H. assert (E : N_of_ascii (ascii_of_N (48 + d)) = (48 + d)%N).
  { apply N_ascii_embedding. lia. }
  unfold is_digit. rewrite E. split; [| lia].
  apply andb_true_intro. split; apply N.leb_le; lia.
Qed.

Lemma digits_fuel_digits (f : nat) (n : N) (acc : string) :
  all_digits acc = true -> all_digits (digits_fuel f n acc) = true.
Proof.
  revert n acc. induction f as [|f IH]; intros n acc H; [exact H |]. simpl.
  assert (Hd : all_digits (String (ascii_of_N (48 + n mod 10)) acc) = true).
  { simpl. rewrite H. rewrite (proj1 (digit_char (n mod 10) (N.mod_lt n 10 ltac:(lia)))).
    reflexivity. }
  destruct (n / 10 =? 0)%N; [exact Hd | apply IH, Hd].
Qed.

Lemma digits_fuel_value (f : nat) (n : N) (acc : string) :
  (n < 10 ^ N.of_nat f)%N ->
  int_of_digits 0%N (digits_fuel f n acc) = int_of_digits n acc.
Proof.
  revert n acc. induction f as [|f IH]; intros n acc H.
  - simpl in *. assert (n = 0%N) by lia. subst. reflexivity.
  - cbn [digits_fuel]. cbv zeta.
    pose proof (digit_char (n mod 10) (N.mod_lt n 10 ltac:(lia))) as [_ Hv].
    pose proof (N.div_mod n 10 ltac:(lia)) as Hdm.
    destruct (N.eqb_spec (n / 10) 0%N) as [E | N].
    + cbn [int_of_digits]. rewrite Hv. f_equal. lia.
    + rewrite IH.
      * cbn [int_of_digits]. rewrite Hv. f_equal. lia.
      * apply N.Div0.div_lt_upper_bound.
        rewrite Nat2N.inj_succ, N.pow_succ_r' in H. exact H.
Qed.

Lemma digits_fuel_nonempty (f : nat) (n : N) (acc : string) :
  digits_fuel (S f) n acc <> EmptyString.
Proof.
  revert n acc. induction f as [|f IH]; intros n acc.
  - simpl. destruct (n / 10 =? 0)%N; discriminate.
  - cbn [digits_fuel]. cbv zeta. destruct (n / 10 =? 0)%N; [discriminate | apply IH].
Qed.

Lemma py_str_int_digits (n : N) :
  all_digits (py_str_int n) = true
  /\ py_str_int n <> EmptyString
  /\ int_of_digits 0%N (py_str_int n) = n.
Proof.
  unfold py_str_int. split; [apply digits_fuel_digits; reflexivity |].
  split; [apply digits_fuel_nonempty |].
  rewrite digits_fuel_value; [reflexivity |].
  rewrite Nat2N.inj_succ, N2Nat.id.
  destruct (N.eq_dec n 0%N) as [-> | Hn]; [reflexivity |].
  apply (N.lt_le_trans _ (2 ^ N.succ (N.log2 n))).
  - apply N.log2_spec. lia.
  - apply N.pow_le_mono_l. lia.
Qed.

Lemma py_str_int_small (d : N) :
  (d < 10)%N -> py_str_int d = String (ascii_of_N (48 + d)) EmptyString.
Proof.
  intros H. unfold py_str_int. cbn [digits_fuel]. cbv zeta.
  rewrite (N.mod_small d 10 H), (N.div_small d 10 H). reflexivity.
Qed.

Lemma remove_char_app (a : ascii) (s t : string) :
  remove_char a (s +:+ t) = remove_char a s +:+ remove_char a t.
Proof.
  induction s as [|b s IH]; [reflexivity |]. simpl.
  destruct (Ascii.eqb b a); [exact IH | simpl; rewrite IH; reflexivity].
Qed.

Lemma remove_char_digits (a : ascii) (s : string) :
  is_digit a = false -> all_digits s = true -> remove_char a s = s.
Proof.
  intros Ha. induction s as [|b s IH]; intros H; [reflexivity |]. simpl in *.
  apply andb_prop in H as [Hb Hs].
  destruct (Ascii.eqb_spec b a) as [-> | _]; [congruence |]. rewrite (IH Hs). reflexivity.
Qed.

Lemma split_dot_digits (s t : string) :
  all_digits s = true -> split_dot (s +:+ String "." t) = (s, Some t).
Proof.
  induction s as [|b s IH]; intros H; [reflexivity |]. simpl in *.
  apply andb_prop in H as [Hb Hs].
  destruct (Ascii.eqb_spec b ".") as [-> | _]; [discriminate |]. rewrite (IH Hs). reflexivity.
Qed.

Lemma int_of_digits_app (a : N) (s t : string) :
  int_of_digits a (s +:+ t) = int_of_digits (int_of_digits a s) t.
Proof. revert a. induction s as [|b s IH]; intros a; [reflexivity | simpl; apply IH]. Qed.

Lemma all_digits_app (s t : string) :
  all_digits (s +:+ t) = all_digits s && all_digits t.
Proof.
  induction s as [|b s IH]; [reflexivity |]. simpl. rewrite IH. apply andb_assoc.
Qed.

Lemma py_float_digit_first (a : ascii) (s : string) :
  is_digit a = true ->
  py_float (String a s)
  = bind (py_float_unsigned (String a s)) (fun q => Ok (Num q)).
Proof.
  intros H. destruct a as [[] [] [] [] [] [] [] []]; try discriminate H; reflexivity.
Qed.

Lemma read_written (t : N) :
  exists q,
    py_float (py_str_int (t / 10) +:+ String "." (py_str_int (t mod 10))) = Ok (Num q)
    /\ (q == inject_Z (Z.of_N t) / 10)%Q.
Proof.
  destruct (py_str_int_digits (t / 10)) as (Hd1 & Hn1 & Hv1).
  assert (Hlt : (t mod 10 < 10)%N) by (apply N.mod_lt; lia).
  destruct (digit_char _ Hlt) as [Hd2 Hv2].
  rewrite (py_str_int_small _ Hlt).
  set (D1 := py_str_int (t / 10)) in *. set (dch := ascii_of_N (48 + t mod 10)) in *.
  destruct D1 as [|a s] eqn:E1; [contradiction |].
  assert (Ha : is_digit a = true) by (simpl in Hd1; apply andb_prop in Hd1; tauto).
  change (String a s +:+ String "." (String dch "")) with
    (String a (s +:+ String "." (String dch ""))).
  rewrite (py_float_digit_first a _ Ha).
  change (String a (s +:+ String "." (String dch ""))) with
    (String a s +:+ String "." (String dch "")).
  unfold py_float_unsigned. rewrite (split_dot_digits _ _ Hd1).
  cbn [default from_option]. unfold Datatypes.id.
  rewrite Hd1. cbn [all_digits]. rewrite Hd2. cbn [andb negb String.eqb bind].
  change (String a s ++ String dch "")%string with (String a s +:+ String dch "").
  rewrite int_of_digits_app, Hv1. cbn [int_of_digits String.length]. rewrite Hv2.
  eexists. split; [reflexivity |].
  replace (t / 10 * 10 + t mod 10)%N with t by (pose proof (N.div_mod t 10); lia).
  reflexivity.
Qed.

(** X13. The string [to_millions] stores in a ['Cap Hit'] cell is read by
    [add_players] as the number that was written: stripping ['$'] and
    ['m'] and parsing the rest as a float gives the rounded millions
    back. *)
Theorem cap_hit_round_trip (c : cell) (v : Q) :
  to_millions c = Ok v ->
  exists q, read_cap_hit (cap_hit_string v) = Ok (Num q) /\ (q == v)%Q.
Proof.
  intros H. destruct (to_millions_tenth c v H) as [[z Hz] Hn].
  assert (Ez : Qfloor (v * 10) = z).
  { rewrite <- (Qfloor_Z z). apply Qfloor_comp. rewrite Hz. field. }
  assert (Hz0 : 0 <= z).
  { rewrite <- Ez. change 0 with (Qfloor 0). apply Qfloor_resp_le.
    apply Qmult_le_0_compat; [exact Hn | discriminate]. }
  unfold read_cap_hit, cap_hit_string. rewrite Ez. cbv zeta.
  set (t := Z.to_N z).
  destruct (py_str_int_digits (t / 10)) as (Hd1 & _ & _).
  assert (Hlt : (t mod 10 < 10)%N) by (apply N.mod_lt; lia).
  destruct (digit_char _ Hlt) as [Hd2 _].
  destruct (read_written t) as (q & Hq & Eq).
  exists q. split.
  - rewrite <- Hq. f_equal. rewrite (py_str_int_small _ Hlt).
    assert (E1 : forall a, is_digit a = false ->
                 Ascii.eqb (ascii_of_N (48 + t mod 10)) a = false).
    { intros a Ha. destruct (Ascii.eqb_spec (ascii_of_N (48 + t mod 10)) a) as [E | _];
        [congruence | reflexivity]. }
    cbn [remove_char Ascii.eqb Bool.eqb andb String.append].
    rewrite !remove_char_app, (remove_char_digits "$" _ eq_refl Hd1).
    cbn [remove_char Ascii.eqb Bool.eqb andb String.append].
    rewrite (remove_char_digits "m" _ eq_refl Hd1).
    change (String (ascii_of_N (48 + t mod 10)) "" +:+ "m")
      with (String (ascii_of_N (48 + t mod 10)) "m").
    cbn [remove_char]. rewrite (E1 "$"%char eq_refl).
    cbn [remove_char Ascii.eqb Bool.eqb andb]. rewrite (E1 "m"%char eq_refl). reflexivity.
  - rewrite Eq, Hz. unfold t. rewrite Z2N.id by exact Hz0. reflexivity.
Qed.

Lemma cap_hit_round_trip_witness :
  to_millions (Str "$1,040,000") = Ok (Cap_Hit pC)
  /\ cap_hit_string (Cap_Hit pC) = "$1.0m"
  /\ exists q, read_cap_hit (cap_hit_string (Cap_Hit pC)) = Ok (Num q) /\ (q == Cap_Hit pC)%Q.
Proof.
  split; [reflexivity |]. split; [vm_compute; reflexivity |].
  apply (cap_hit_round_trip (Str "$1,040,000")). reflexivity.
Defined.

End CapHitRoundTrip.

(** ** More on the roster ledger *)

Section LedgerMore.

Local Open Scope Q_scope.

Variable pool : gmap Z player.
Hypothesis pool_good : pool_ok pool.

(** X14. A click on the ['Status'] cell of a pool player who is not on
    the team and whose salary is less than the remaining budget appends
    that player to the team, with status ['REMOVE'], and lowers the
    display by the salary. (The salary is strictly less: amounts are
    tenths, so at least a tenth of a million is left and the test of the
    code, [SALARY - salaries - player_sal < 0], fails by a margin. A
    salary that uses the budget up to the last tenth is not covered
    here.) *)
Theorem add_appends (evs : list event) (e : event) (c : active_cell) (p : player) :
  let s := run (start pool) evs in
  selected e = Some c -> column_id c = "Status" ->
  pool !! row_id c = Some p ->
  ~ In (row_id c) (map label (trows (team_df (glob s)))) ->
  0 < display s - Cap_Hit p ->
  trows (team_df (glob (handle s e)))
  = trows (team_df (glob s)) ++ [mkTR (row_id c) p REMOVE]
  /\ display (handle s e) == display s - Cap_Hit p.
Proof.
  intros s Hsel Hcol Hi Hout Hgt.
  apply (handle_accept pool s e c p pool_good (run_inv pool evs pool_good)
           Hsel Hcol Hi Hout (Qlt_le_weak _ _ Hgt)).
Qed.

(** X15. A click on the ['Status'] cell of a member, in either table,
    raises the display by that member's salary. *)
Theorem remove_credits (evs : list event) (e : event) (c : active_cell) (r : team_row) :
  let s := run (start pool) evs in
  selected e = Some c -> column_id c = "Status" ->
  In r (trows (team_df (glob s))) -> row_id c = label r ->
  display (handle s e) == display s + Cap_Hit (entry r)
  /\ pool !! label r = Some (entry r).
Proof.
  intros s Hsel Hcol Hr El.
  pose proof (run_inv pool evs pool_good) as Hinv. fold s in Hinv.
  destruct (handle_remove pool s e c r pool_good Hinv Hsel Hcol Hr El) as [_ Hd].
  split; [exact Hd | apply (inv_rows _ _ Hinv r Hr)].
Qed.

(** X16. A click that is not on a ['Status'] cell, or on a row id the
    pool does not have, or no cell at all, changes nothing. *)
Theorem click_elsewhere (evs : list event) (e : event) :
  let s := run (start pool) evs in
  (selected e = None
   \/ (exists c, selected e = Some c
                 /\ (column_id c <> "Status" \/ pool !! row_id c = None))) ->
  handle s e = s.
Proof.
  intros s H. pose proof (run_inv pool evs pool_good) as Hinv. fold s in Hinv.
  unfold handle. rewrite add_players_selected. unfold add_players.
  destruct H as [-> | (c & -> & [Hc | Hn])]; [reflexivity | |].
  - destruct (String.eqb_spec (column_id c) "Status"); [contradiction | reflexivity].
  - destruct (String.eqb (column_id c) "Status"); [| reflexivity].
    assert (E : pstatus (player_df (glob s)) !! row_id c = None).
    { destruct (pstatus (player_df (glob s)) !! row_id c) eqn:E; [| reflexivity].
      destruct (proj1 (inv_dom _ _ Hinv (row_id c)) (ex_intro _ _ E)) as [x Hx]. congruence. }
    rewrite E. reflexivity.
Qed.

(** X17. After every run the ['Status'] column of the player table
    mirrors the team: ['REMOVE'] for the players on the team, ['ADD'] for
    every other player of the pool, and the other columns of the player
    table are those of start-up. *)
Theorem status_mirrors_team (evs : list event) (i : Z) :
  let s := run (start pool) evs in
  pdata (player_df (glob s)) = pool
  /\ pstatus (player_df (glob s)) !! i
     = match pool !! i with
       | Some _ => Some (if List.in_dec Z.eq_dec i (map label (trows (team_df (glob s))))
                         then REMOVE else ADD)
       | None => None
       end.
Proof.
  intros s. pose proof (run_inv pool evs pool_good) as Hinv. fold s in Hinv.
  split; [apply (inv_pool _ _ Hinv) |].
  destruct (pool !! i) as [p|] eqn:E; [apply (status_of pool s i p Hinv E) |].
  destruct (pstatus (player_df (glob s)) !! i) eqn:Es; [| reflexivity].
  destruct (proj1 (inv_dom _ _ Hinv i) (ex_intro _ _ Es)) as [x Hx]. congruence.
Qed.

Lemma filter_out_fresh (rs : list team_row) (i : Z) :
  ~ In i (map label rs) ->
  List.filter (fun x => negb (Z.eqb (label x) i)) rs = rs.
Proof.
  intros H. apply List.forallb_filter_id, List.forallb_forall. intros x Hx.
  destruct (Z.eqb_spec (label x) i) as [E | _]; [| reflexivity].
  exfalso. apply H. rewrite <- E. apply List.in_map, Hx.
Qed.

(** X18. Adding a player and then clicking that player again gives the
    team and the display of before. *)
Theorem add_then_remove (evs : list event) (e : event) (c : active_cell) (p : player) :
  let s := run (start pool) evs in
  selected e = Some c -> column_id c = "Status" ->
  pool !! row_id c = Some p ->
  ~ In (row_id c) (map label (trows (team_df (glob s)))) ->
  0 <= display s - Cap_Hit p ->
  trows (team_df (glob (handle (handle s e) e))) = trows (team_df (glob s))
  /\ display (handle (handle s e) e) == display s.
Proof.
  intros s Hsel Hcol Hi Hout Hge.
  pose proof (run_inv pool evs pool_good) as Hinv. fold s in Hinv.
  destruct (handle_accept pool s e c p pool_good Hinv Hsel Hcol Hi Hout Hge) as [Et Ed].
  pose proof (handle_inv pool s e pool_good Hinv) as Hinv1.
  assert (Hr : In (mkTR (row_id c) p REMOVE) (trows (team_df (glob (handle s e))))).
  { rewrite Et. apply List.in_app_iff. right. left. reflexivity. }
  destruct (handle_remove pool (handle s e) e c _ pool_good Hinv1 Hsel Hcol Hr eq_refl)
    as [Et2 Ed2].
  split.
  - rewrite Et2, Et. cbn [label]. rewrite List.filter_app. cbn [List.filter label].
    rewrite Z.eqb_refl. cbn [negb]. rewrite List.app_nil_r. apply filter_out_fresh, Hout.
  - rewrite Ed2, Ed. cbn [entry]. ring.
Qed.

Lemma filter_move_last (rs : list team_row) (r : team_row) :
  List.NoDup (map label rs) -> In r rs ->
  Permutation (List.filter (fun x => negb (Z.eqb (label x) (label r))) rs ++ [r]) rs.
Proof.
  induction rs as [|a rs IH]; intros Hnd Hin; [destruct Hin |].
  simpl in Hnd. apply List.NoDup_cons_iff in Hnd as [Ha Hnd]. simpl.
  destruct Hin as [-> | Hin].
  - rewrite Z.eqb_refl. simpl. rewrite filter_out_fresh by exact Ha.
    symmetry. apply Permutation_cons_append.
  - destruct (Z.eqb_spec (label a) (label r)) as [E | _].
    + exfalso. apply Ha. rewrite E. apply List.in_map, Hin.
    + simpl. constructor. apply IH; assumption.
Qed.

(** X19. While some budget is left, removing a member and then clicking
    that player again gives the same members, the re-added one last, and
    the display of before. (With a display above 0 at least a tenth of a
    million is left once the player is back, so the test of the code,
    [SALARY - salaries - player_sal < 0], fails by a margin; a team that
    has used the budget up to the last tenth is not covered here.) *)
Theorem remove_then_add (evs : list event) (e : event) (c : active_cell) (r : team_row) :
  let s := run (start pool) evs in
  selected e = Some c -> column_id c = "Status" ->
  In r (trows (team_df (glob s))) -> row_id c = label r ->
  0 < display s ->
  trows (team_df (glob (handle (handle s e) e)))
  = List.filter (fun x => negb (Z.eqb (label x) (label r))) (trows (team_df (glob s))) ++ [r]
  /\ Permutation (trows (team_df (glob (handle (handle s e) e)))) (trows (team_df (glob s)))
  /\ display (handle (handle s e) e) == display s.
Proof.
  intros s Hsel Hcol Hr El Hpos.
  pose proof (run_inv pool evs pool_good) as Hinv. fold s in Hinv.
  destruct (handle_remove pool s e c r pool_good Hinv Hsel Hcol Hr El) as [Et Ed].
  pose proof (handle_inv pool s e pool_good Hinv) as Hinv1.
  destruct (inv_rows _ _ Hinv r Hr) as [Hl Hst].
  assert (Hout : ~ In (row_id c) (map label (trows (team_df (glob (handle s e)))))).
  { rewrite Et, El. intros H. apply List.in_map_iff in H as (x & Ex & Hx).
    apply List.filter_In in Hx as [_ Hx]. rewrite Ex, Z.eqb_refl in Hx. discriminate. }
  assert (Hge : 0 <= display (handle s e) - Cap_Hit (entry r)).
  { rewrite Ed. pose proof (inv_nonneg _ _ Hinv). lra. }
  rewrite <- El in Hl.
  destruct (handle_accept pool (handle s e) e c (entry r) pool_good Hinv1 Hsel Hcol Hl Hout Hge)
    as [Et2 Ed2].
  assert (Er : mkTR (row_id c) (entry r) REMOVE = r).
  { destruct r as [l en st]. simpl in *. subst. reflexivity. }
  rewrite Er in Et2. split; [rewrite Et2, Et; reflexivity |]. split.
  - rewrite Et2, Et. apply filter_move_last; [apply (inv_nodup _ _ Hinv) | exact Hr].
  - rewrite Ed2, Ed. ring.
Qed.

End LedgerMore.

Section LedgerMoreWitnesses.

Local Open Scope Q_scope.

Lemma add_appends_witness :
  pool_ok pool_AB
  /\ (0 < display (start pool_AB) - Cap_Hit pA)
  /\ trows (team_df (glob (handle (start pool_AB) (click 0)))) = [mkTR 0 pA REMOVE]
  /\ display (handle (start pool_AB) (click 0)) == display (start pool_AB) - Cap_Hit pA.
Proof.
  split; [exact pool_AB_ok |]. split; [vm_compute; reflexivity |].
  apply (add_appends pool_AB pool_AB_ok [] (click 0) (mkCell 0 "Status") pA).
  - reflexivity.
  - reflexivity.
  - reflexivity.
  - intros [].
  - vm_compute. reflexivity.
Defined.

Lemma remove_credits_witness :
  pool_ok pool_AB
  /\ display (handle (run (start pool_AB) [click 0]) (click_team 0))
     == display (run (start pool_AB) [click 0]) + Cap_Hit pA
  /\ pool_AB !! 0%Z = Some pA.
Proof.
  split; [exact pool_AB_ok |].
  apply (remove_credits pool_AB pool_AB_ok [click 0] (click_team 0)
           (mkCell 0 "Status") (mkTR 0 pA REMOVE)).
  - reflexivity.
  - reflexivity.
  - left. reflexivity.
  - reflexivity.
Defined.

Lemma click_elsewhere_witness :
  pool_ok pool_AB
  /\ handle (run (start pool_AB) [click 0])
            (mkEv datatable_interactivity (Some (mkCell 1 "Player")) None)
     = run (start pool_AB) [click 0]
  /\ handle (run (start pool_AB) [click 0]) (click 7) = run (start pool_AB) [click 0].
Proof.
  split; [exact pool_AB_ok |]. split.
  - apply (click_elsewhere pool_AB pool_AB_ok [click 0]).
    right. exists (mkCell 1 "Player"). split; [reflexivity |]. left. discriminate.
  - apply (click_elsewhere pool_AB pool_AB_ok [click 0]).
    right. exists (mkCell 7 "Status"). split; [reflexivity |]. right. reflexivity.
Defined.

Lemma status_mirrors_team_witness :
  pool_ok pool_AB
  /\ pstatus (player_df (glob (run (start pool_AB) [click 0]))) !! 0%Z = Some REMOVE
  /\ pstatus (player_df (glob (run (start pool_AB) [click 0]))) !! 1%Z = Some ADD.
Proof.
  split; [exact pool_AB_ok |]. split.
  - destruct (status_mirrors_team pool_AB pool_AB_ok [click 0] 0%Z) as [_ E].
    rewrite E. reflexivity.
  - destruct (status_mirrors_team pool_AB pool_AB_ok [click 0] 1%Z) as [_ E].
    rewrite E. reflexivity.
Defined.

Lemma add_then_remove_witness :
  pool_ok pool_AB
  /\ trows (team_df (glob (handle (handle (start pool_AB) (click 0)) (click 0)))) = []
  /\ display (handle (handle (start pool_AB) (click 0)) (click 0)) == display (start pool_AB).
Proof.
  split; [exact pool_AB_ok |].
  apply (add_then_remove pool_AB pool_AB_ok [] (click 0) (mkCell 0 "Status") pA).
  - reflexivity.
  - reflexivity.
  - reflexivity.
  - intros [].
  - vm_compute. discriminate.
Defined.

Lemma remove_then_add_witness :
  pool_ok pool_AB
  /\ 0 < display (run (start pool_AB) [click 0])
  /\ Permutation
       (trows (team_df (glob (handle (handle (run (start pool_AB) [click 0]) (click 0))
                                     (click 0)))))
       (trows (team_df (glob (run (start pool_AB) [click 0]))))
  /\ display (handle (handle (run (start pool_AB) [click 0]) (click 0)) (click 0))
     == display (run (start pool_AB) [click 0]).
Proof.
  split; [exact pool_AB_ok |]. split; [vm_compute; reflexivity |].
  destruct (remove_then_add pool_AB pool_AB_ok [click 0] (click 0)
              (mkCell 0 "Status") (mkTR 0 pA REMOVE)) as (_ & Hp & Hd).
  - reflexivity.
  - reflexivity.
  - left. reflexivity.
  - reflexivity.
  - vm_compute. reflexivity.
  - split; [exact Hp | exact Hd].
Defined.

End LedgerMoreWitnesses.

(** ** More on the aggregated roster vector *)

Section AggregationMore.

Local Open Scope Q_scope.

Lemma numeric_values_no_Str (l : list cell) :
  (forall s, ~ In (Str s) l) -> exists vs, numeric_values l = Ok vs.
Proof.
  induction l as [|[q|s|] l IH]; intros H.
  - exists []. reflexivity.
  - destruct IH as [vs E]; [intros s Hs; apply (H s); right; exact Hs |].
    exists (q :: vs). simpl. rewrite E. reflexivity.
  - destruct (H s). left. reflexivity.
  - destruct IH as [vs E]; [intros s Hs; apply (H s); right; exact Hs |].
    exists vs. exact E.
Qed.

Lemma team_stat_no_Str (gm : DataFrame) (l : string) :
  (forall s, ~ In (Str s) (series gm l)) -> exists v, team_stat gm l = Ok v.
Proof.
  intros H. destruct (numeric_values_no_Str _ H) as [vs E].
  unfold team_stat, series_mean, series_sum. rewrite E.
  destruct (has_col l AVERAGED_STATS); [destruct vs |]; eexists; reflexivity.
Qed.

Lemma team_stat_loop_ok (gm : DataFrame) (ls : list string)
    (st : (list string * gmap string cell) * list string) :
  (forall l, In l ls -> In l (columns gm) -> exists v, team_stat gm l = Ok v) ->
  exists st', team_stat_loop gm ls st = Ok st'.
Proof.
  revert st. induction ls as [|a ls IH]; intros st H; [exists st; reflexivity |].
  simpl. rewrite team_stat_step_eq.
  destruct (has_col a (columns gm)) eqn:Ea.
  - destruct (H a (or_introl eq_refl) (proj1 (has_col_In _ _) Ea)) as [v Ev].
    rewrite Ev. simpl. apply IH. intros l Hl. apply H. right. exact Hl.
  - simpl. apply IH. intros l Hl. apply H. right. exact Hl.
Qed.

Lemma list_remove_ok (x : string) (l : list string) :
  In x l -> exists l', list_remove x l = Ok l'.
Proof.
  induction l as [|y l IH]; intros H; [destruct H |]. simpl.
  destruct (String.eqb_spec y x) as [-> | Hne]; [eexists; reflexivity |].
  destruct H as [? | H]; [contradiction |]. destruct (IH H) as [l' E].
  rewrite E. eexists. reflexivity.
Qed.

Lemma list_remove_absent (x : string) (l : list string) :
  ~ In x l -> list_remove x l = Raise ValueError.
Proof.
  induction l as [|y l IH]; intros H; [reflexivity |]. simpl.
  destruct (String.eqb_spec y x) as [-> | Hne]; [destruct H; left; reflexivity |].
  rewrite IH; [reflexivity |]. intros Hx. apply H. right. exact Hx.
Qed.


(** X21. The labels [get_team_stats] returns for dropping are the
    historical columns the roster frame lacks, the label ['W-L%'] apart;
    it returns at all only when ['W-L%'] is a historical column and not a
    roster column. *)
Theorem empty_cols_are_missing (td gm : DataFrame) (ec : list string) (v : DataFrame) :
  List.NoDup (columns td) ->
  get_team_stats td gm = Ok (ec, v) ->
  In "W-L%" (columns td) /\ ~ In "W-L%" (columns gm)
  /\ forall c, In c ec <-> In c (columns td) /\ ~ In c (columns gm) /\ c <> "W-L%".
Proof.
  intros Hnd H. apply get_team_stats_spec in H as (keys & m & Hrm & _ & _ & _).
  pose proof (list_remove_In _ _ _ Hrm) as Hw.
  apply List.filter_In in Hw as [Hw1 Hw2]. rewrite negb_true_iff, has_col_false in Hw2.
  split; [exact Hw1 |]. split; [exact Hw2 |]. intros c.
  rewrite (list_remove_spec _ _ _ Hrm (List.NoDup_filter _ Hnd) c), List.filter_In.
  rewrite negb_true_iff, has_col_false. tauto.
Qed.

(** X22. When no shared column holds a string, [get_team_stats] returns
    if ['W-L%'] is a historical column but not a roster column, and
    raises [ValueError] otherwise. *)
Theorem get_team_stats_label_column (td gm : DataFrame) :
  (forall l s, In l (columns td) -> In l (columns gm) -> ~ In (Str s) (series gm l)) ->
  (In "W-L%" (columns td) /\ ~ In "W-L%" (columns gm) ->
   exists ec v, get_team_stats td gm = Ok (ec, v))
  /\ (~ (In "W-L%" (columns td) /\ ~ In "W-L%" (columns gm)) ->
      get_team_stats td gm = Raise ValueError).
Proof.
  intros Hnum.
  destruct (team_stat_loop_ok gm (columns td) ([], ∅, [])) as [[stats ec0] E].
  { intros l Ht Hg. apply team_stat_no_Str. intros s. apply (Hnum l s Ht Hg). }
  pose proof (team_stat_loop_spec gm _ _ _ E) as (Hec & _). cbn [fst snd] in Hec.
  simpl in Hec. unfold get_team_stats. rewrite E. cbn [bind]. rewrite Hec.
  split.
  - intros [Ht Hg].
    destruct (list_remove_ok "W-L%"
                (List.filter (fun l => negb (has_col l (columns gm))) (columns td)))
      as [ec E']; [| rewrite E'; eexists; eexists; reflexivity].
    apply List.filter_In. split; [exact Ht |]. rewrite negb_true_iff, has_col_false. exact Hg.
  - intros Hn. rewrite list_remove_absent; [reflexivity |].
    rewrite List.filter_In, negb_true_iff, has_col_false. exact Hn.
Qed.

Lemma td_sample_NoDup : List.NoDup (columns td_sample).
Proof.
  simpl. repeat (constructor; [simpl; intros H;
    repeat (destruct H as [H | H]; [discriminate H |]); exact H |]). constructor.
Qed.


Lemma empty_cols_are_missing_witness :
  List.NoDup (columns td_sample)
  /\ In "W-L%" (columns td_sample) /\ ~ In "W-L%" (columns gm_numeric)
  /\ (In "TD" ["TD"] <->
      In "TD" (columns td_sample) /\ ~ In "TD" (columns gm_numeric) /\ "TD" <> "W-L%").
Proof.
  split; [exact td_sample_NoDup |].
  destruct (empty_cols_are_missing td_sample gm_numeric ["TD"] _ td_sample_NoDup
              get_team_stats_numeric) as (H1 & H2 & H3).
  split; [exact H1 |]. split; [exact H2 | apply H3].
Defined.

Lemma no_Str_in_numeric :
  forall l s, In l (columns td_sample) -> In l (columns gm_numeric) ->
              ~ In (Str s) (series gm_numeric l).
Proof.
  intros l s Ht _ Hs. simpl in Ht.
  repeat (destruct Ht as [<- | Ht]; [destruct Hs as [Hs | []]; discriminate Hs |]).
  destruct Ht.
Qed.

Lemma get_team_stats_label_column_witness :
  (exists ec v, get_team_stats td_sample gm_numeric = Ok (ec, v))
  /\ get_team_stats td_no_label gm_numeric = Raise ValueError.
Proof.
  split.
  - apply (get_team_stats_label_column td_sample gm_numeric no_Str_in_numeric).
    split; [simpl; tauto |]. simpl. intros H.
    repeat (destruct H as [H | H]; [discriminate H |]). exact H.
  - apply (get_team_stats_label_column td_no_label gm_numeric).
    + intros l s Ht _ Hs. simpl in Ht.
      repeat (destruct Ht as [<- | Ht]; [destruct Hs as [Hs | []]; discriminate Hs |]).
      destruct Ht.
    + simpl. intros [H _]. repeat (destruct H as [H | H]; [discriminate H |]). exact H.
Defined.

End AggregationMore.

(** ** The roster vector and the order of the members *)

Section RosterOrder.

Local Open Scope Q_scope.

Lemma Qsum_perm (a b : list Q) : Permutation a b -> Qsum a == Qsum b.
Proof.
  induction 1 as [| x a b _ IH | x y a | a b c _ IH1 _ IH2]; simpl.
  - reflexivity.
  - rewrite IH. reflexivity.
  - ring.
  - rewrite IH1. exact IH2.
Qed.

Lemma numeric_values_perm (l l' : list cell) :
  Permutation l l' ->
  match numeric_values l, numeric_values l' with
  | Ok a, Ok b => Permutation a b
  | Raise e, Raise e' => e = e'
  | _, _ => False
  end.
Proof.
  induction 1 as [| x l l' _ IH | x y l | l1 l2 l3 _ IH1 _ IH2].
  - simpl. constructor.
  - destruct x as [q|s|]; simpl; [| reflexivity | exact IH].
    destruct (numeric_values l), (numeric_values l'); simpl; try exact IH.
    constructor. exact IH.
  - destruct x as [q|s|], y as [r|t|]; simpl; try reflexivity;
      destruct (numeric_values l) as [vs|e]; simpl; try reflexivity.
    apply perm_swap.
  - destruct (numeric_values l1), (numeric_values l2), (numeric_values l3);
      try contradiction; [etransitivity; eassumption | congruence].
Qed.

Lemma cell_eqv_refl (c : cell) : cell_eqv c c.
Proof. destruct c; simpl; reflexivity || exact I. Qed.

Lemma team_stat_perm (gm gm' : DataFrame) (l : string) :
  Permutation (rows gm) (rows gm') ->
  match team_stat gm l, team_stat gm' l with
  | Ok a, Ok b => cell_eqv a b
  | Raise e, Raise e' => e = e'
  | _, _ => False
  end.
Proof.
  intros Hp. pose proof (numeric_values_perm (series gm l) (series gm' l)
                            (Permutation_map (at_col l) Hp)) as H.
  unfold team_stat, series_mean, series_sum.
  destruct (numeric_values (series gm l)) as [vs|e],
           (numeric_values (series gm' l)) as [vs'|e']; try contradiction.
  - destruct (has_col l AVERAGED_STATS); cbn [bind].
    + pose proof (Permutation_length H) as Hl. pose proof (Qsum_perm _ _ H) as Hs.
      destruct vs as [|x vs], vs' as [|x' vs']; try discriminate Hl; [exact I |].
      cbn [round1_cell cell_eqv]. apply py_round1_comp. rewrite Hs, Hl. reflexivity.
    + cbn [cell_eqv]. rewrite (Qsum_perm _ _ H). reflexivity.
  - destruct (has_col l AVERAGED_STATS); exact H.
Qed.

Lemma team_stat_loop_perm (gm gm' : DataFrame) (ls keys ec : list string)
    (m m' : gmap string cell) :
  columns gm = columns gm' ->
  Permutation (rows gm) (rows gm') ->
  (forall l, cell_eqv (at_col l m) (at_col l m')) ->
  match team_stat_loop gm ls (keys, m, ec), team_stat_loop gm' ls (keys, m', ec) with
  | Ok (k1, m1, e1), Ok (k2, m2, e2) =>
      k1 = k2 /\ e1 = e2 /\ forall l, cell_eqv (at_col l m1) (at_col l m2)
  | Raise e, Raise e' => e = e'
  | _, _ => False
  end.
Proof.
  intros Hc Hp. revert keys ec m m'.
  induction ls as [|a ls IH]; intros keys ec m m' Hm; [simpl; auto |].
  cbn [team_stat_loop]. rewrite !team_stat_step_eq, <- Hc. cbn [fst snd].
  destruct (has_col a (columns gm)).
  - pose proof (team_stat_perm gm gm' a Hp) as Ha.
    destruct (team_stat gm a) as [v|e], (team_stat gm' a) as [v'|e'];
      try contradiction; [| exact Ha].
    cbn [bind]. unfold dict_set. cbn [fst snd]. apply IH.
    intros l. unfold at_col. destruct (String.eqb_spec a l) as [-> | Hne].
    + rewrite !lookup_insert_eq. exact Ha.
    + rewrite !lookup_insert_ne by exact Hne. apply Hm.
  - cbn [bind]. apply IH, Hm.
Qed.

(** X23. For a roster of at most a million rows whose cells in the
    columns shared with the historical table are missing or whole
    numbers of at most nine digits (their sums are exact in floating
    point, in any order), the roster vector does not depend on the order
    of the roster rows: two frames with the same columns and the same
    rows in another order give the same labels to drop and the same
    columns, with equal values, or raise the same exception. *)
Theorem get_team_stats_order (td gm gm' : DataFrame) :
  columns gm = columns gm' ->
  Permutation (rows gm) (rows gm') ->
  (Z.of_nat (length (rows gm)) <= 1000000)%Z ->
  (forall l c, In l (columns td) -> In l (columns gm) -> In c (series gm l) -> whole_cell c) ->
  match get_team_stats td gm, get_team_stats td gm' with
  | Ok (ec, v), Ok (ec', v') =>
      ec = ec' /\ columns v = columns v'
      /\ Forall2 (fun r r' => forall l, cell_eqv (at_col l r) (at_col l r')) (rows v) (rows v')
  | Raise e, Raise e' => e = e'
  | _, _ => False
  end.
Proof.
  intros Hc Hp _ _. unfold get_team_stats.
  pose proof (team_stat_loop_perm gm gm' (columns td) [] [] ∅ ∅ Hc Hp
                (fun l => cell_eqv_refl _)) as H.
  destruct (team_stat_loop gm (columns td) ([], ∅, [])) as [[[k1 m1] e1]|e],
           (team_stat_loop gm' (columns td) ([], ∅, [])) as [[[k2 m2] e2]|e'];
    try contradiction; [| exact H].
  destruct H as (<- & <- & Hm). cbn [bind].
  destruct (list_remove "W-L%" e1) as [ec|e]; cbn [bind]; [| reflexivity].
  split; [reflexivity |]. unfold from_dict. cbn [fst snd].
  destruct k1; cbn [columns rows]; split; try reflexivity; repeat constructor. exact Hm.
Qed.

Lemma get_team_stats_order_witness :
  Permutation (rows gm_whole) (rows gm_whole_swapped)
  /\ (forall l c, In l (columns td_sample) -> In l (columns gm_whole) ->
                  In c (series gm_whole l) -> whole_cell c)
  /\ exists ec v v',
       get_team_stats td_sample gm_whole = Ok (ec, v)
       /\ get_team_stats td_sample gm_whole_swapped = Ok (ec, v')
       /\ columns v = columns v'
       /\ Forall2 (fun r r' => forall l, cell_eqv (at_col l r) (at_col l r')) (rows v) (rows v').
Proof.
  assert (Hp : Permutation (rows gm_whole) (rows gm_whole_swapped)).
  { cbn [rows gm_whole gm_whole_swapped].
    apply (Permutation_trans (l' := [row_w1; row_q1; row_n1])); [apply perm_swap |].
    apply (Permutation_trans (l' := [row_w1; row_n1; row_q1]));
      [apply perm_skip, perm_swap | apply perm_swap]. }
  assert (Hw : forall l c, In l (columns td_sample) -> In l (columns gm_whole) ->
                           In c (series gm_whole l) -> whole_cell c).
  { intros l c _ Hl Hin. cbn [columns gm_whole] in Hl.
    destruct Hl as [<- | [<- | []]]; vm_compute in Hin;
      repeat (destruct Hin as [<- | Hin]); try contradiction; cbn [whole_cell];
      try exact I;
      match goal with |- exists z, (?q == _)%Q /\ _ => exists (Qnum q) end;
      (split; [reflexivity | vm_compute; discriminate]). }
  split; [exact Hp |]. split; [exact Hw |].
  pose proof (get_team_stats_order td_sample gm_whole gm_whole_swapped eq_refl Hp
                ltac:(vm_compute; discriminate) Hw) as H.
  destruct (get_team_stats td_sample gm_whole) as [[ec v]|e] eqn:E1;
    [| vm_compute in E1; discriminate E1].
  destruct (get_team_stats td_sample gm_whole_swapped) as [[ec' v']|e'] eqn:E2;
    [| contradiction].
  destruct H as (<- & Hcv & Hf). exists ec, v, v'. auto.
Defined.

End RosterOrder.

(** ** More on the table handed to the regression *)

Section TableMore.

Lemma fill_row_at (cols : list string) (r : gmap string cell) (c : string) :
  In c cols ->
  at_col c (fold_right
              (fun c acc => if is_nan (at_col c r) then <[c := Num 0%Q]> acc else acc)
              r cols) = fillna_cell (at_col c r).
Proof.
  intros Hin.
  assert (G : forall cols',
             at_col c (fold_right
                         (fun c acc => if is_nan (at_col c r) then <[c := Num 0%Q]> acc else acc)
                         r cols')
             = if has_col c cols' then fillna_cell (at_col c r) else at_col c r).
  { induction cols' as [|a cols' IH]; [reflexivity |]. cbn [fold_right].
    unfold has_col in *. cbn [existsb]. rewrite String.eqb_sym.
    destruct (String.eqb_spec a c) as [-> | Hne]; cbn [orb].
    - unfold fillna_cell. destruct (is_nan (at_col c r)) eqn:En.
      + unfold at_col at 1. rewrite lookup_insert_eq. reflexivity.
      + rewrite IH. destruct (existsb _ cols'); [| reflexivity].
        unfold fillna_cell. rewrite En. reflexivity.
    - destruct (is_nan (at_col a r)); [| exact IH].
      unfold at_col at 1. rewrite lookup_insert_ne by exact Hne. exact IH. }
  rewrite G, (proj2 (has_col_In _ _) Hin). reflexivity.
Qed.

Lemma list_remove_sub (x : string) (l l' : list string) (c : string) :
  list_remove x l = Ok l' -> In c l' -> In c l.
Proof.
  revert l'. induction l as [|y l IH]; simpl; intros l' H Hc; [discriminate |].
  destruct (String.eqb y x); [injection H as <-; right; exact Hc |].
  destruct (list_remove x l) as [t|]; [| discriminate]. simpl in H. injection H as <-.
  destruct Hc as [-> | Hc]; [left; reflexivity | right; apply (IH t eq_refl Hc)].
Qed.

(** X24. In the table [analyze_team] builds, the historical rows come
    first, in order, each cell as in the historical table with a missing
    value replaced by 0. When the roster shares a statistic with the
    historical table one more row follows, the roster's: it holds, for
    every shared statistic, the value [get_team_stats] computes from the
    condensed roster, with 0 for a missing one. When it shares none, no
    row is added, so the last historical row is the one scored. *)
Theorem analysis_table_rows (agg gm t : DataFrame) :
  analysis_table agg gm = Ok t ->
  exists gm',
    condense_positions gm = Ok gm'
    /\ (forall i r, nth_error (rows agg) i = Some r ->
          exists r', nth_error (rows t) i = Some r'
                     /\ forall c, In c (columns t) -> at_col c r' = fillna_cell (at_col c r))
    /\ ((forall l, In l (columns agg) -> In l (columns gm) -> l = "Team" \/ l = "Season") ->
        length (rows t) = length (rows agg))
    /\ (forall l, In l (columns agg) -> In l (columns gm) -> l <> "Team" -> l <> "Season" ->
          length (rows t) = S (length (rows agg))
          /\ exists x r', team_stat gm' l = Ok x
                          /\ nth_error (rows t) (length (rows agg)) = Some r'
                          /\ at_col l r' = fillna_cell x).
Proof.
  intros H. unfold analysis_table in H.
  apply bind_Ok in H as (gm' & Hgm & H). exists gm'. split; [exact Hgm |].
  pose proof (condense_positions_columns _ _ Hgm) as Ecol.
  apply bind_Ok in H as (td & Htd & H).
  apply bind_Ok in H as ([ec v] & Hst & H).
  apply bind_Ok in H as (td' & Htd' & H). injection H as <-.
  pose proof (fun c => drop_columns_columns _ _ _ c Htd) as Ctd.
  pose proof (fun c => drop_columns_columns _ _ _ c Htd') as Ctd'.
  pose proof (fun c => get_team_stats_columns td gm' ec v c Hst) as Cv.
  pose proof (fun l => get_team_stats_lookup td gm' ec v l Hst) as Lv.
  apply get_team_stats_spec in Hst as (keys & m & Hrm & Ev & Hk & _).
  assert (Hec : forall c, In c ec -> ~ In c (columns gm')).
  { intros c Hc. apply (list_remove_sub _ _ _ _ Hrm) in Hc.
    apply List.filter_In in Hc as [_ Hc]. rewrite negb_true_iff, has_col_false in Hc. exact Hc. }
  unfold drop_columns in Htd, Htd'.
  destruct (forallb _ ["Team"; "Season"]); [| discriminate]. injection Htd as <-.
  destruct (forallb _ ec); [| discriminate]. injection Htd' as <-.
  cbn [columns rows] in *.
  set (cols := columns (fillna0 (concat _ v))).
  assert (Hpart : forall c, In c cols -> ~ In c ec /\ ~ In c ["Team"; "Season"]).
  { intros c Hc. unfold cols in Hc. cbn [fillna0 concat columns] in Hc.
    apply List.in_app_iff in Hc as [Hc | Hc].
    - apply Ctd' in Hc as [Hc He]. apply Ctd in Hc. tauto.
    - apply List.filter_In in Hc as [Hc _]. apply Cv in Hc as [Hc Hg].
      apply Ctd in Hc. split; [intros He; exact (Hec c He Hg) | tauto]. }
  cbn [fillna0 concat rows]. fold cols.
  split; [| split].
  - intros i r Hi.
    eexists. split.
    + rewrite List.nth_error_map, List.nth_error_app1.
      * rewrite !List.nth_error_map, Hi. reflexivity.
      * rewrite !List.length_map. apply List.nth_error_Some. congruence.
    + intros c Hc. destruct (Hpart c Hc) as [H1 H2].
      rewrite (fill_row_at cols _ c Hc), (at_col_drop ec _ c H1).
      exact (f_equal fillna_cell (at_col_drop ["Team"; "Season"] r c H2)).
  - intros Hnone. rewrite List.length_map, List.length_app, !List.length_map.
    assert (Ek : keys = []).
    { apply no_member_nil. intros l Hl. apply Hk in Hl as [Hl Hg]. apply Ctd in Hl as [Hl Hts].
      rewrite Ecol in Hg. destruct (Hnone l Hl Hg) as [-> | ->]; apply Hts; simpl; auto. }
    rewrite Ev, Ek. cbn. lia.
  - intros l Hl Hg Ht Hs.
    assert (Hltd : In l (List.filter (fun c => negb (has_col c ["Team"; "Season"])) (columns agg))).
    { apply Ctd. split; [exact Hl |]. intros [E | [E | []]]; congruence. }
    rewrite <- Ecol in Hg.
    destruct (Lv l Hltd Hg) as (x & row & Hx & Hr & Hrow & Hcv).
    rewrite List.length_map, List.length_app, !List.length_map, Hr. cbn [length].
    split; [lia |]. exists x. eexists. split; [exact Hx |]. split.
    + rewrite List.nth_error_map, List.nth_error_app2 by (rewrite !List.length_map; lia).
      rewrite !List.length_map, Nat.sub_diag. cbn. reflexivity.
    + rewrite fill_row_at.
      * unfold at_col. rewrite Hrow. reflexivity.
      * unfold cols. cbn [fillna0 concat columns]. apply List.in_app_iff.
        destruct (List.in_dec string_dec l
                    (List.filter (fun c => negb (has_col c ec))
                       (List.filter (fun c => negb (has_col c ["Team"; "Season"]))
                          (columns agg)))) as [Hin | Hout]; [left; exact Hin |].
        right. apply List.filter_In. split; [exact Hcv |].
        apply negb_true_iff. apply (proj2 (has_col_false l _)). exact Hout.
Qed.

End TableMore.

Section TableMoreWitnesses.

Lemma analysis_table_rows_witness :
  exists t,
    analysis_table agg_sample gm_missing = Ok t
    /\ length (rows t) = S (length (rows agg_sample))
    /\ exists x r', nth_error (rows t) (length (rows agg_sample)) = Some r'
                    /\ at_col "Yds" r' = fillna_cell x.
Proof.
  eexists. split; [exact analysis_table_missing |].
  destruct (analysis_table_rows agg_sample gm_missing _ analysis_table_missing)
    as (gm' & _ & _ & _ & H).
  destruct (H "Yds") as (Hl & x & r' & _ & Hn & Ha).
  - simpl. tauto.
  - simpl. tauto.
  - discriminate.
  - discriminate.
  - split; [exact Hl |]. exists x, r'. split; [exact Hn | exact Ha].
Defined.

(** X25. [analyze_team] raises [KeyError], and so does the button
    callback, for a roster frame without a ['Cap Hit'] or a ['Pos']
    column, as the frame of an empty team is, and for a historical table
    without its ['Team'] or ['Season'] column. *)
Theorem analyze_team_missing_columns (model : Type)
    (fit : list (list Q) -> list Q -> result model)
    (predict : model -> list (list Q) -> list Q) (agg gm : DataFrame) :
  ~ (In "Cap Hit" (columns gm) /\ In "Pos" (columns gm))
  \/ ~ (In "Team" (columns agg) /\ In "Season" (columns agg)) ->
  analyze_team model fit predict agg gm = Raise KeyError
  /\ update_machinelearning model fit predict agg gm button = Raise KeyError.
Proof.
  intros H.
  assert (E : analysis_table agg gm = Raise KeyError).
  { unfold analysis_table.
    destruct (condense_positions_cases gm) as [Hok Herr].
    destruct (List.in_dec string_dec "Cap Hit" (columns gm)) as [Hc | Hc];
      [| rewrite Herr by tauto; reflexivity].
    destruct (List.in_dec string_dec "Pos" (columns gm)) as [Hp | Hp];
      [| rewrite Herr by tauto; reflexivity].
    destruct (Hok (conj Hc Hp)) as (gm' & -> & _). cbn [bind].
    destruct H as [H | H]; [tauto |].
    unfold drop_columns. cbn [forallb].
    destruct (has_col "Team" (columns agg)) eqn:Et; [| reflexivity].
    destruct (has_col "Season" (columns agg)) eqn:Es; [| reflexivity].
    exfalso. apply H. split; apply has_col_In; assumption. }
  unfold update_machinelearning, analyze_team. rewrite E. split; reflexivity.
Qed.

Lemma analyze_team_missing_columns_witness :
  analyze_team unit const_fit (const_predict (1 # 2)) agg_sample (mkDF [] []) = Raise KeyError
  /\ update_machinelearning unit const_fit (const_predict (1 # 2)) agg_sample (mkDF [] []) button
     = Raise KeyError.
Proof.
  apply (analyze_team_missing_columns unit const_fit (const_predict (1 # 2))
           agg_sample (mkDF [] [])).
  left. simpl. tauto.
Defined.

End TableMoreWitnesses.

(** ** The field chart *)

Section Chart.

Lemma fold_min_spec (t : list Z) (a : Z) :
  (In (fold_left Z.min t a) (a :: t))
  /\ forall z, In z (a :: t) -> fold_left Z.min t a <= z.
Proof.
  revert a. induction t as [|b t IH]; intros a; simpl.
  - split; [left; reflexivity | intros z [-> | []]; lia].
  - destruct (IH (Z.min a b)) as [Hin Hle]. split.
    + destruct Hin as [E | Hin]; [| right; right; exact Hin].
      rewrite <- E. destruct (Z.min_spec a b) as [[_ ->] | [_ ->]]; auto.
    + intros z Hz. assert (Hm : fold_left Z.min t (Z.min a b) <= Z.min a b)
        by (apply Hle; left; reflexivity).
      destruct Hz as [<- | [<- | Hz]]; [lia | lia |]. apply Hle. right. exact Hz.
Qed.

Lemma fold_max_spec (t : list Z) (a : Z) :
  (In (fold_left Z.max t a) (a :: t))
  /\ forall z, In z (a :: t) -> z <= fold_left Z.max t a.
Proof.
  revert a. induction t as [|b t IH]; intros a; simpl.
  - split; [left; reflexivity | intros z [-> | []]; lia].
  - destruct (IH (Z.max a b)) as [Hin Hle]. split.
    + destruct Hin as [E | Hin]; [| right; right; exact Hin].
      rewrite <- E. destruct (Z.max_spec a b) as [[_ ->] | [_ ->]]; auto.
    + intros z Hz. assert (Hm : Z.max a b <= fold_left Z.max t (Z.max a b))
        by (apply Hle; left; reflexivity).
      destruct Hz as [<- | [<- | Hz]]; [lia | lia |]. apply Hle. right. exact Hz.
Qed.

(** The colour the loop picks fits the range. *)
Lemma chart_color_fits (n : Z) (range : list Z) :
  range <> [] ->
  exists lo,
    py_min range = Ok lo
    /\ exists hi,
         (if Z.ltb n lo then Ok 0 else py_max range) = Ok hi
         /\ color_fits n range
              (if Z.ltb n lo then "yellow" else if Z.ltb hi n then "red" else "cyan").
Proof.
  destruct range as [|a t]; [contradiction |]. intros _.
  destruct (fold_min_spec t a) as [Hmin Hmin']. destruct (fold_max_spec t a) as [Hmax Hmax'].
  exists (fold_left Z.min t a). split; [reflexivity |].
  destruct (Z.ltb_spec n (fold_left Z.min t a)) as [Hlt | Hge].
  - exists 0. split; [reflexivity |]. split; [reflexivity |]. split.
    + intros H. specialize (H _ Hmin). lia.
    + intros (x & y & Hx & _ & Hxn). specialize (Hmin' _ Hx). lia.
  - exists (fold_left Z.max t a). split; [reflexivity |].
    destruct (Z.ltb_spec (fold_left Z.max t a) n) as [Hgt | Hle].
    + split; [intros H; specialize (H _ Hmin); lia |]. split; [reflexivity |].
      intros (x & y & _ & Hy & Hyn). specialize (Hmax' _ Hy). lia.
    + split; [intros H; specialize (H _ Hmin); lia |].
      split; [intros H; specialize (H _ Hmax); lia | reflexivity].
Qed.

Lemma combine_snoc {A B} (l : list A) (m : list B) (a : A) (b : B) :
  length l = length m -> combine (l ++ [a]) (m ++ [b]) = combine l m ++ [(a, b)].
Proof.
  revert m. induction l as [|x l IH]; intros [|y m] H; try discriminate H; [reflexivity |].
  simpl. rewrite IH; [reflexivity |]. simpl in H. lia.
Qed.

Lemma add_marker_inv (pc : list string) (key color symbol : string) (fig : figure)
    (xy : Q * Q) :
  chart_inv pc fig ->
  append_symbols key (symbols fig) = symbols fig ++ [symbol] ->
  marker_fits pc (key, (color, symbol)) ->
  chart_inv pc (add_marker key color fig xy).
Proof.
  intros [(Hx & Hy & Hc & Hs) Hm] Es Hfit. unfold chart_inv, aligned, markers, add_marker.
  cbn [x_list y_list color_list label_list symbols]. rewrite Es, !List.length_app. cbn [length].
  split; [lia |].
  rewrite (combine_snoc (color_list fig) (symbols fig)) by lia.
  rewrite combine_snoc by (rewrite List.length_combine; lia).
  apply Forall_app. split; [exact Hm | repeat constructor; exact Hfit].
Qed.

Lemma fold_add_marker_inv (pc : list string) (key color symbol : string)
    (l : list (Q * Q)) (fig : figure) :
  chart_inv pc fig ->
  (forall syms, append_symbols key syms = syms ++ [symbol]) ->
  marker_fits pc (key, (color, symbol)) ->
  chart_inv pc (fold_left (add_marker key color) l fig).
Proof.
  intros Hinv Hs Hfit. revert fig Hinv. induction l as [|xy l IH]; intros fig Hinv; [exact Hinv |].
  simpl. apply IH. apply (add_marker_inv pc key color symbol); [exact Hinv | apply Hs | exact Hfit].
Qed.

Lemma chart_step_inv (pc : list string) (fig : figure) (e : string * loc) :
  entry_ok e -> chart_inv pc fig ->
  exists fig', chart_step pc fig e = Ok fig' /\ chart_inv pc fig'.
Proof.
  intros (side & values & range & symbol & Hr & Hne & Hside & Hval & Hsym & Hfit & Hshape) Hinv.
  destruct e as [key value]. cbn [fst snd] in *. unfold chart_step. rewrite Hr. cbn [bind].
  destruct (chart_color_fits (Z.of_nat (count_occ string_dec pc key)) range Hne)
    as (lo & Elo & hi & Ehi & Hcol).
  rewrite Elo. cbn [bind]. rewrite Ehi. cbn [bind].
  set (color := if Z.ltb _ lo then "yellow" else _) in *.
  assert (Hm : marker_fits pc (key, (color, symbol))).
  { exists side, values, range. auto. }
  destruct value as [x y | l].
  - rewrite Hshape, andb_false_r. eexists. split; [reflexivity |].
    apply (add_marker_inv pc key color symbol); [exact Hinv | apply Hsym | exact Hm].
  - set (l' := if _ && is_defense key then removelast l else l).
    assert (Hl' : l' <> []).
    { unfold l'. cbn [loc_len]. destruct (is_defense key).
      - rewrite andb_true_r. destruct (Z.eqb _ _).
        + destruct l as [|a [|b l]]; simpl in Hshape; try lia. discriminate.
        + destruct l; [simpl in Hshape; lia | discriminate].
      - rewrite andb_false_r. destruct l; [simpl in Hshape; lia | discriminate]. }
    destruct l' as [|a l2] eqn:El; [contradiction |].
    eexists. split; [reflexivity |].
    apply (fold_add_marker_inv pc key color symbol); [exact Hinv | exact Hsym | exact Hm].
Qed.

Lemma chart_loop_inv (pc : list string) (entries : list (string * loc)) (fig : figure) :
  Forall entry_ok entries -> chart_inv pc fig ->
  exists fig', chart_loop pc entries fig = Ok fig' /\ chart_inv pc fig'.
Proof.
  intros H. revert fig. induction H as [|e entries He _ IH]; intros fig Hinv.
  - exists fig. split; [reflexivity | exact Hinv].
  - cbn [chart_loop]. destruct (chart_step_inv pc fig e He Hinv) as (fig1 & -> & Hinv1).
    cbn [bind]. apply IH, Hinv1.
Qed.

Ltac entry_tac side sym rng :=
  match eval cbv in (List.find (fun sv => String.eqb (fst sv) side) POS_COUNTS) with
  | Some (_, ?values) =>
      exists side, values, rng, sym; cbn [fst snd];
      split; [vm_compute; reflexivity |];
      split; [discriminate |];
      split; [simpl; auto 10 |];
      split; [simpl; auto 10 |];
      split; [intros syms; reflexivity |];
      split; [repeat split; intros E; try reflexivity; discriminate E |];
      first [reflexivity | simpl; lia]
  end.

Lemma pos_loc_ok : Forall entry_ok pos_loc.
Proof.
  unfold pos_loc.
  constructor; [entry_tac "Offense" "x" [1] |].
  constructor; [entry_tac "Offense" "x" [1] |].
  constructor; [entry_tac "Offense" "x" [3] |].
  constructor; [entry_tac "Offense" "x" [5] |].
  constructor; [entry_tac "Offense" "x" [1] |].
  constructor; [entry_tac "Defense" "circle-open" [4; 5] |].
  constructor; [entry_tac "Defense" "circle-open" [2; 3] |].
  constructor; [entry_tac "Defense" "circle-open" [2; 3] |].
  constructor; [entry_tac "Defense" "circle-open" [1; 2] |].
  constructor; [entry_tac "Special Teams" "square" [1] |].
  constructor; [entry_tac "Special Teams" "square" [1] |].
  constructor.
Qed.

End Chart.

Section ChartStatements.

Lemma update_bar_chart_inv (data : list team_row) :
  exists fig, update_bar_chart data = Ok fig
              /\ chart_inv (map (fun player => Pos (entry player)) data) fig.
Proof.
  unfold update_bar_chart. apply chart_loop_inv; [exact pos_loc_ok |].
  split; [repeat split | constructor].
Qed.

Lemma nth_error_combine {A B} (l : list A) (m : list B) (i : nat) (a : A) (b : B) :
  nth_error l i = Some a -> nth_error m i = Some b -> nth_error (combine l m) i = Some (a, b).
Proof.
  revert m i. induction l as [|x l IH]; intros [|y m] [|i] Ha Hb; try discriminate; simpl in *.
  - congruence.
  - apply IH; assumption.
Qed.

(** X26. [update_bar_chart] raises for no team; the five lists it hands
    to plotly have one length, so every marker has its coordinates, its
    colour, its label and its symbol. *)
Theorem update_bar_chart_aligned (data : list team_row) :
  exists fig,
    update_bar_chart data = Ok fig
    /\ length (x_list fig) = length (label_list fig)
    /\ length (y_list fig) = length (label_list fig)
    /\ length (color_list fig) = length (label_list fig)
    /\ length (symbols fig) = length (label_list fig).
Proof.
  destruct (update_bar_chart_inv data) as (fig & E & [Ha _]). exists fig. split; [exact E | exact Ha].
Qed.

(** X27. Every marker of the chart is labelled with a position of
    [POS_COUNTS]; it is yellow when the team has fewer players of that
    position than every acceptable count, red when it has more than every
    acceptable count, cyan when the count lies between two acceptable
    counts; its symbol is that of the position's side. *)
Theorem update_bar_chart_markers (data : list team_row) (fig : figure) (i : nat)
    (label color symbol : string) :
  update_bar_chart data = Ok fig ->
  nth_error (label_list fig) i = Some label ->
  nth_error (color_list fig) i = Some color ->
  nth_error (symbols fig) i = Some symbol ->
  exists side values range,
    In (side, values) POS_COUNTS /\ In (label, range) values
    /\ color_fits
         (Z.of_nat (count_occ string_dec (map (fun player => Pos (entry player)) data) label))
         range color
    /\ symbol_fits side symbol.
Proof.
  intros E Hl Hc Hs. destruct (update_bar_chart_inv data) as (fig' & E' & [_ Hm]).
  rewrite E in E'. injection E' as <-.
  rewrite List.Forall_forall in Hm.
  apply (Hm (label, (color, symbol))). unfold markers.
  apply (List.nth_error_In _ i). apply nth_error_combine; [exact Hl |].
  apply nth_error_combine; assumption.
Qed.

Lemma update_bar_chart_markers_witness :
  exists fig,
    update_bar_chart [mkTR 0 pA REMOVE] = Ok fig
    /\ nth_error (label_list fig) 0 = Some "QB"
    /\ nth_error (color_list fig) 0 = Some "cyan"
    /\ nth_error (symbols fig) 0 = Some "x"
    /\ exists side values range,
         In (side, values) POS_COUNTS /\ In ("QB", range) values
         /\ color_fits
              (Z.of_nat (count_occ string_dec
                           (map (fun player => Pos (entry player)) [mkTR 0 pA REMOVE]) "QB"))
              range "cyan"
         /\ symbol_fits side "x".
Proof.
  destruct (update_bar_chart [mkTR 0 pA REMOVE]) as [fig|e] eqn:E;
    [| vm_compute in E; discriminate E].
  exists fig. split; [reflexivity |].
  assert (Hl : nth_error (label_list fig) 0 = Some "QB")
    by (vm_compute in E; injection E as <-; reflexivity).
  assert (Hc : nth_error (color_list fig) 0 = Some "cyan")
    by (vm_compute in E; injection E as <-; reflexivity).
  assert (Hs : nth_error (symbols fig) 0 = Some "x")
    by (vm_compute in E; injection E as <-; reflexivity).
  split; [exact Hl |]. split; [exact Hc |]. split; [exact Hs |].
  exact (update_bar_chart_markers _ fig 0 "QB" "cyan" "x" E Hl Hc Hs).
Defined.

End ChartStatements.

(** ** The percent conversion of the radar chart *)

Section Radar.

Lemma rstrip_percent_snoc (s : string) : rstrip_percent (s +:+ "%") = rstrip_percent s.
Proof.
  induction s as [|a s IH]; [reflexivity |].
  change (String a s +:+ "%") with (String a (s +:+ "%")).
  cbn [rstrip_percent]. rewrite IH. reflexivity.
Qed.

Lemma rstrip_percent_digits (s : string) : all_digits s = true -> rstrip_percent s = s.
Proof.
  induction s as [|a s IH]; intros H; [reflexivity |]. simpl in H.
  apply andb_prop in H as [Ha Hs]. cbn [rstrip_percent]. rewrite (IH Hs).
  destruct s; [| reflexivity].
  destruct (Ascii.eqb_spec a "%") as [-> | _]; [discriminate Ha | reflexivity].
Qed.

Lemma rstrip_percent_decimal (s t : string) :
  all_digits s = true -> all_digits t = true -> t <> EmptyString ->
  rstrip_percent (s +:+ String "." t) = s +:+ String "." t.
Proof.
  intros Hs Ht Hne. induction s as [|a s IH].
  - change ("" +:+ String "." t) with (String "." t).
    cbn [rstrip_percent]. rewrite (rstrip_percent_digits t Ht).
    destruct t; [contradiction | reflexivity].
  - simpl in Hs. apply andb_prop in Hs as [_ Hs].
    change (String a s +:+ String "." t) with (String a (s +:+ String "." t)).
    cbn [rstrip_percent]. rewrite (IH Hs). destruct s; reflexivity.
Qed.

(** X28. The radar conversion takes no notice of a trailing percent sign:
    a cell reads the same with and without it. A cell ["d.t%"], with [d]
    a whole number and [t] one digit, becomes the number [d.t / 100], as
    ["62.5%"] becomes 0.625. *)
Theorem radar_percent (s : string) (n : N) :
  radar_value (Str (s +:+ "%")) = radar_value (Str s)
  /\ exists q,
       radar_value (Str (py_str_int (n / 10) +:+ String "." (py_str_int (n mod 10)) +:+ "%"))
       = Ok (Num q)
       /\ (q == inject_Z (Z.of_N n) / 1000)%Q.
Proof.
  split; [unfold radar_value; rewrite rstrip_percent_snoc; reflexivity |].
  destruct (read_written n) as (q & Hq & Eq).
  exists (q / 100)%Q. split.
  - unfold radar_value.
    assert (A : forall d x : string, d +:+ (x +:+ "%") = (d +:+ x) +:+ "%").
    { intros d x. induction d as [|a d IH]; [reflexivity |].
      change (String a (d +:+ (x +:+ "%")) = String a ((d +:+ x) +:+ "%")).
      rewrite IH. reflexivity. }
    change (String "." (py_str_int (n mod 10)) +:+ "%")
      with (String "." (py_str_int (n mod 10) +:+ "%")).
    change (String "." (py_str_int (n mod 10) +:+ "%"))
      with (String "." (py_str_int (n mod 10)) +:+ "%").
    rewrite A, rstrip_percent_snoc.
    destruct (py_str_int_digits (n / 10)) as (H1 & _ & _).
    destruct (py_str_int_digits (n mod 10)) as (H2 & H3 & _).
    rewrite (rstrip_percent_decimal _ _ H1 H2 H3), Hq. reflexivity.
  - rewrite Eq. field.
Qed.

End Radar.

(** ** The position filter of the player table *)

Section PositionFilter.

Lemma at_col_record (cols : list string) (r : gmap string cell) (c : string) :
  at_col c (filter (fun kv => has_col (fst kv) cols = true) r)
  = if has_col c cols then at_col c r else NaN.
Proof.
  unfold at_col. destruct (has_col c cols) eqn:E.
  - destruct (r !! c) as [x|] eqn:Er.
    + rewrite (map_lookup_filter_Some_2 _ r c x Er E). reflexivity.
    + rewrite map_lookup_filter_None_2; [reflexivity | left; exact Er].
  - rewrite map_lookup_filter_None_2; [reflexivity |].
    right. intros x _. simpl. congruence.
Qed.

Lemma count_position (value : string) (rs : list (gmap string cell)) :
  count (map (at_col "Pos") (List.filter (fun r => is_str value (at_col "Pos" r)) rs))
  = length (List.filter (fun r => is_str value (at_col "Pos" r)) rs).
Proof.
  unfold count. induction rs as [|r rs IH]; [reflexivity |]. cbn [List.filter].
  destruct (is_str value (at_col "Pos" r)) eqn:E; [| exact IH].
  cbn [map List.filter]. destruct (at_col "Pos" r); try discriminate E.
  cbn [is_nan negb length]. f_equal. exact IH.
Qed.

Lemma count_le_length (l : list cell) : (count l <= length l)%nat.
Proof. unfold count. apply List.filter_length_le. Qed.

(** X29. For a position, [mod_pos] shows the columns with at least ten
    values among the players of that position. With fewer than ten such
    players no column is left and the table is empty, without records;
    with ten or more the ['Pos'] column is shown and there is one record
    per player of the position, in order, with the player's cell in
    every shown column and nothing in the others. Without a ['Pos']
    column [mod_pos] raises [AttributeError]. *)
Theorem mod_pos_position (player_df : DataFrame) (value : string) :
  value <> "ALL" ->
  let players := List.filter (fun r => is_str value (at_col "Pos" r)) (rows player_df) in
  (In "Pos" (columns player_df) ->
   exists data cols,
     mod_pos player_df value = Ok (data, cols)
     /\ (forall c, In c cols <->
                   In c (columns player_df) /\ (10 <= count (map (at_col c) players))%nat)
     /\ ((length players < 10)%nat -> cols = [] /\ data = [])
     /\ ((10 <= length players)%nat ->
         In "Pos" cols /\ length data = length players
         /\ forall i r, nth_error players i = Some r ->
              exists d, nth_error data i = Some d
                        /\ forall c, at_col c d = if has_col c cols then at_col c r else NaN))
  /\ (~ In "Pos" (columns player_df) -> mod_pos player_df value = Raise AttributeError).
Proof.
  intros Hv players. unfold mod_pos.
  destruct (String.eqb_spec value "ALL") as [? | _]; [contradiction |]. split.
  - intros Hp. rewrite (proj2 (has_col_In _ _) Hp).
    destruct (remove_empty_spec (mkDF (columns player_df) players)) as (df' & E & Hlen & Hc).
    fold players. rewrite E. cbn [bind]. exists (to_dict_records df'), (columns df').
    split; [reflexivity |]. split; [intros c; apply (Hc c) |]. split.
    + intros Hlt.
      assert (Hnil : columns df' = []).
      { destruct (columns df') as [|c0 cs] eqn:Ecs; [reflexivity |]. exfalso.
        destruct (Hc c0) as [Hi _].
        destruct (proj1 Hi (or_introl eq_refl)) as [_ Hten].
        pose proof (count_le_length (series (mkDF (columns player_df) players) c0)) as Hle.
        unfold series in Hle. cbn [rows] in Hle. rewrite List.length_map in Hle.
        unfold series in Hten. cbn [rows] in Hten. lia. }
      split; [exact Hnil |]. unfold to_dict_records. rewrite Hnil. reflexivity.
    + intros Hge.
      assert (Hpos : In "Pos" (columns df')).
      { apply (proj1 (Hc "Pos")). split; [exact Hp |].
        unfold series. cbn [rows]. unfold players. rewrite count_position. exact Hge. }
      split; [exact Hpos |].
      assert (Erec : to_dict_records df'
                     = map (fun r => filter (fun kv => has_col (fst kv) (columns df') = true) r)
                           (rows df')).
      { unfold to_dict_records. destruct (columns df'); [destruct Hpos | reflexivity]. }
      rewrite Erec, List.length_map. split; [exact Hlen |].
      intros i r Hi.
      assert (Hrows : exists r', nth_error (rows df') i = Some r'
                                 /\ forall c, In c (columns df') -> at_col c r' = at_col c r).
      { destruct (nth_error (rows df') i) as [r'|] eqn:E'.
        - exists r'. split; [reflexivity |]. intros c Hin.
          destruct (Hc c) as [_ Hs]. specialize (Hs Hin). unfold series in Hs.
          cbn [rows] in Hs. apply (f_equal (fun l => nth_error l i)) in Hs.
          rewrite !List.nth_error_map, E', Hi in Hs. simpl in Hs. congruence.
        - apply List.nth_error_None in E'. cbn [rows] in Hlen.
          assert (i < length players)%nat by (apply List.nth_error_Some; congruence). lia. }
      destruct Hrows as (r' & E' & Hr').
      eexists. split; [rewrite List.nth_error_map, E'; reflexivity |].
      intros c. rewrite at_col_record.
      destruct (has_col c (columns df')) eqn:Ec; [| reflexivity].
      apply Hr', has_col_In, Ec.
  - intros Hp. rewrite (proj2 (has_col_false _ _) Hp). reflexivity.
Qed.

Lemma mod_pos_position_witness :
  "WR" <> "ALL"
  /\ (exists data cols, mod_pos df_raw "WR" = Ok (data, cols) /\ cols = [] /\ data = [])
  /\ (exists data cols,
        mod_pos df_wr "WR" = Ok (data, cols)
        /\ In "Pos" cols /\ ~ In "Yds" cols /\ length data = 10%nat)
  /\ mod_pos td_sample "WR" = Raise AttributeError.
Proof.
  split; [discriminate |].
  destruct (mod_pos_position df_raw "WR" ltac:(discriminate)) as [Hraw _].
  destruct (mod_pos_position df_wr "WR" ltac:(discriminate)) as [Hwr _].
  destruct (mod_pos_position td_sample "WR" ltac:(discriminate)) as [_ Herr].
  split; [| split].
  - destruct Hraw as (data & cols & E & _ & Hs & _); [simpl; tauto |].
    exists data, cols. split; [exact E |]. apply Hs. vm_compute. lia.
  - destruct Hwr as (data & cols & E & Hc & _ & Hb); [simpl; tauto |].
    destruct Hb as (Hp & Hl & _); [vm_compute; lia |].
    exists data, cols. split; [exact E |]. split; [exact Hp |]. split; [| exact Hl].
    intros Hy. apply Hc in Hy as [_ Hy]. vm_compute in Hy. lia.
  - apply Herr. simpl. intros H. repeat (destruct H as [H | H]; [discriminate H |]). exact H.
Defined.

End PositionFilter.
